(** * Recurring task scheduling core

    A shallow embedding of the recurrence engine
    ([RecurrenceEngineRRULE]), of the due-task selection helpers
    ([TaskStorage], dashboard [taskState]) and of the [rrule] test double,
    together with models of the scheduler and of the persistence
    controller, and the properties established about them.

    Conventions of the embedding.
    - A JavaScript [Date] is either the invalid date or an instant, an
      integer number of milliseconds since the epoch.  The range limit of
      ECMAScript time values is not modelled.
    - Local time is UTC shifted by a fixed offset [tzOffset] (no daylight
      saving transitions).
    - A thrown exception is the [Throw] alternative of [Result]; [try]/[catch]
      is [try_catch].
    - Logging calls have no effect on any value computed here and are left
      out; what is evaluated to build a log entry is kept where it can
      throw ([toISOString] of a date). *)

From Stdlib Require Import ZArith List String Ascii Bool Lia QArith Qround Sorted.
From stdpp Require Import base gmap strings.
Import ListNotations.

#[local] Open Scope string_scope.
#[local] Open Scope list_scope.
#[local] Open Scope Z_scope.

(** ** Exceptions *)

Inductive Result (A : Type) : Type :=
| Ok (a : A)
| Throw (msg : string).

Arguments Ok {A} a.
Arguments Throw {A} msg.

Definition is_Ok {A} (r : Result A) : bool :=
  match r with Ok _ => true | Throw _ => false end.

(** ** JavaScript numbers and dates *)

Inductive JSNumber : Type :=
| NaN
| Infinity (negative : bool)
| Finite (q : Q).

(** [Number.isFinite] *)
Definition Number_isFinite (n : option JSNumber) : bool :=
  match n with
  | Some (Finite _) => true
  | _ => false
  end.

(** Truncation towards zero, as done by [ToIntegerOrInfinity]. *)
Definition Qtrunc (q : Q) : Z :=
  if Qle_bool 0 q then Qfloor q else Qceiling q.

(** The integer a date setter reads from its argument; [None] when the
    argument makes the time value [NaN]. *)
Definition toInteger (n : JSNumber) : option Z :=
  match n with
  | Finite q => Some (Qtrunc q)
  | _ => None
  end.

(** Truthiness of a number: [NaN] and zero are falsy. *)
Definition Number_truthy (n : JSNumber) : bool :=
  match n with
  | NaN => false
  | Infinity _ => true
  | Finite q => negb (Qeq_bool q 0)
  end.

(** [n === 0] *)
Definition Number_is_zero (n : JSNumber) : bool :=
  match n with
  | Finite q => Qeq_bool q 0
  | _ => false
  end.

Definition ofZ (z : Z) : JSNumber := Finite (inject_Z z).

Inductive Date : Type :=
| InvalidDate
| Time (ms : Z).

Definition msPerSecond : Z := 1000.
Definition msPerMinute : Z := 60000.
Definition msPerHour : Z := 3600000.
Definition msPerDay : Z := 86400000.

(** Relational comparison of two dates: any comparison with the invalid
    date is false. *)
Definition Date_le (a b : Date) : bool :=
  match a, b with
  | Time x, Time y => x <=? y
  | _, _ => false
  end.

Definition Date_lt (a b : Date) : bool :=
  match a, b with
  | Time x, Time y => x <? y
  | _, _ => false
  end.

Definition Date_ge (a b : Date) : bool := Date_le b a.

(** ** Strings *)

Definition startsWith (s prefix : string) : bool := String.prefix prefix s.

Fixpoint drop_chars (n : nat) (s : string) : string :=
  match n, s with
  | O, _ => s
  | S n', String _ s' => drop_chars n' s'
  | S _, EmptyString => EmptyString
  end.

(** [s.substring(n)] *)
Definition substring_from (n : nat) (s : string) : string := drop_chars n s.

(** [s.split(sep)] for a one-character separator: never the empty list. *)
Fixpoint split_go (sep : ascii) (cur : string) (s : string) : list string :=
  match s with
  | EmptyString => [cur]
  | String c s' =>
      if Ascii.eqb c sep then cur :: split_go sep EmptyString s'
      else split_go sep (String.append cur (String c EmptyString)) s'
  end.

Definition split (sep : ascii) (s : string) : list string :=
  split_go sep EmptyString s.

Definition upper_char (c : ascii) : ascii :=
  let n := nat_of_ascii c in
  if ((97 <=? n) && (n <=? 122))%nat then ascii_of_nat (n - 32) else c.

(** [s.toUpperCase()] on ASCII letters. *)
Fixpoint toUpperCase (s : string) : string :=
  match s with
  | EmptyString => EmptyString
  | String c s' => String (upper_char c) (toUpperCase s')
  end.

Fixpoint includes (needle s : string) : bool :=
  String.prefix needle s ||
  match s with
  | EmptyString => false
  | String _ s' => includes needle s'
  end.

(** [s.match(/needle/i)] for a literal upper-case ASCII [needle]. *)
Definition match_ci (needle s : string) : bool :=
  includes needle (toUpperCase s).

Definition is_digit (c : ascii) : bool :=
  let n := nat_of_ascii c in ((48 <=? n) && (n <=? 57))%nat.

Definition digit_val (c : ascii) : Z := Z.of_nat (nat_of_ascii c) - 48.

(** White space skipped by [parseInt], [Number] and trimming (ASCII part). *)
Definition is_space (c : ascii) : bool :=
  let n := nat_of_ascii c in
  ((n =? 32) || ((9 <=? n) && (n <=? 13)))%nat.

Fixpoint skip_spaces (s : string) : string :=
  match s with
  | String c s' => if is_space c then skip_spaces s' else s
  | EmptyString => EmptyString
  end.

(** Longest prefix of decimal digits: its value, its length, and the rest. *)
Fixpoint take_digits (acc : Z) (n : nat) (s : string) : Z * nat * string :=
  match s with
  | String c s' =>
      if is_digit c then take_digits (10 * acc + digit_val c) (S n) s'
      else (acc, n, s)
  | EmptyString => (acc, n, s)
  end.

(** [parseInt(s, 10)] *)
Definition parseInt10 (s : string) : JSNumber :=
  let s1 := skip_spaces s in
  let '(neg, s2) :=
    match s1 with
    | String "-" r => (true, r)
    | String "+" r => (false, r)
    | _ => (false, s1)
    end in
  let '(v, n, _) := take_digits 0 O s2 in
  match n with
  | O => NaN
  | _ => ofZ (if neg : bool then - v else v)
  end.

(** A string is truthy when it is not empty; an absent one is falsy. *)
Definition truthy_str (s : option string) : bool :=
  match s with
  | Some (String _ _) => true
  | _ => false
  end.

(** ** The host: clock-independent built-ins the code relies on

    [Date_parse] is [new Date(text)], [Date_toISOString] is [toISOString] on
    a valid date, [Number] is the [Number] conversion of a string,
    [getUserTimezone] the helper of [@/utils/timezone]. *)

Class JSRuntime : Type := {
  tzOffset : Z;
  Date_parse : string -> Date;
  Date_toISOString : Z -> string;
  Number : string -> JSNumber;
  getUserTimezone : string
}.

(** [d.toISOString()]: a [RangeError] on the invalid date. *)
Definition toISOString {rt : JSRuntime} (d : Date) : Result string :=
  match d with
  | Time t => Ok (Date_toISOString t)
  | InvalidDate => Throw "RangeError: Invalid time value"
  end.

Section LocalTime.
Context {rt : JSRuntime}.

(** Day number and time within the day, in local time. *)
Definition localDay (t : Z) : Z := (t + tzOffset) / msPerDay.
Definition localTimeInDay (t : Z) : Z := (t + tzOffset) mod msPerDay.

Definition hourOf (t : Z) : Z := localTimeInDay t / msPerHour.
Definition minuteOf (t : Z) : Z := (localTimeInDay t mod msPerHour) / msPerMinute.
Definition secondOf (t : Z) : Z := (localTimeInDay t mod msPerMinute) / msPerSecond.
Definition msOf (t : Z) : Z := localTimeInDay t mod msPerSecond.

(** The instant of local day [day] at clock time [h:m:s.ms]. *)
Definition makeLocal (day h m s ms : Z) : Z :=
  day * msPerDay + h * msPerHour + m * msPerMinute + s * msPerSecond + ms
  - tzOffset.

Definition getHours (d : Date) : JSNumber :=
  match d with InvalidDate => NaN | Time t => ofZ (hourOf t) end.

Definition getMinutes (d : Date) : JSNumber :=
  match d with InvalidDate => NaN | Time t => ofZ (minuteOf t) end.

(** [d.setHours(h, m, s, ms)], on a host whose local time is UTC plus
    [tzOffset], for results within the range of time values (beyond it the
    setter gives the invalid date, which is not modelled). *)
Definition setHours4 (d : Date) (h m s ms : JSNumber) : Date :=
  match d, toInteger h, toInteger m, toInteger s, toInteger ms with
  | Time t, Some h', Some m', Some s', Some ms' =>
      Time (makeLocal (localDay t) h' m' s' ms')
  | _, _, _, _, _ => InvalidDate
  end.

(** [d.setHours(h)] *)
Definition setHours (d : Date) (h : JSNumber) : Date :=
  match d, toInteger h with
  | Time t, Some h' =>
      Time (makeLocal (localDay t) h' (minuteOf t) (secondOf t) (msOf t))
  | _, _ => InvalidDate
  end.

(** [d.setMinutes(m)] *)
Definition setMinutes (d : Date) (m : JSNumber) : Date :=
  match d, toInteger m with
  | Time t, Some m' =>
      Time (makeLocal (localDay t) (hourOf t) m' (secondOf t) (msOf t))
  | _, _ => InvalidDate
  end.

(** [d.setSeconds(s)] *)
Definition setSeconds (d : Date) (s : JSNumber) : Date :=
  match d, toInteger s with
  | Time t, Some s' =>
      Time (makeLocal (localDay t) (hourOf t) (minuteOf t) s' (msOf t))
  | _, _ => InvalidDate
  end.

(** [d.setMilliseconds(ms)] *)
Definition setMilliseconds (d : Date) (ms : JSNumber) : Date :=
  match d, toInteger ms with
  | Time t, Some ms' =>
      Time (makeLocal (localDay t) (hourOf t) (minuteOf t) (secondOf t) ms')
  | _, _ => InvalidDate
  end.

(** [d.setDate(d.getDate() + 1)] *)
Definition addOneDay (d : Date) : Date :=
  match d with
  | InvalidDate => InvalidDate
  | Time t => Time (t + msPerDay)
  end.

(** [d.setHours(0, 0, 0, 0)] and [d.setHours(23, 59, 59, 999)] on a copy. *)
Definition startOfLocalDay (d : Date) : Date :=
  setHours4 d (ofZ 0) (ofZ 0) (ofZ 0) (ofZ 0).

Definition endOfLocalDay (d : Date) : Date :=
  setHours4 d (ofZ 23) (ofZ 59) (ofZ 59) (ofZ 999).
End LocalTime.

(** ** Data model *)

(** [Frequency] ([@/core/models/Frequency]): the fields the engine reads. *)
Module Frequency.
Record t : Type := mk {
  type : string;
  interval : Z;
  time : option string;
  rruleString : option string;
  dtstart : option string;
  timezone : option string;
  whenDone : option bool
}.
End Frequency.

(** [Task] ([@/core/models/Task]): the fields read by the engine, the
    storage and the dashboard helpers. *)
Module Task.
Record t : Type := mk {
  id : string;
  name : string;
  dueAt : string;
  enabled : bool;
  timezone : option string;
  whenDone : option bool;
  frequency : Frequency.t
}.

Definition with_dueAt (task : t) (d : string) : t :=
  mk (id task) (name task) d (enabled task) (timezone task) (whenDone task)
     (frequency task).

Definition with_enabled (task : t) (b : bool) : t :=
  mk (id task) (name task) (dueAt task) b (timezone task) (whenDone task)
     (frequency task).
End Task.

(** The option bag of a rule ([origOptions]): a key is present or absent. *)
Module Options.
Record t : Type := mk {
  freq : option Z;
  interval : option JSNumber;
  until : option Date;
  count : option JSNumber;
  byweekday : option (list string);
  dtstart : option Date;
  tzid : option string
}.

Definition empty : t := mk None None None None None None None.

Definition set_freq (o : t) (v : Z) : t :=
  mk (Some v) (interval o) (until o) (count o) (byweekday o) (dtstart o) (tzid o).
Definition set_interval (o : t) (v : JSNumber) : t :=
  mk (freq o) (Some v) (until o) (count o) (byweekday o) (dtstart o) (tzid o).
Definition set_until (o : t) (v : Date) : t :=
  mk (freq o) (interval o) (Some v) (count o) (byweekday o) (dtstart o) (tzid o).
Definition set_count (o : t) (v : JSNumber) : t :=
  mk (freq o) (interval o) (until o) (Some v) (byweekday o) (dtstart o) (tzid o).
Definition set_byweekday (o : t) (v : list string) : t :=
  mk (freq o) (interval o) (until o) (count o) (Some v) (dtstart o) (tzid o).
Definition set_dtstart (o : t) (v : Date) : t :=
  mk (freq o) (interval o) (until o) (count o) (byweekday o) (Some v) (tzid o).
Definition set_tzid (o : t) (v : string) : t :=
  mk (freq o) (interval o) (until o) (count o) (byweekday o) (dtstart o) (Some v).
End Options.

(** A compiled rule object: it keeps the options it was built from. *)
Record RRule : Type := { origOptions : Options.t }.

(** ** The rule-evaluation library the engine is written against

    [rrulestr] and the methods of [RRule] come from the [rrule] package.
    Each may throw.  The first argument of [rrulestr] is the clock reading,
    for implementations that default the anchor to the current time.
    [RRule_validate] is the check done by the constructor [new RRule]. *)

Class RRuleLib : Type := {
  rrulestr : Z -> string -> Result RRule;
  RRule_validate : Options.t -> Result unit;
  RRule_after : RRule -> Date -> bool -> Result (option Date);
  RRule_between : RRule -> Date -> Date -> bool -> Result (list Date);
  RRule_toText : RRule -> Result string
}.

(** [new RRule(options)] *)
Definition RRule_new {lib : RRuleLib} (options : Options.t) : Result RRule :=
  match RRule_validate options with
  | Ok _ => Ok {| origOptions := options |}
  | Throw e => Throw e
  end.

(** ** Computations over the rule cache that may throw *)

Definition M (A : Type) : Type :=
  gmap string RRule -> Result A * gmap string RRule.

Definition ret {A} (a : A) : M A := fun c => (Ok a, c).

Definition throwM {A} (e : string) : M A := fun c => (Throw e, c).

Definition bind {A B} (m : M A) (k : A -> M B) : M B :=
  fun c =>
    match m c with
    | (Ok a, c') => k a c'
    | (Throw e, c') => (Throw e, c')
    end.

Definition lift {A} (r : Result A) : M A := fun c => (r, c).

Definition try_catch {A} (body : M A) (handler : string -> M A) : M A :=
  fun c =>
    match body c with
    | (Ok a, c') => (Ok a, c')
    | (Throw e, c') => handler e c'
    end.

Definition cache_get (k : string) : M (option RRule) :=
  fun c => (Ok (c !! k), c).

Definition cache_set (k : string) (r : RRule) : M unit :=
  fun c => (Ok tt, <[k := r]> c).

Declare Scope engine_scope.
Delimit Scope engine_scope with engine.
Notation "x <- m ;; k" := (bind m (fun x => k))
  (at level 100, m at next level, right associativity) : engine_scope.
Notation "m ;;; k" := (bind m (fun _ => k))
  (at level 100, right associativity) : engine_scope.

(** The same for code that throws but has no cache at hand. *)
Definition bindR {A B} (r : Result A) (k : A -> Result B) : Result B :=
  match r with
  | Ok a => k a
  | Throw e => Throw e
  end.

Definition try_catchR {A} (body : Result A) (handler : string -> A) : A :=
  match body with
  | Ok a => a
  | Throw e => handler e
  end.

(** ** RecurrenceEngineRRULE *)

Record ValidationResult : Type := {
  valid : bool;
  error : option string
}.

Section Engine.
Context {rt : JSRuntime} {lib : RRuleLib}.

(** [rruleString.startsWith('RRULE:') ? rruleString : `RRULE:${rruleString}`] *)
Definition normalize (rruleString : string) : string :=
  if startsWith rruleString "RRULE:" then rruleString
  else String.append "RRULE:" rruleString.

(** [`${task.id}:${task.frequency.rruleString}`] *)
Definition cacheKey (id : string) (rruleString : option string) : string :=
  String.append id
    (String.append ":"
       (match rruleString with Some s => s | None => "undefined" end)).

(** [a || b] on optional strings *)
Definition or_str (a : option string) (b : string) : string :=
  match a with
  | Some (String _ _ as s) => s
  | _ => b
  end.

Definition getRRule (clock : Z) (task : Task.t) : M RRule :=
  (let frequency := Task.frequency task in
   let key := cacheKey (Task.id task) (Frequency.rruleString frequency) in
   cached <- cache_get key ;;
   match cached with
   | Some rrule => ret rrule
   | None =>
       match Frequency.rruleString frequency with
       | None => throwM "TypeError: Cannot read properties of undefined"
       | Some rruleString =>
           let normalized := normalize rruleString in
           parsedRule <- lift (rrulestr clock normalized) ;;
           let options := origOptions parsedRule in
           let options :=
             match Frequency.dtstart frequency with
             | Some (String _ _ as s) => Options.set_dtstart options (Date_parse s)
             | _ =>
                 match Task.dueAt task with
                 | String _ _ as s => Options.set_dtstart options (Date_parse s)
                 | EmptyString => options
                 end
             end in
           let timezone :=
             or_str (Frequency.timezone frequency)
               (or_str (Task.timezone task) getUserTimezone) in
           let options := Options.set_tzid options timezone in
           rrule <- lift (RRule_new options) ;;
           cache_set key rrule ;;;
           ret rrule
       end
   end)%engine.

Definition getBaseDate (task : Task.t) (from : Date) : Date :=
  let whenDone :=
    match Frequency.whenDone (Task.frequency task) with
    | Some b => b
    | None => match Task.whenDone task with Some b => b | None => false end
    end in
  if whenDone then from else from.

(** Nothing in the guarded block throws on a string [time]; the [catch]
    branch would return [date] as well. *)
Definition applyFixedTime (date : Date) (frequency : Frequency.t) : Date :=
  match Frequency.time frequency with
  | Some (String _ _ as time) =>
      let parts := map Number (split ":" time) in
      let hours := nth_error parts 0 in
      let minutes := nth_error parts 1 in
      if negb (Number_isFinite hours) || negb (Number_isFinite minutes)
      then date
      else
        match hours, minutes with
        | Some h, Some m => setHours4 date h m (ofZ 0) (ofZ 0)
        | _, _ => date
        end
  | _ => date
  end.

Definition getNextOccurrence (clock : Z) (task : Task.t) (from : Date)
  : M (option Date) :=
  (if negb (truthy_str (Frequency.rruleString (Task.frequency task)))
   then ret None
   else
     try_catch
       (rrule <- getRRule clock task ;;
        let baseDate := getBaseDate task from in
        next <- lift (RRule_after rrule baseDate false) ;;
        match next with
        | None => ret None
        | Some next => ret (Some (applyFixedTime next (Task.frequency task)))
        end)
       (fun _ => ret None))%engine.

Definition getOccurrencesBetween (clock : Z) (task : Task.t) (from to : Date)
  : M (list Date) :=
  (if negb (truthy_str (Frequency.rruleString (Task.frequency task)))
   then ret []
   else
     try_catch
       (rrule <- getRRule clock task ;;
        occurrences <- lift (RRule_between rrule from to true) ;;
        ret (map (fun date => applyFixedTime date (Task.frequency task))
                 occurrences))
       (fun _ =>
          (* the log entry: [from.toISOString()], [to.toISOString()] *)
          fromText <- lift (toISOString from) ;;
          toText <- lift (toISOString to) ;;
          ret []))%engine.

Definition isOccurrenceOn (clock : Z) (task : Task.t) (date : Date) : M bool :=
  (if negb (truthy_str (Frequency.rruleString (Task.frequency task)))
   then ret false
   else
     try_catch
       (rrule <- getRRule clock task ;;
        let startOfDay := startOfLocalDay date in
        let endOfDay := endOfLocalDay date in
        occurrences <- lift (RRule_between rrule startOfDay endOfDay true) ;;
        ret (0 <? length occurrences)%nat)
       (fun _ =>
          (* the log entry: [date.toISOString()] *)
          dateText <- lift (toISOString date) ;;
          ret false))%engine.

Definition validateRRule (clock : Z) (rruleString : string) : ValidationResult :=
  match rruleString with
  | EmptyString =>
      {| valid := false; error := Some "RRULE string is required" |}
  | _ =>
      try_catchR
        (let normalized := normalize rruleString in
         bindR (rrulestr clock normalized) (fun parsedRule =>
         let options := origOptions parsedRule in
         let options :=
           match Options.dtstart options with
           | Some _ => options
           | None => Options.set_dtstart options (Time clock)
           end in
         bindR (RRule_new options) (fun rrule =>
         let now := Time clock in
         bindR (RRule_after rrule now true) (fun next =>
         match next with
         | Some _ => Ok {| valid := true; error := None |}
         | None =>
             if match Options.until options with
                | Some u => Date_lt u now
                | None => false
                end
             then Ok {| valid := false;
                        error := Some "RRULE has expired (UNTIL date is in the past)" |}
             else
               if match Options.count options with
                  | Some c => Number_truthy c && Number_is_zero c
                  | None => false
                  end
               then Ok {| valid := false; error := Some "RRULE COUNT is 0" |}
               else Ok {| valid := true; error := None |}
         end))))
        (fun e => {| valid := false; error := Some e |})
  end.

(** [rrulestr] is taken to return a single rule (the [RRuleSet] branch is
    not reachable then). *)
Definition toNaturalLanguage (clock : Z) (rruleString : string) : string :=
  match rruleString with
  | EmptyString => ""
  | _ =>
      try_catchR
        (let normalized := normalize rruleString in
         bindR (rrulestr clock normalized) (fun parsedRule =>
         let options := origOptions parsedRule in
         let options :=
           match Options.dtstart options with
           | Some _ => options
           | None => Options.set_dtstart options (Time clock)
           end in
         bindR (RRule_new options) (fun rrule =>
         RRule_toText rrule)))
        (fun _ => rruleString)
  end.

Definition clearCache : M unit := fun _ => (Ok tt, ∅).

Definition getCacheSize : M nat := fun c => (Ok (size c), c).
End Engine.

(** ** The [rrule] test double ([__tests__/rrule-stub.ts]) *)

Module Stub.
Section Stub.
Context {rt : JSRuntime}.

(** The block guarded by [if (opts.dtstart)]: a [Date] object is truthy. *)
Definition applyDtstartTime (result : Date) (opts : Options.t) : Date :=
  match Options.dtstart opts with
  | Some dtstart =>
      let result := setHours result (getHours dtstart) in
      let result := setMinutes result (getMinutes dtstart) in
      let result := setSeconds result (ofZ 0) in
      setMilliseconds result (ofZ 0)
  | None => result
  end.

Definition after (r : RRule) (date : Date) (inc : bool) : option Date :=
  let opts := origOptions r in
  if match Options.until opts with
     | Some until => Date_ge date until
     | None => false
     end
  then None
  else
    let result := date in
    let result := if negb inc then addOneDay result else result in
    Some (applyDtstartTime result opts).

(** The [while (current <= before)] loop; [None] when the fuel runs out. *)
Fixpoint between_loop (fuel : nat) (opts : Options.t)
    (current before : Date) (results : list Date) : option (list Date) :=
  if Date_le current before then
    match fuel with
    | O => None
    | S fuel' =>
        let candidate := applyDtstartTime current opts in
        between_loop fuel' opts (addOneDay current) before
                     (results ++ [candidate])
    end
  else Some results.

(** One iteration per day from [after] to [before]. *)
Definition between_fuel (after before : Date) : nat :=
  match after, before with
  | Time a, Time b => Z.to_nat ((b - a) / msPerDay + 1)
  | _, _ => O
  end.

Definition between (r : RRule) (after before : Date) (inc : bool) : list Date :=
  match between_loop (between_fuel after before) (origOptions r) after before [] with
  | Some results => results
  | None => []
  end.

Definition freqMap (value : string) : option Z :=
  if String.eqb value "YEARLY" then Some 0
  else if String.eqb value "MONTHLY" then Some 1
  else if String.eqb value "WEEKLY" then Some 2
  else if String.eqb value "DAILY" then Some 3
  else if String.eqb value "HOURLY" then Some 4
  else if String.eqb value "MINUTELY" then Some 5
  else if String.eqb value "SECONDLY" then Some 6
  else None.

(** The body of [parts.forEach]. *)
Definition parsePart (options : Options.t) (part : string) : Options.t :=
  let kv := split "=" part in
  match nth_error kv 0, nth_error kv 1 with
  | Some (String _ _ as key), Some (String _ _ as value) =>
      let k := toUpperCase key in
      if String.eqb k "FREQ" then
        Options.set_freq options
          (match freqMap (toUpperCase value) with Some n => n | None => 3 end)
      else if String.eqb k "INTERVAL" then
        Options.set_interval options (parseInt10 value)
      else if String.eqb k "UNTIL" then
        Options.set_until options (Date_parse value)
      else if String.eqb k "COUNT" then
        Options.set_count options (parseInt10 value)
      else if String.eqb k "BYDAY" then
        Options.set_byweekday options (split "," value)
      else options
  | _, _ => options
  end.

Definition rrulestr (clock : Z) (str : string) : Result RRule :=
  let normalized :=
    if startsWith str "RRULE:" then substring_from 6 str else str in
  let parts := split ";" normalized in
  if negb (match_ci "FREQ=" normalized) then Throw "Invalid RRULE format"
  else
    let options := fold_left parsePart parts Options.empty in
    let options :=
      match Options.dtstart options with
      | Some _ => options
      | None => Options.set_dtstart options (Time clock)
      end in
    Ok {| origOptions := options |}.

Definition toText (r : RRule) : string :=
  let freqName :=
    match Options.freq (origOptions r) with
    | Some 0 => "year"
    | Some 1 => "month"
    | Some 2 => "week"
    | Some 3 => "day"
    | Some 4 => "hour"
    | Some 5 => "minute"
    | Some 6 => "second"
    | _ => "day"
    end in
  String.append "every " freqName.
End Stub.
End Stub.

Definition stubLib (rt : JSRuntime) : RRuleLib := {|
  rrulestr := Stub.rrulestr;
  RRule_validate := fun _ => Ok tt;
  RRule_after := fun r date inc => Ok (Stub.after r date inc);
  RRule_between := fun r after before inc => Ok (Stub.between r after before inc);
  RRule_toText := fun r => Ok (Stub.toText r)
|}.

(** ** A concrete host: UTC-offset clock, ISO-8601 dates, decimal numbers *)

Module Host.
Fixpoint string_rev_go (acc s : string) : string :=
  match s with
  | EmptyString => acc
  | String c s' => string_rev_go (String c acc) s'
  end.

Definition trim (s : string) : string :=
  string_rev_go EmptyString
    (skip_spaces (string_rev_go EmptyString (skip_spaces s))).

(** [Number(s)] on decimal literals: optional sign, digits with an optional
    fraction, [Infinity], the empty string; anything else is [NaN].
    Exponents and radix prefixes are outside this fragment. *)
Definition parseNumber (s : string) : JSNumber :=
  match trim s with
  | EmptyString => ofZ 0
  | t =>
      let '(neg, u) :=
        match t with
        | String "-" r => (true, r)
        | String "+" r => (false, r)
        | _ => (false, t)
        end in
      let sign (q : Q) : Q := if neg : bool then Qopp q else q in
      if String.eqb u "Infinity" then Infinity neg
      else
        let '(ip, n1, rest) := take_digits 0 O u in
        match rest with
        | EmptyString =>
            match n1 with O => NaN | _ => Finite (sign (inject_Z ip)) end
        | String "." rest' =>
            let '(fp, n2, rest'') := take_digits 0 O rest' in
            match rest'', (n1 + n2)%nat with
            | EmptyString, S _ =>
                Finite (sign (Qplus (inject_Z ip)
                                    (Qmake fp (Pos.pow 10 (Pos.of_nat n2)))))
            | _, _ => NaN
            end
        | _ => NaN
        end
  end.

(** Exactly [n] decimal digits. *)
Fixpoint digitsN (n : nat) (acc : Z) (s : string) : option (Z * string) :=
  match n with
  | O => Some (acc, s)
  | S n' =>
      match s with
      | String c s' =>
          if is_digit c then digitsN n' (10 * acc + digit_val c) s' else None
      | EmptyString => None
      end
  end.

Definition expect (c : ascii) (s : string) : option string :=
  match s with
  | String c' s' => if Ascii.eqb c c' then Some s' else None
  | EmptyString => None
  end.

(** Days from 1970-01-01 to the civil date [y-m-d] (proleptic Gregorian). *)
Definition daysFromCivil (y m d : Z) : Z :=
  let y' := if m <=? 2 then y - 1 else y in
  let era := y' / 400 in
  let yoe := y' - era * 400 in
  let mp := if m <=? 2 then m + 9 else m - 3 in
  let doy := (153 * mp + 2) / 5 + d - 1 in
  let doe := yoe * 365 + yoe / 4 - yoe / 100 + doy in
  era * 146097 + doe - 719468.

Definition utc (y mo d h mi s ms : Z) : Z :=
  daysFromCivil y mo d * msPerDay + h * msPerHour + mi * msPerMinute
  + s * msPerSecond + ms.

(** [new Date(text)] on [YYYY-MM-DDTHH:mm:ssZ] and
    [YYYY-MM-DDTHH:mm:ss.sssZ]; any other text is the invalid date. *)
Definition parseDate (s : string) : Date :=
  let parsed :=
    '(y, s) ← digitsN 4 0 s;
    s ← expect "-" s;
    '(mo, s) ← digitsN 2 0 s;
    s ← expect "-" s;
    '(d, s) ← digitsN 2 0 s;
    s ← expect "T" s;
    '(h, s) ← digitsN 2 0 s;
    s ← expect ":" s;
    '(mi, s) ← digitsN 2 0 s;
    s ← expect ":" s;
    '(sec, s) ← digitsN 2 0 s;
    '(ms, s) ← match s with
               | String "." s' => digitsN 3 0 s'
               | _ => Some (0, s)
               end;
    match s with
    | String "Z" EmptyString =>
        if (1 <=? mo) && (mo <=? 12) && (1 <=? d) && (d <=? 31)
           && (h <=? 23) && (mi <=? 59) && (sec <=? 59)
        then Some (utc y mo d h mi sec ms)
        else None
    | _ => None
    end in
  match parsed with
  | Some t => Time t
  | None => InvalidDate
  end.

Definition digit_char (z : Z) : ascii := ascii_of_nat (Z.to_nat (z mod 10) + 48).

(** [z] written with exactly [w] decimal digits. *)
Fixpoint fixed_width (w : nat) (z : Z) (acc : string) : string :=
  match w with
  | O => acc
  | S w' => fixed_width w' (z / 10) (String (digit_char z) acc)
  end.

(** The civil date of day number [days] (inverse of [daysFromCivil]). *)
Definition civilFromDays (days : Z) : Z * Z * Z :=
  let z := days + 719468 in
  let era := z / 146097 in
  let doe := z - era * 146097 in
  let yoe := (doe - doe / 1460 + doe / 36524 - doe / 146096) / 365 in
  let doy := doe - (365 * yoe + yoe / 4 - yoe / 100) in
  let mp := (5 * doy + 2) / 153 in
  let d := doy - (153 * mp + 2) / 5 + 1 in
  let m := if mp <? 10 then mp + 3 else mp - 9 in
  let y := yoe + era * 400 + (if m <=? 2 then 1 else 0) in
  (y, m, d).

(** [toISOString] for years 0000 to 9999. *)
Definition toISOString (t : Z) : string :=
  let '(y, m, d) := civilFromDays (t / msPerDay) in
  let r := t mod msPerDay in
  fixed_width 4 y
    (String "-" (fixed_width 2 m
    (String "-" (fixed_width 2 d
    (String "T" (fixed_width 2 (r / msPerHour)
    (String ":" (fixed_width 2 (r mod msPerHour / msPerMinute)
    (String ":" (fixed_width 2 (r mod msPerMinute / msPerSecond)
    (String "." (fixed_width 3 (r mod msPerSecond) "Z")))))))))))).

Definition runtime (offset : Z) : JSRuntime := {|
  tzOffset := offset;
  Date_parse := parseDate;
  Date_toISOString := toISOString;
  Number := parseNumber;
  getUserTimezone := "UTC"
|}.
End Host.


(** ** TaskStorage ([core/storage/TaskStorage.ts]) and the dashboard helpers *)

Module TaskStorage.
Section TaskStorage.
Context {rt : JSRuntime}.

(** [Map<string, Task>]: entries in insertion order, keys unique. *)
Definition t : Type := list (string * Task.t).

(** [Map.prototype.set] *)
Fixpoint map_set (k : string) (v : Task.t) (m : t) : t :=
  match m with
  | [] => [(k, v)]
  | (k', v') :: m' =>
      if String.eqb k' k then (k', v) :: m' else (k', v') :: map_set k v m'
  end.

Definition getAllTasks (tasks : t) : list Task.t := map snd tasks.

Definition getTask (tasks : t) (id : string) : option Task.t :=
  match find (fun kv => String.eqb (fst kv) id) tasks with
  | Some kv => Some (snd kv)
  | None => None
  end.

Definition getEnabledTasks (tasks : t) : list Task.t :=
  List.filter (fun task => Task.enabled task) (getAllTasks tasks).

(** [clock] is the reading of [new Date()]. *)
Definition getTodayAndOverdueTasks (clock : Z) (tasks : t) : list Task.t :=
  let now := Time clock in
  let endOfToday := endOfLocalDay now in
  List.filter (fun task =>
            let dueDate := Date_parse (Task.dueAt task) in
            Date_le dueDate endOfToday)
         (getEnabledTasks tasks).

Definition getTasksInRange (tasks : t) (startDate endDate : Date) : list Task.t :=
  List.filter (fun task =>
            let dueDate := Date_parse (Task.dueAt task) in
            Date_ge dueDate startDate && Date_le dueDate endDate)
         (getEnabledTasks tasks).
(** [STORAGE_KEY] ([utils/constants]) *)
Definition STORAGE_KEY : string := "recurring-tasks".

(** What [plugin.loadData] resolves to: nothing, an object whose [tasks] is
    an array, or any other value. *)
Inductive Data : Type :=
| NoData
| TasksData (tasks : list Task.t)
| OtherData.

(** The two calls made on the SiYuan [Plugin]: [P] is the state of the
    plugin, a rejected promise is [Throw]. *)
Class Plugin (P : Type) : Type := {
  loadData : P -> string -> Result Data;
  saveData : P -> string -> list Task.t -> Result P
}.

(** [Map.prototype.delete] *)
Definition map_delete (k : string) (m : t) : t :=
  List.filter (fun kv => negb (String.eqb (fst kv) k)) m.

(** [new Map(data.tasks.map((task) => [task.id, task]))] *)
Definition map_of_tasks (l : list Task.t) : t :=
  fold_left (fun m task => map_set (Task.id task) task m) l [].

(** A [TaskStorage] object: its plugin and its [tasks] map. *)
Record Storage (P : Type) : Type := {
  plugin : P;
  tasks : t
}.
Arguments plugin {P} _.
Arguments tasks {P} _.

(** [new TaskStorage(plugin)] *)
Definition new {P} (p : P) : Storage P := {| plugin := p; tasks := [] |}.

Definition init {P} `{Plugin P} (s : Storage P) : Storage P :=
  match loadData (plugin s) STORAGE_KEY with
  | Ok (TasksData l) => {| plugin := plugin s; tasks := map_of_tasks l |}
  | Ok _ => s
  | Throw _ => {| plugin := plugin s; tasks := [] |}
  end.

(** [save] logs and rethrows a failure of [saveData]; the storage object is
    returned along with the outcome. *)
Definition save {P} `{Plugin P} (s : Storage P) : Result unit * Storage P :=
  match saveData (plugin s) STORAGE_KEY (getAllTasks (tasks s)) with
  | Ok p' => (Ok tt, {| plugin := p'; tasks := tasks s |})
  | Throw e => (Throw e, s)
  end.

(** [saveTask]: the time stamp written to [task.updatedAt] is not among the
    fields of [Task.t]. *)
Definition saveTask {P} `{Plugin P} (task : Task.t) (s : Storage P)
  : Result unit * Storage P :=
  save {| plugin := plugin s; tasks := map_set (Task.id task) task (tasks s) |}.

Definition deleteTask {P} `{Plugin P} (id : string) (s : Storage P)
  : Result unit * Storage P :=
  save {| plugin := plugin s; tasks := map_delete id (tasks s) |}.

Definition clearAll {P} `{Plugin P} (s : Storage P) : Result unit * Storage P :=
  save {| plugin := plugin s; tasks := [] |}.
End TaskStorage.
End TaskStorage.

Arguments TaskStorage.plugin {P} _.
Arguments TaskStorage.tasks {P} _.
Arguments TaskStorage.Build_Storage {P} _ _.

(** [components/dashboard/taskState] *)
Module TaskState.
Section TaskState.
Context {rt : JSRuntime}.

Definition getTodayAndOverdueTasks (tasks : list Task.t) (now : Date)
  : list Task.t :=
  let endOfToday := endOfLocalDay now in
  List.filter (fun task =>
            if negb (Task.enabled task) then false
            else
              let dueDate := Date_parse (Task.dueAt task) in
              Date_le dueDate endOfToday)
         tasks.
(** [tasks.findIndex((task) => task.id === id)]; [None] is [-1]. *)
Fixpoint findIndex (id : string) (tasks : list Task.t) : option nat :=
  match tasks with
  | [] => None
  | task :: rest =>
      if String.eqb (Task.id task) id then Some O
      else match findIndex id rest with
           | Some i => Some (S i)
           | None => None
           end
  end.

Definition upsertTask (tasks : list Task.t) (nextTask : Task.t) : list Task.t :=
  match findIndex (Task.id nextTask) tasks with
  | None => tasks ++ [nextTask]
  | Some index =>
      let updated := tasks in
      <[index := nextTask]> updated
  end.

Definition removeTask (tasks : list Task.t) (taskId : string) : list Task.t :=
  let next := List.filter (fun task => negb (String.eqb (Task.id task) taskId)) tasks in
  if (length next =? length tasks)%nat then tasks else next.

(** The callback of [tasks.map] in [updateTaskById], with the [didUpdate]
    flag it sets. *)
Definition updateStep (taskId : string) (updater : Task.t -> Task.t)
    (acc : list Task.t * bool) (task : Task.t) : list Task.t * bool :=
  if negb (String.eqb (Task.id task) taskId) then (fst acc ++ [task], snd acc)
  else (fst acc ++ [updater task], true).

Definition updateTaskById (tasks : list Task.t) (taskId : string)
    (updater : Task.t -> Task.t) : list Task.t :=
  let '(next, didUpdate) := fold_left (updateStep taskId updater) tasks ([], false) in
  if didUpdate then next else tasks.
End TaskState.
End TaskState.

(** ** Frequency as declared in [core/models/Frequency.ts] *)

(** [a < b] and [a <= b] on numbers: false as soon as one side is [NaN]. *)
Definition Number_lt (a b : JSNumber) : bool :=
  match a, b with
  | NaN, _ | _, NaN => false
  | Infinity n1, Infinity n2 => n1 && negb n2
  | Infinity n, Finite _ => n
  | Finite _, Infinity n => negb n
  | Finite p, Finite q => negb (Qle_bool q p)
  end.

Definition Number_le (a b : JSNumber) : bool :=
  match a, b with
  | NaN, _ | _, NaN => false
  | _, _ => negb (Number_lt b a)
  end.

Module FrequencyDecl.
Inductive FrequencyType : Type := daily | weekly | monthly.

Record t : Type := mk {
  type : FrequencyType;
  interval : JSNumber;
  time : option string;
  weekdays : option (list JSNumber)
}.

Definition createDefaultFrequency : t :=
  {| type := daily; interval := ofZ 1; time := Some "09:00"; weekdays := None |}.

(** The argument is a [Frequency] object and its [type] one of the three
    non-empty literals, so [!frequency] and [!frequency.type] are false. *)
Definition isValidFrequency (frequency : t) : bool :=
  if negb (Number_truthy (interval frequency)) then false
  else if Number_lt (interval frequency) (ofZ 1) then false
  else
    match type frequency, weekdays frequency with
    | weekly, Some days =>
        forallb (fun day => Number_le (ofZ 0) day && Number_le day (ofZ 6)) days
    | _, _ => true
    end.
End FrequencyDecl.

(** ** StatusRegistry ([core/models/StatusRegistry.ts]) *)

Module StatusType.
Inductive t : Type := TODO | IN_PROGRESS | DONE | CANCELLED | NON_TASK | EMPTY.
End StatusType.

(** A [Status] object: the fields the registry reads and writes. *)
Module Status.
Record t : Type := mk {
  symbol : string;
  name : string;
  nextStatusSymbol : string;
  type : StatusType.t
}.
End Status.

Module StatusRegistry.
Section StatusRegistry.
(** [core/models/Status.ts] is not among the sources: its four static
    instances and [Status.getTypeForUnknownSymbol] are parameters. *)
Variables Status_TODO Status_IN_PROGRESS Status_DONE Status_CANCELLED : Status.t.
Variable getTypeForUnknownSymbol : string -> StatusType.t.

(** [Map<string, Status>]: entries in insertion order, keys unique. *)
Definition t : Type := list (string * Status.t).

(** [Map.prototype.set] *)
Fixpoint map_set (k : string) (v : Status.t) (m : t) : t :=
  match m with
  | [] => [(k, v)]
  | (k', v') :: m' =>
      if String.eqb k' k then (k', v) :: m' else (k', v') :: map_set k v m'
  end.

(** [Map.prototype.get] *)
Definition map_get (k : string) (m : t) : option Status.t :=
  match find (fun kv => String.eqb (fst kv) k) m with
  | Some kv => Some (snd kv)
  | None => None
  end.

Definition add (status : Status.t) (statuses : t) : t :=
  map_set (Status.symbol status) status statuses.

Definition addDefaultStatuses (statuses : t) : t :=
  let statuses := add Status_TODO statuses in
  let statuses := add Status_IN_PROGRESS statuses in
  let statuses := add Status_DONE statuses in
  add Status_CANCELLED statuses.

(** The constructor. *)
Definition new : t := addDefaultStatuses [].

Definition get (symbol : string) (statuses : t) : Status.t :=
  match map_get symbol statuses with
  | Some status => status
  | None =>
      {| Status.symbol := symbol;
         Status.name := "Unknown";
         Status.nextStatusSymbol := "x";
         Status.type := getTypeForUnknownSymbol symbol |}
  end.

Definition getNextStatus (current : Status.t) (statuses : t) : Status.t :=
  get (Status.nextStatusSymbol current) statuses.

Definition getAllStatuses (statuses : t) : list Status.t := map snd statuses.

Definition reset (statuses : t) : t :=
  let statuses : t := [] in
  addDefaultStatuses statuses.
End StatusRegistry.
End StatusRegistry.

(** ** A reference rule evaluator for fixed-period rules

    The [rrule] package is an external collaborator, not part of the
    repository.  This evaluator follows what the specification asks of it
    (section 6, operations (a) and (b)) for the rules whose occurrences are
    [dtstart + k * period]: [SECONDLY], [MINUTELY], [HOURLY], [DAILY] and
    [WEEKLY] without [BYDAY], with [INTERVAL], [UNTIL] and [COUNT]. *)

Module Ref.
Section Ref.
Context {rt : JSRuntime}.

(** Modelled from the spec: the length of one unit of the frequency of a
    rule of the external rule-evaluation library, in milliseconds. *)
Definition unit_ms (freq : option Z) : option Z :=
  match freq with
  | Some 2 => Some (7 * msPerDay)
  | Some 3 => Some msPerDay
  | Some 4 => Some msPerHour
  | Some 5 => Some msPerMinute
  | Some 6 => Some msPerSecond
  | _ => None
  end.

(** Modelled from the spec: the distance between two consecutive
    occurrences of a rule of the external rule-evaluation library. *)
Definition period (o : Options.t) : option Z :=
  match unit_ms (Options.freq o) with
  | None => None
  | Some u =>
      match Options.interval o with
      | None => Some u
      | Some n =>
          match toInteger n with
          | Some i => if 1 <=? i then Some (u * i) else None
          | None => None
          end
      end
  end.

(** Modelled from the spec: the start anchor of a rule of the external
    rule-evaluation library. *)
Definition anchor (o : Options.t) : option Z :=
  match Options.dtstart o with
  | Some (Time a) => Some a
  | _ => None
  end.

(** Modelled from the spec: the end condition of a rule of the external
    rule-evaluation library; occurrence number [k] exists when it is not
    after [UNTIL] and [k] is below [COUNT]. *)
Definition limit_ok (o : Options.t) (a p k : Z) : bool :=
  match Options.until o with
  | Some (Time u) => a + k * p <=? u
  | _ => true
  end
  &&
  match Options.count o with
  | Some c => match toInteger c with Some n => k <? n | None => true end
  | None => true
  end.

(** Modelled from the spec: for the external rule-evaluation library, the
    number of the first occurrence after [x] (at or after it if [inc]). *)
Definition first_index (a p x : Z) (inc : bool) : Z :=
  if inc then Z.max 0 ((x - a + p - 1) / p) else Z.max 0 ((x - a) / p + 1).

(** Modelled from the spec: for the external rule-evaluation library, the
    number of the last occurrence before [y] (at or before it if [inc]). *)
Definition last_index (a p y : Z) (inc : bool) : Z :=
  if inc then (y - a) / p else (y - 1 - a) / p.

(** Modelled from the spec: the check done by the constructor of a rule
    of the external rule-evaluation library; only fixed-period rules with
    a valid anchor are accepted. *)
Definition validate (o : Options.t) : Result unit :=
  match period o, anchor o with
  | Some _, Some _ =>
      match Options.until o with
      | Some InvalidDate => Throw "Invalid options: until"
      | _ => Ok tt
      end
  | None, _ => Throw "Invalid options: freq or interval"
  | _, None => Throw "Invalid options: dtstart"
  end.

(** Modelled from the spec: the external rule-evaluation library (the
    [rrule] package, not part of the repository), operation (a) "first
    occurrence strictly/inclusively after X", for rules whose occurrences
    are [dtstart + k * period]. *)
Definition after (r : RRule) (date : Date) (inc : bool) : Result (option Date) :=
  let o := origOptions r in
  match date, period o, anchor o with
  | Time x, Some p, Some a =>
      let k := first_index a p x inc in
      Ok (if limit_ok o a p k then Some (Time (a + k * p)) else None)
  | InvalidDate, _, _ => Throw "Invalid date passed in to RRule.after"
  | _, _, _ => Throw "Invalid options"
  end.

(** Modelled from the spec: the external rule-evaluation library (the
    [rrule] package, not part of the repository), operation (b) "all
    occurrences between X and Y inclusive". *)
Definition between (r : RRule) (after before : Date) (inc : bool)
  : Result (list Date) :=
  let o := origOptions r in
  match after, before, period o, anchor o with
  | Time x, Time y, Some p, Some a =>
      let k0 := first_index a p x inc in
      let k1 := last_index a p y inc in
      let ks := map (fun i => k0 + Z.of_nat i) (seq 0 (Z.to_nat (k1 - k0 + 1))) in
      Ok (map (fun k => Time (a + k * p)) (List.filter (limit_ok o a p) ks))
  | InvalidDate, _, _, _ | _, InvalidDate, _, _ =>
      Throw "Invalid date passed in to RRule.between"
  | _, _, _, _ => Throw "Invalid options"
  end.
End Ref.
End Ref.

(** Modelled from the spec: the external rule-evaluation library as a
    whole; rule text is read the way the test double reads it. *)
Definition refLib (rt : JSRuntime) : RRuleLib := {|
  rrulestr := Stub.rrulestr;
  RRule_validate := Ref.validate;
  RRule_after := Ref.after;
  RRule_between := Ref.between;
  RRule_toText := fun r => Ok (Stub.toText r)
|}.

(** ** Scheduler *)

Module Scheduler.
(** Modelled from the spec: the [SchedulerEvent] tagged union
    ([core/engine/SchedulerEvents.ts] is not among the sources). *)
Inductive SchedulerEvent : Type :=
| Due (taskId : string) (dueAt : Date)
| Overdue (taskId : string) (missedAt : Date).

(** Modelled from the spec: the storage collaborator as
    [Scheduler.recoverMissedTasks] sees it, the task records and the
    [LastRunMarker] (absent on a cold start). *)
Record Storage : Type := {
  tasks : list Task.t;
  lastRun : option Z
}.

Section Scheduler.
Context {rt : JSRuntime} {lib : RRuleLib}.

(** Modelled from the spec: the per-task step of [Scheduler.checkDueTasks]
    ([core/engine/Scheduler.ts] is not among the sources).  [reported]
    maps a task id to the [dueAt] value last reported for it; the marker
    is cleared once the task's [dueAt] has moved on. *)
Definition checkTask (now : Z)
    (acc : gmap string string * list SchedulerEvent) (task : Task.t)
  : gmap string string * list SchedulerEvent :=
  let '(reported, events) := acc in
  let id := Task.id task in
  let dueAt := Task.dueAt task in
  if Date_le (Date_parse dueAt) (Time now) then
    if bool_decide (reported !! id = Some dueAt) then acc
    else (<[id := dueAt]> reported, events ++ [Due id (Date_parse dueAt)])
  else
    match reported !! id with
    | Some d => if String.eqb d dueAt then acc else (delete id reported, events)
    | None => acc
    end.

(** Modelled from the spec: [Scheduler.checkDueTasks], one poll tick at
    clock reading [now] over the enabled tasks of the storage. *)
Definition checkDueTasks (now : Z) (tasks : list Task.t)
    (reported : gmap string string)
  : gmap string string * list SchedulerEvent :=
  fold_left (checkTask now) (List.filter (fun t => Task.enabled t) tasks)
            (reported, []).

(** Modelled from the spec: the walk of [Scheduler.recoverMissedTasks]
    from the marker up to [now], at most [cap] steps. *)
Fixpoint walk (cap : nat) (clock : Z) (task : Task.t) (cur now : Date)
  : M (list Date) :=
  match cap with
  | O => ret []
  | S cap' =>
      (next <- getNextOccurrence clock task cur ;;
       match next with
       | Some d =>
           if Date_le d now then
             (rest <- walk cap' clock task d now ;; ret (d :: rest))
           else ret []
       | None => ret []
       end)%engine
  end.

(** Modelled from the spec: steps 2 and 3 of
    [Scheduler.recoverMissedTasks] for one task.  [persist] tells whether
    the storage collaborator accepts the updated record. *)
Definition recoverTask (now : Z) (cap : nat) (persist : Task.t -> bool)
    (since : Z) (task : Task.t) : M (list SchedulerEvent * Task.t) :=
  (if negb (Task.enabled task) then ret ([], task)
   else
     missed <- walk cap now task (Time since) (Time now) ;;
     let events := map (Overdue (Task.id task)) missed in
     next <- getNextOccurrence now task (Time now) ;;
     match next with
     | Some (Time d) =>
         let task' := Task.with_dueAt task (Date_toISOString d) in
         if persist task' then ret (events, task') else ret (events, task)
     | _ => ret (events, task)
     end)%engine.

(** Modelled from the spec: [Scheduler.recoverMissedTasks] goes through
    the tasks one by one, in order. *)
Fixpoint recoverAll (now : Z) (cap : nat) (persist : Task.t -> bool)
    (since : Z) (tasks : list Task.t) : M (list SchedulerEvent * list Task.t) :=
  match tasks with
  | [] => ret ([], [])
  | task :: rest =>
      (r <- recoverTask now cap persist since task ;;
       rs <- recoverAll now cap persist since rest ;;
       ret (fst r ++ fst rs, snd r :: snd rs))%engine
  end.

(** Modelled from the spec: [Scheduler.recoverMissedTasks], steps 1 to 4. *)
Definition recoverMissedTasks (now : Z) (cap : nat) (persist : Task.t -> bool)
    (st : Storage) : M (list SchedulerEvent * Storage) :=
  match lastRun st with
  | None => ret ([], {| tasks := tasks st; lastRun := Some now |})
  | Some since =>
      (r <- recoverAll now cap persist since (tasks st) ;;
       ret (fst r, {| tasks := snd r; lastRun := Some now |}))%engine
  end.
End Scheduler.
End Scheduler.

(** ** Persistence controller *)

Module Persistence.
Section Controller.
Variable TaskState : Type.

(** Modelled from the spec: the state of the persistence controller
    ([core/storage/TaskPersistenceController.ts] is not among the
    sources).  [pending] is the single pending-state slot, [timer] the
    deadline of the running debounce timer, [inFlight] the state being
    written, [superseded] whether a save was requested during that write,
    [writes] the calls made to the writer so far, oldest first. *)
Record Controller : Type := {
  pending : option TaskState;
  timer : option Z;
  inFlight : option TaskState;
  superseded : bool;
  writes : list TaskState
}.

(** Modelled from the spec: the persistence controller before any
    request. *)
Definition idle : Controller :=
  {| pending := None; timer := None; inFlight := None; superseded := false;
     writes := [] |}.

(** Modelled from the spec: write execution begins, calling the writer
    with the pending state ([core/storage/TaskPersistenceController.ts] is
    not among the sources). *)
Definition startWrite (c : Controller) : Controller :=
  match pending c, inFlight c with
  | Some s, None =>
      {| pending := pending c; timer := timer c; inFlight := Some s;
         superseded := false; writes := writes c ++ [s] |}
  | _, _ => c
  end.

(** Modelled from the spec: debounce firing, when the clock reaches the
    deadline of the timer. *)
Definition fire (t : Z) (c : Controller) : Controller :=
  match timer c with
  | Some deadline =>
      if deadline <=? t then
        startWrite {| pending := pending c; timer := None;
                      inFlight := inFlight c; superseded := superseded c;
                      writes := writes c |}
      else c
  | None => c
  end.

(** Modelled from the spec: [requestSave(state)] at clock reading [t],
    with debounce delay [D]. *)
Definition requestSave (D : Z) (t : Z) (state : TaskState) (c : Controller)
  : Controller :=
  let c := fire t c in
  {| pending := Some state; timer := Some (t + D); inFlight := inFlight c;
     superseded := match inFlight c with Some _ => true | None => false end;
     writes := writes c |}.

(** Modelled from the spec: the writer settles the write in flight. *)
Definition writeDone (ok : bool) (c : Controller) : Controller :=
  match inFlight c with
  | None => c
  | Some s =>
      if superseded c then
        let c' := {| pending := pending c; timer := timer c; inFlight := None;
                     superseded := false; writes := writes c |} in
        match timer c with
        | None => startWrite c'
        | Some _ => c'
        end
      else if ok then
        {| pending := None; timer := timer c; inFlight := None;
           superseded := false; writes := writes c |}
      else
        {| pending := pending c; timer := timer c; inFlight := Some s;
           superseded := false; writes := writes c ++ [s] |}
  end.

(** Modelled from the spec: what can happen to the persistence
    controller, a save request at a clock reading, the clock reaching a
    reading, the writer settling the write in flight. *)
Inductive Event : Type :=
| RequestSave (t : Z) (state : TaskState)
| Advance (t : Z)
| WriteDone (ok : bool).

(** Modelled from the spec: the reaction of the persistence controller
    to one event. *)
Definition step (D : Z) (c : Controller) (e : Event) : Controller :=
  match e with
  | RequestSave t state => requestSave D t state c
  | Advance t => fire t c
  | WriteDone ok => writeDone ok c
  end.

(** Modelled from the spec: the persistence controller run over a
    sequence of events. *)
Definition run (D : Z) (c : Controller) (es : list Event) : Controller :=
  fold_left (step D) es c.
End Controller.
End Persistence.

(** * Vocabulary of the statements *)

(** What a [catch] handler returns when it builds its log entry from
    [dates] and then returns [a]: [toISOString] throws on an invalid date. *)
Definition afterLogging {A} (dates : list Date) (a : A) : Result A :=
  if forallb (fun d => match d with Time _ => true | InvalidDate => false end) dates
  then Ok a
  else Throw "RangeError: Invalid time value".

Section Vocabulary.
Context {rt : JSRuntime} {lib : RRuleLib}.

(** The cache key [getRRule] uses for a task. *)
Definition taskKey (task : Task.t) : string :=
  cacheKey (Task.id task) (Frequency.rruleString (Task.frequency task)).

(** The guard [task.frequency?.rruleString] passes. *)
Definition hasRule (task : Task.t) : bool :=
  truthy_str (Frequency.rruleString (Task.frequency task)).

(** The hour and minute [applyFixedTime] hands to [setHours]: present
    exactly when [time] is a non-empty string whose first two
    [:]-separated parts both convert to finite numbers. *)
Definition parsedTime (frequency : Frequency.t) : option (Z * Z) :=
  match Frequency.time frequency with
  | Some (String _ _ as time) =>
      match map Number (split ":" time) with
      | Finite qh :: Finite qm :: _ => Some (Qtrunc qh, Qtrunc qm)
      | _ => None
      end
  | _ => None
  end.

(** The overlay of [h:m] on an instant. *)
Definition overlay (h m n : Z) : Z := makeLocal (localDay n) h m 0 0.
End Vocabulary.

(** A call of a method of the engine other than [clearCache]. *)
Inductive EngineCall : Type :=
| CallGetNextOccurrence (clock : Z) (task : Task.t) (from : Date)
| CallGetOccurrencesBetween (clock : Z) (task : Task.t) (from to : Date)
| CallIsOccurrenceOn (clock : Z) (task : Task.t) (date : Date)
| CallValidateRRule (clock : Z) (rruleString : string)
| CallToNaturalLanguage (clock : Z) (rruleString : string)
| CallGetCacheSize.

Section Calls.
Context {rt : JSRuntime} {lib : RRuleLib}.

(** The cache after a call of any method of the engine but [clearCache].
    [validateRRule] and [toNaturalLanguage] do not refer to the cache. *)
Definition runCall (c : gmap string RRule) (call : EngineCall)
  : gmap string RRule :=
  match call with
  | CallGetNextOccurrence clock task from =>
      snd (getNextOccurrence clock task from c)
  | CallGetOccurrencesBetween clock task from to =>
      snd (getOccurrencesBetween clock task from to c)
  | CallIsOccurrenceOn clock task date =>
      snd (isOccurrenceOn clock task date c)
  | CallValidateRRule clock rruleString =>
      let _ := validateRRule clock rruleString in c
  | CallToNaturalLanguage clock rruleString =>
      let _ := toNaturalLanguage clock rruleString in c
  | CallGetCacheSize => snd (getCacheSize c)
  end.

Definition runCalls (c : gmap string RRule) (calls : list EngineCall)
  : gmap string RRule :=
  fold_left runCall calls c.
End Calls.

Section SaveBursts.
Variable TaskState : Type.
Variable D : Z.
Import Persistence.

(** Successive save requests, each arriving before the debounce timer
    armed by the previous one (at time [t]) has fired. *)
Fixpoint withinWindow (t : Z) (calls : list (Z * TaskState)) : Prop :=
  match calls with
  | [] => True
  | (t', _) :: rest => t <= t' < t + D /\ withinWindow t' rest
  end.

Definition requests (calls : list (Z * TaskState)) : list (Event TaskState) :=
  map (fun call => RequestSave TaskState (fst call) (snd call)) calls.

(** The controller after a save request at time [t] with nothing in
    flight. *)
Definition waiting (t : Z) (s : TaskState) : Controller TaskState :=
  {| pending := Some s; timer := Some (t + D); inFlight := None;
     superseded := false; writes := [] |}.
End SaveBursts.

(** ** Concrete hosts and tasks used in the examples *)

Definition utcHost : JSRuntime := Host.runtime 0.

Definition exampleTask (id : string) (rruleString dtstart time : option string)
    (dueAt : string) (enabled : bool) : Task.t :=
  Task.mk id id dueAt enabled None None
    (Frequency.mk "daily" 1 time rruleString dtstart None None).

Definition lateToday : Task.t :=
  exampleTask "late-today" None None None "2024-01-01T11:00:00Z" true.

Definition brokenRuleTask : Task.t :=
  exampleTask "broken" (Some "INVALID_RRULE") None None "2026-01-01T09:00:00Z" true.

Definition dailyAtNine (time : option string) : Task.t :=
  exampleTask "daily-9" (Some "RRULE:FREQ=DAILY;INTERVAL=1")
    (Some "2026-01-01T09:00:00Z") time "2026-01-01T09:00:00Z" true.

Definition hourlyFromNine (time : option string) : Task.t :=
  exampleTask "hourly-9" (Some "RRULE:FREQ=HOURLY;INTERVAL=1")
    (Some "2026-01-01T09:00:00Z") time "2026-01-01T09:00:00Z" true.

Definition dailyAtElevenPinnedToNine : Task.t :=
  exampleTask "daily-11" (Some "RRULE:FREQ=DAILY;INTERVAL=1")
    (Some "2026-01-01T11:00:00Z") (Some "09:00") "2026-01-01T11:00:00Z" true.

Definition dailyNoAnchor (dueAt : string) : Task.t :=
  exampleTask "daily" (Some "FREQ=DAILY") None None dueAt true.

Definition dailyPinnedToNine (dueAt : string) (enabled : bool) : Task.t :=
  exampleTask "daily-task" (Some "FREQ=DAILY;INTERVAL=1") None (Some "09:00")
    dueAt enabled.

(** The rule object compiled from [FREQ=...;INTERVAL=1] with the given
    frequency number and anchor on the UTC host. *)
Definition compiledRule (freq dtstart : Z) : RRule :=
  {| origOptions :=
       Options.mk (Some freq) (Some (ofZ 1)) None None None
                  (Some (Time dtstart)) (Some "UTC") |}.

Ltac unfold_time :=
  unfold hourOf, minuteOf, secondOf, msOf, localTimeInDay, localDay, makeLocal,
    msPerDay, msPerHour, msPerMinute, msPerSecond in *.

Ltac time_arith := unfold_time; Z.div_mod_to_equations; lia.

(** The instant lies within the range of ECMAScript time values, where
    the [TimeClip] of the date setters changes nothing. *)
Definition inTimeRange (t : Z) : Prop :=
  -8640000000000000 <= t <= 8640000000000000.

(** The task with another fixed time of day. *)
Definition withTime (task : Task.t) (time : option string) : Task.t :=
  let f := Task.frequency task in
  Task.mk (Task.id task) (Task.name task) (Task.dueAt task) (Task.enabled task)
    (Task.timezone task) (Task.whenDone task)
    (Frequency.mk (Frequency.type f) (Frequency.interval f) time
       (Frequency.rruleString f) (Frequency.dtstart f) (Frequency.timezone f)
       (Frequency.whenDone f)).

(** The text contains the character. *)
Fixpoint hasChar (ch : ascii) (s : string) : bool :=
  match s with
  | EmptyString => false
  | String a s' => Ascii.eqb a ch || hasChar ch s'
  end.

(** A daily task anchored at 11:00 with fixed time 09:00, due on
    2026-01-02 at 09:00. *)
Definition dailyAtElevenDueAtNine (enabled : bool) : Task.t :=
  exampleTask "daily-11" (Some "RRULE:FREQ=DAILY;INTERVAL=1")
    (Some "2026-01-01T11:00:00Z") (Some "09:00") "2026-01-02T09:00:00Z" enabled.

(** ** Vocabulary of the further properties *)

(** [tasks.find((task) => task.id === id)] *)
Definition findTask (id : string) (tasks : list Task.t) : option Task.t :=
  find (fun task => String.eqb (Task.id task) id) tasks.

(** The updater [(task) => ({ ...task, enabled: !task.enabled })]. *)
Definition toggleEnabled (task : Task.t) : Task.t :=
  Task.with_enabled task (negb (Task.enabled task)).

(** The mock plugin of the test suites: a dictionary from key to stored
    value; [loadData] reads it, [saveData] writes [{ tasks }] into it. *)
#[export] Instance mockPlugin : TaskStorage.Plugin (gmap string TaskStorage.Data) := {|
  TaskStorage.loadData := fun data key =>
    Ok (match data !! key with Some d => d | None => TaskStorage.NoData end);
  TaskStorage.saveData := fun data key tasks =>
    Ok (<[key := TaskStorage.TasksData tasks]> data)
|}.

(** A plugin whose [saveData] always rejects and whose [loadData] finds
    nothing. *)
Definition brokenDisk : TaskStorage.Plugin unit := {|
  TaskStorage.loadData := fun _ _ => Ok TaskStorage.NoData;
  TaskStorage.saveData := fun _ _ _ => Throw "disk full"
|}.

(** The keys of a storage map are pairwise distinct and each entry sits
    under the id of its task. *)
Definition storage_wf (m : TaskStorage.t) : Prop :=
  NoDup (map fst m) /\ Forall (fun kv => fst kv = Task.id (snd kv)) m.

(** A call of a method of [TaskStorage] that changes the object. *)
Inductive StorageCall : Type :=
| CallInit
| CallSaveTask (task : Task.t)
| CallDeleteTask (id : string)
| CallClearAll.

Definition runStorageCall {P} `{TaskStorage.Plugin P}
    (s : TaskStorage.Storage P) (call : StorageCall) : TaskStorage.Storage P :=
  match call with
  | CallInit => TaskStorage.init s
  | CallSaveTask task => snd (TaskStorage.saveTask task s)
  | CallDeleteTask id => snd (TaskStorage.deleteTask id s)
  | CallClearAll => snd (TaskStorage.clearAll s)
  end.

(** The task with other [whenDone] flags, on the task and on its
    frequency. *)
Definition withWhenDone (task : Task.t) (onTask onFrequency : option bool) : Task.t :=
  let f := Task.frequency task in
  Task.mk (Task.id task) (Task.name task) (Task.dueAt task) (Task.enabled task)
    (Task.timezone task) onTask
    (Frequency.mk (Frequency.type f) (Frequency.interval f) (Frequency.time f)
       (Frequency.rruleString f) (Frequency.dtstart f) (Frequency.timezone f)
       onFrequency).

(** The task with another rule string. *)
Definition withRule (task : Task.t) (rruleString : string) : Task.t :=
  let f := Task.frequency task in
  Task.mk (Task.id task) (Task.name task) (Task.dueAt task) (Task.enabled task)
    (Task.timezone task) (Task.whenDone task)
    (Frequency.mk (Frequency.type f) (Frequency.interval f) (Frequency.time f)
       (Some rruleString) (Frequency.dtstart f) (Frequency.timezone f)
       (Frequency.whenDone f)).

(** The entries of a status registry sit under the symbol of their status,
    and no symbol occurs twice. *)
Definition registry_wf (m : StatusRegistry.t) : Prop :=
  NoDup (map fst m) /\ Forall (fun kv => fst kv = Status.symbol (snd kv)) m.

(** A call of a method of [StatusRegistry] that changes the registry. *)
Inductive RegistryCall : Type :=
| CallAdd (status : Status.t)
| CallReset.

Section RegistryCalls.
Variables Status_TODO Status_IN_PROGRESS Status_DONE Status_CANCELLED : Status.t.

Definition runRegistryCall (statuses : StatusRegistry.t) (call : RegistryCall)
  : StatusRegistry.t :=
  match call with
  | CallAdd status => StatusRegistry.add status statuses
  | CallReset =>
      StatusRegistry.reset Status_TODO Status_IN_PROGRESS Status_DONE
        Status_CANCELLED statuses
  end.
End RegistryCalls.

(** The texts the test double's [toText] can produce. *)
Definition stubTexts : list string :=
  ["every year"; "every month"; "every week"; "every day"; "every hour";
   "every minute"; "every second"].

(** * Properties *)

(** ** Local time arithmetic *)

Section LocalTimeFacts.
Context {rt : JSRuntime}.

Lemma localDay_makeLocal day h m :
  0 <= h < 24 -> 0 <= m < 60 ->
  localDay (makeLocal day h m 0 0) = day.
Proof. intros Hh Hm. time_arith. Qed.

Lemma hourOf_makeLocal day h m :
  0 <= h < 24 -> 0 <= m < 60 ->
  hourOf (makeLocal day h m 0 0) = h.
Proof. intros Hh Hm. time_arith. Qed.

Lemma minuteOf_makeLocal day h m :
  0 <= h < 24 -> 0 <= m < 60 ->
  minuteOf (makeLocal day h m 0 0) = m.
Proof. intros Hh Hm. time_arith. Qed.

Lemma secondOf_makeLocal day h m :
  0 <= h < 24 -> 0 <= m < 60 ->
  secondOf (makeLocal day h m 0 0) = 0.
Proof. intros Hh Hm. time_arith. Qed.

Lemma msOf_makeLocal day h m :
  0 <= h < 24 -> 0 <= m < 60 ->
  msOf (makeLocal day h m 0 0) = 0.
Proof. intros Hh Hm. time_arith. Qed.

Lemma localDay_mono a b : a <= b -> localDay a <= localDay b.
Proof. intros H. time_arith. Qed.

Lemma makeLocal_day_start_le t : makeLocal (localDay t) 0 0 0 0 <= t.
Proof. time_arith. Qed.

Lemma makeLocal_day_end_ge t : t <= makeLocal (localDay t) 23 59 59 999.
Proof. time_arith. Qed.

(** An instant at [h:m] of a local day lies between the start and the end
    of that day. *)
Lemma makeLocal_within_day day h m :
  0 <= h < 24 -> 0 <= m < 60 ->
  makeLocal day 0 0 0 0 <= makeLocal day h m 0 0 <= makeLocal day 23 59 59 999.
Proof. intros Hh Hm. time_arith. Qed.

Lemma makeLocal_mono day1 day2 h m :
  day1 <= day2 -> makeLocal day1 h m 0 0 <= makeLocal day2 h m 0 0.
Proof. intros H. time_arith. Qed.

Lemma makeLocal_later_day t day h m :
  0 <= h < 24 -> 0 <= m < 60 ->
  localDay t < day -> t < makeLocal day h m 0 0.
Proof. intros Hh Hm H. time_arith. Qed.

Lemma makeLocal_earlier_day t day h m :
  0 <= h < 24 -> 0 <= m < 60 ->
  day < localDay t -> makeLocal day h m 0 0 < t.
Proof. intros Hh Hm H. time_arith. Qed.

Lemma localDay_next_day t : localDay (t + msPerDay) = localDay t + 1.
Proof. time_arith. Qed.

Lemma localDay_prev_day t : localDay (t - msPerDay) = localDay t - 1.
Proof. time_arith. Qed.

Lemma Qtrunc_inject_Z z : Qtrunc (inject_Z z) = z.
Proof.
  unfold Qtrunc. destruct (Qle_bool 0 (inject_Z z)).
  - apply Qfloor_Z.
  - apply Qceiling_Z.
Qed.

Lemma toInteger_ofZ z : toInteger (ofZ z) = Some z.
Proof. unfold toInteger, ofZ. now rewrite Qtrunc_inject_Z. Qed.

Lemma startOfLocalDay_Time t :
  startOfLocalDay (Time t) = Time (makeLocal (localDay t) 0 0 0 0).
Proof. unfold startOfLocalDay, setHours4. now rewrite !toInteger_ofZ. Qed.

Lemma endOfLocalDay_Time t :
  endOfLocalDay (Time t) = Time (makeLocal (localDay t) 23 59 59 999).
Proof. unfold endOfLocalDay, setHours4. now rewrite !toInteger_ofZ. Qed.
End LocalTimeFacts.

(** ** The fixed-time overlay *)

Section FixedTime.
Context {rt : JSRuntime}.

Lemma applyFixedTime_None date frequency :
  parsedTime frequency = None -> applyFixedTime date frequency = date.
Proof.
  unfold parsedTime, applyFixedTime.
  destruct (Frequency.time frequency) as [[|c s]|]; try reflexivity.
  destruct (map Number (split ":" (String c s))) as [|[| |qh] [|[| |qm] l]];
    simpl; try reflexivity.
  discriminate.
Qed.

Lemma applyFixedTime_Some n frequency h m :
  parsedTime frequency = Some (h, m) ->
  applyFixedTime (Time n) frequency = Time (makeLocal (localDay n) h m 0 0).
Proof.
  unfold parsedTime, applyFixedTime.
  destruct (Frequency.time frequency) as [[|c s]|]; try discriminate.
  destruct (map Number (split ":" (String c s))) as [|[| |qh] [|[| |qm] l]];
    simpl; try discriminate.
  intros [= <- <-]. now rewrite !Qtrunc_inject_Z.
Qed.

Lemma applyFixedTime_Invalid frequency :
  applyFixedTime InvalidDate frequency = InvalidDate.
Proof.
  unfold applyFixedTime.
  destruct (Frequency.time frequency) as [[|c s]|]; try reflexivity.
  destruct (map Number (split ":" (String c s))) as [|[| |qh] [|[| |qm] l]];
    reflexivity.
Qed.

(** A well-formed fixed time replaces hour and minute, zeroes seconds and
    milliseconds, and stays on the same local calendar day. *)
Lemma applyFixedTime_wellformed n frequency h m :
  parsedTime frequency = Some (h, m) ->
  0 <= h < 24 -> 0 <= m < 60 ->
  exists t,
    applyFixedTime (Time n) frequency = Time t /\
    localDay t = localDay n /\
    hourOf t = h /\ minuteOf t = m /\ secondOf t = 0 /\ msOf t = 0.
Proof.
  intros Hp Hh Hm. exists (makeLocal (localDay n) h m 0 0).
  rewrite (applyFixedTime_Some _ _ _ _ Hp).
  split; [reflexivity|].
  split; [now apply localDay_makeLocal|].
  split; [now apply hourOf_makeLocal|].
  split; [now apply minuteOf_makeLocal|].
  split; [now apply secondOf_makeLocal | now apply msOf_makeLocal].
Qed.
End FixedTime.

(** ** The engine: compilation, cache, and the shape of each operation *)

Section EngineFacts.
Context {rt : JSRuntime} {lib : RRuleLib}.

Lemma getBaseDate_from task from : getBaseDate task from = from.
Proof. unfold getBaseDate. now destruct (match _ with Some b => b | None => _ end). Qed.

Lemma getRRule_hit clock task (c : gmap string RRule) r :
  c !! taskKey task = Some r -> getRRule clock task c = (Ok r, c).
Proof.
  intros H. unfold getRRule, bind, cache_get. fold (taskKey task).
  now rewrite H.
Qed.

(** A call of [getRRule] either finds the entry, or compiles the rule and
    adds it under the key of the task, or throws and leaves the cache
    alone. *)
Lemma getRRule_cases clock task (c : gmap string RRule) :
  match getRRule clock task c with
  | (Ok r, c') =>
      (c !! taskKey task = Some r /\ c' = c) \/
      (c !! taskKey task = None /\ c' = <[taskKey task := r]> c)
  | (Throw _, c') => c !! taskKey task = None /\ c' = c
  end.
Proof.
  unfold getRRule, bind, cache_get, cache_set, lift, ret, throwM.
  fold (taskKey task).
  destruct (c !! taskKey task) as [r|] eqn:Hc; [now left|].
  destruct (Frequency.rruleString (Task.frequency task)) as [rs|]; [|now split].
  destruct (rrulestr clock (normalize rs)) as [parsed|e]; [|now split].
  destruct (RRule_new _) as [r|e]; [now right | now split].
Qed.

Lemma getRRule_caches clock task (c c' : gmap string RRule) r :
  getRRule clock task c = (Ok r, c') -> c' !! taskKey task = Some r.
Proof.
  intros H. pose proof (getRRule_cases clock task c) as Hc. rewrite H in Hc.
  destruct Hc as [[Hl ->] | [_ ->]]; [assumption | apply lookup_insert_eq].
Qed.

Lemma getRRule_preserves clock task (c : gmap string RRule) k r :
  c !! k = Some r -> snd (getRRule clock task c) !! k = Some r.
Proof.
  intros H. pose proof (getRRule_cases clock task c) as Hc.
  destruct (getRRule clock task c) as [[r'|e] c']; simpl.
  - destruct Hc as [[_ ->] | [Hn ->]]; [assumption|].
    rewrite lookup_insert_ne; [assumption | congruence].
  - now destruct Hc as [_ ->].
Qed.

(** When the rule text does not parse and nothing is cached for the task,
    [getRRule] throws the parse error. *)
Lemma getRRule_unparseable clock task (c : gmap string RRule) rs e :
  Frequency.rruleString (Task.frequency task) = Some rs ->
  c !! taskKey task = None ->
  rrulestr clock (normalize rs) = Throw e ->
  getRRule clock task c = (Throw e, c).
Proof.
  intros Hrs Hc He. unfold getRRule, bind, cache_get, lift.
  fold (taskKey task). now rewrite Hc, Hrs, He.
Qed.

Lemma getNextOccurrence_unfold clock task from (c : gmap string RRule) :
  getNextOccurrence clock task from c =
  if negb (hasRule task) then (Ok None, c)
  else
    match getRRule clock task c with
    | (Ok rrule, c') =>
        match RRule_after rrule from false with
        | Ok (Some next) =>
            (Ok (Some (applyFixedTime next (Task.frequency task))), c')
        | _ => (Ok None, c')
        end
    | (Throw _, c') => (Ok None, c')
    end.
Proof.
  unfold getNextOccurrence, hasRule.
  destruct (negb _); [reflexivity|].
  unfold try_catch, bind, lift, ret. rewrite getBaseDate_from.
  destruct (getRRule clock task c) as [[rrule|e] c']; [|reflexivity].
  destruct (RRule_after rrule from false) as [[next|]|e]; reflexivity.
Qed.

Lemma getOccurrencesBetween_unfold clock task from to (c : gmap string RRule) :
  getOccurrencesBetween clock task from to c =
  if negb (hasRule task) then (Ok [], c)
  else
    match getRRule clock task c with
    | (Ok rrule, c') =>
        match RRule_between rrule from to true with
        | Ok occurrences =>
            (Ok (map (fun date => applyFixedTime date (Task.frequency task))
                     occurrences), c')
        | Throw _ => (afterLogging [from; to] [], c')
        end
    | (Throw _, c') => (afterLogging [from; to] [], c')
    end.
Proof.
  unfold getOccurrencesBetween, hasRule.
  destruct (negb _); [reflexivity|].
  unfold try_catch, bind, lift, ret.
  destruct (getRRule clock task c) as [[rrule|e] c'];
    [destruct (RRule_between rrule from to true) as [occs|e]; [reflexivity|]|];
    now destruct from, to.
Qed.

Lemma isOccurrenceOn_unfold clock task date (c : gmap string RRule) :
  isOccurrenceOn clock task date c =
  if negb (hasRule task) then (Ok false, c)
  else
    match getRRule clock task c with
    | (Ok rrule, c') =>
        match RRule_between rrule (startOfLocalDay date) (endOfLocalDay date) true with
        | Ok occurrences => (Ok (0 <? length occurrences)%nat, c')
        | Throw _ => (afterLogging [date] false, c')
        end
    | (Throw _, c') => (afterLogging [date] false, c')
    end.
Proof.
  unfold isOccurrenceOn, hasRule.
  destruct (negb _); [reflexivity|].
  unfold try_catch, bind, lift, ret.
  destruct (getRRule clock task c) as [[rrule|e] c'];
    [destruct (RRule_between rrule _ _ true) as [occs|e]; [reflexivity|]|];
    now destruct date.
Qed.

(** No exception leaves [getNextOccurrence]. *)
Lemma getNextOccurrence_total clock task from (c : gmap string RRule) :
  exists v c', getNextOccurrence clock task from c = (Ok v, c').
Proof.
  rewrite getNextOccurrence_unfold.
  destruct (negb _); [eauto|].
  destruct (getRRule clock task c) as [[rrule|e] c']; [|eauto].
  destruct (RRule_after rrule from false) as [[next|]|e]; eauto.
Qed.

(** No exception leaves [getOccurrencesBetween] when both bounds are valid
    dates. *)
Lemma getOccurrencesBetween_total clock task from to (c : gmap string RRule) :
  exists l c',
    getOccurrencesBetween clock task (Time from) (Time to) c = (Ok l, c').
Proof.
  rewrite getOccurrencesBetween_unfold.
  destruct (negb _); [eauto|].
  destruct (getRRule clock task c) as [[rrule|e] c']; [|eauto].
  destruct (RRule_between rrule _ _ true) as [occs|e]; eauto.
Qed.

(** The three cache-using operations leave the cache as [getRRule] left
    it, or untouched when the task has no rule text. *)
Lemma getNextOccurrence_cache clock task from (c : gmap string RRule) :
  snd (getNextOccurrence clock task from c) =
  if negb (hasRule task) then c else snd (getRRule clock task c).
Proof.
  rewrite getNextOccurrence_unfold. destruct (negb _); [reflexivity|].
  destruct (getRRule clock task c) as [[rrule|e] c']; [|reflexivity].
  destruct (RRule_after rrule from false) as [[next|]|e]; reflexivity.
Qed.

Lemma getOccurrencesBetween_cache clock task from to (c : gmap string RRule) :
  snd (getOccurrencesBetween clock task from to c) =
  if negb (hasRule task) then c else snd (getRRule clock task c).
Proof.
  rewrite getOccurrencesBetween_unfold. destruct (negb _); [reflexivity|].
  destruct (getRRule clock task c) as [[rrule|e] c']; [|reflexivity].
  destruct (RRule_between rrule from to true) as [occs|e]; reflexivity.
Qed.

Lemma isOccurrenceOn_cache clock task date (c : gmap string RRule) :
  snd (isOccurrenceOn clock task date c) =
  if negb (hasRule task) then c else snd (getRRule clock task c).
Proof.
  rewrite isOccurrenceOn_unfold. destruct (negb _); [reflexivity|].
  destruct (getRRule clock task c) as [[rrule|e] c']; [|reflexivity].
  destruct (RRule_between rrule _ _ true) as [occs|e]; reflexivity.
Qed.

Lemma getNextOccurrence_preserves clock task from (c : gmap string RRule) k r :
  c !! k = Some r -> snd (getNextOccurrence clock task from c) !! k = Some r.
Proof.
  intros H. rewrite getNextOccurrence_cache.
  destruct (negb _); [assumption | now apply getRRule_preserves].
Qed.
End EngineFacts.

(** ** Due-task selection *)

Section DueSelection.
Context {rt : JSRuntime}.

Lemma storage_getTodayAndOverdueTasks_In clock (tasks : TaskStorage.t) task :
  In task (TaskStorage.getTodayAndOverdueTasks clock tasks) <->
  In task (TaskStorage.getAllTasks tasks) /\
  Task.enabled task = true /\
  Date_le (Date_parse (Task.dueAt task)) (endOfLocalDay (Time clock)) = true.
Proof.
  unfold TaskStorage.getTodayAndOverdueTasks, TaskStorage.getEnabledTasks.
  rewrite !filter_In. tauto.
Qed.

Lemma dashboard_getTodayAndOverdueTasks_In (tasks : list Task.t) now task :
  In task (TaskState.getTodayAndOverdueTasks tasks now) <->
  In task tasks /\
  Task.enabled task = true /\
  Date_le (Date_parse (Task.dueAt task)) (endOfLocalDay now) = true.
Proof.
  unfold TaskState.getTodayAndOverdueTasks. rewrite filter_In.
  destruct (Task.enabled task); simpl; intuition congruence.
Qed.
End DueSelection.

Section CheckDueTasks.
Context {rt : JSRuntime} {lib : RRuleLib}.
Import Scheduler.

Lemma checkTask_events_grow now rep evs task e :
  In e evs -> In e (snd (checkTask now (rep, evs) task)).
Proof.
  intros H. unfold checkTask.
  destruct (Date_le _ _).
  - destruct (bool_decide _); simpl; [assumption|].
    apply in_or_app. now left.
  - destruct (rep !! Task.id task) as [d|]; [|assumption].
    destruct (String.eqb d _); assumption.
Qed.

Lemma fold_checkTask_events_grow now l acc e :
  In e (snd acc) -> In e (snd (fold_left (checkTask now) l acc)).
Proof.
  revert acc. induction l as [|a l IH]; intros [rep evs] H;
    cbn [fold_left]; [assumption|].
  apply IH. now apply checkTask_events_grow.
Qed.

(** Every event added by one step is a [Due] event for the task at hand,
    which is due. *)
Lemma checkTask_new_event now rep evs task e :
  In e (snd (checkTask now (rep, evs) task)) ->
  In e evs \/
  (e = Due (Task.id task) (Date_parse (Task.dueAt task)) /\
   Date_le (Date_parse (Task.dueAt task)) (Time now) = true).
Proof.
  unfold checkTask.
  destruct (Date_le _ _) eqn:Hdue.
  - destruct (bool_decide _); simpl; [now left|].
    intros H. apply in_app_or in H as [H|[<-|[]]]; [now left | now right].
  - destruct (rep !! Task.id task) as [d|]; [|now left].
    destruct (String.eqb d _); now left.
Qed.

Lemma fold_checkTask_sound now l acc e :
  In e (snd (fold_left (checkTask now) l acc)) ->
  In e (snd acc) \/
  exists task,
    In task l /\ e = Due (Task.id task) (Date_parse (Task.dueAt task)) /\
    Date_le (Date_parse (Task.dueAt task)) (Time now) = true.
Proof.
  revert acc. induction l as [|a l IH]; intros [rep evs] H;
    cbn [fold_left] in *; [now left|].
  apply IH in H as [H|(task & Hin & He & Hd)].
  - destruct (checkTask_new_event now rep evs a e H) as [?|[He Hd]]; [now left|].
    right. exists a. split; [now left | auto].
  - right. exists task. split; [now right | auto].
Qed.

(** A marker present after a step was there before, or was set by a
    [Due] event of this step. *)
Lemma checkTask_marker now rep evs task k v :
  fst (checkTask now (rep, evs) task) !! k = Some v ->
  rep !! k = Some v \/
  In (Due k (Date_parse v)) (snd (checkTask now (rep, evs) task)).
Proof.
  unfold checkTask.
  destruct (Date_le _ _).
  - destruct (bool_decide _); simpl; [now left|].
    destruct (decide (Task.id task = k)) as [<-|Hne].
    + rewrite lookup_insert_eq. intros [= <-]. right.
      apply in_or_app. right. now left.
    + rewrite lookup_insert_ne by assumption. now left.
  - destruct (rep !! Task.id task) as [d|] eqn:Hd; [|now left].
    destruct (String.eqb d _); simpl; [now left|].
    destruct (decide (Task.id task = k)) as [<-|Hne].
    + now rewrite lookup_delete_eq.
    + rewrite lookup_delete_ne by assumption. now left.
Qed.

Lemma fold_checkTask_complete now l rep evs task :
  In task l ->
  Date_le (Date_parse (Task.dueAt task)) (Time now) = true ->
  In (Due (Task.id task) (Date_parse (Task.dueAt task)))
     (snd (fold_left (checkTask now) l (rep, evs))) \/
  rep !! Task.id task = Some (Task.dueAt task).
Proof.
  revert rep evs. induction l as [|a l IH]; intros rep evs Hin Hdue; [destruct Hin|].
  cbn [fold_left]. destruct Hin as [->|Hin].
  - destruct (decide (rep !! Task.id task = Some (Task.dueAt task))) as [Hr|Hr];
      [now right|]. left.
    apply fold_checkTask_events_grow. unfold checkTask. rewrite Hdue.
    rewrite bool_decide_eq_false_2 by assumption. simpl.
    apply in_or_app. right. now left.
  - destruct (checkTask now (rep, evs) a) as [rep1 evs1] eqn:Hstep.
    destruct (IH rep1 evs1 Hin Hdue) as [H|H]; [now left|].
    pose proof (checkTask_marker now rep evs a (Task.id task) (Task.dueAt task)) as Hm.
    rewrite Hstep in Hm. simpl in Hm.
    destruct (Hm H) as [?|Hev]; [now right|].
    left. now apply (fold_checkTask_events_grow now l (rep1, evs1)).
Qed.
End CheckDueTasks.

Lemma le_endOfLocalDay_iff {rt : JSRuntime} d now :
  Date_le (Time d) (endOfLocalDay (Time now)) = true <-> localDay d <= localDay now.
Proof.
  rewrite endOfLocalDay_Time. simpl. rewrite Z.leb_le. split; intros H; time_arith.
Qed.

(** C1, amended.  During [checkDueTasks] every [Due] event is for an enabled
    task of the storage whose [dueAt] is at or before the current time, on a
    tick with no earlier report every such task gets its event, and no [Due]
    event carries a [dueAt] in the future.  The selection helper
    [getTodayAndOverdueTasks] (dashboard function and storage method) returns
    exactly the enabled tasks whose [dueAt] is at or before the end of the
    current local day (23:59:59.999), that is, whose [dueAt] falls on the
    local day of [now] or on an earlier one. *)
Theorem due_events_and_today_selection {rt : JSRuntime}
    (now : Z) (tasks : list Task.t) :
  (forall reported id d,
      In (Scheduler.Due id d) (snd (Scheduler.checkDueTasks now tasks reported)) ->
      exists task,
        In task tasks /\ Task.enabled task = true /\ id = Task.id task /\
        d = Date_parse (Task.dueAt task) /\ Date_le d (Time now) = true) /\
  (forall task,
      In task tasks -> Task.enabled task = true ->
      Date_le (Date_parse (Task.dueAt task)) (Time now) = true ->
      In (Scheduler.Due (Task.id task) (Date_parse (Task.dueAt task)))
         (snd (Scheduler.checkDueTasks now tasks ∅))) /\
  (forall reported id d,
      now < d ->
      ~ In (Scheduler.Due id (Time d))
           (snd (Scheduler.checkDueTasks now tasks reported))) /\
  (forall task,
      In task (TaskState.getTodayAndOverdueTasks tasks (Time now)) <->
      In task tasks /\ Task.enabled task = true /\
      exists d, Date_parse (Task.dueAt task) = Time d /\
                localDay d <= localDay now) /\
  (forall (storage : TaskStorage.t) task,
      In task (TaskStorage.getTodayAndOverdueTasks now storage) <->
      In task (TaskStorage.getAllTasks storage) /\ Task.enabled task = true /\
      exists d, Date_parse (Task.dueAt task) = Time d /\
                localDay d <= localDay now).
Proof.
  assert (Hday : forall task,
             Date_le (Date_parse (Task.dueAt task)) (endOfLocalDay (Time now)) = true <->
             exists d, Date_parse (Task.dueAt task) = Time d /\
                       localDay d <= localDay now).
  { intros task. destruct (Date_parse (Task.dueAt task)) as [|d].
    - split; [discriminate | intros (d & Hd & _); discriminate].
    - rewrite le_endOfLocalDay_iff. split.
      + intros H. now exists d.
      + now intros (d' & [= <-] & H). }
  assert (Hsound : forall reported id d,
             In (Scheduler.Due id d) (snd (Scheduler.checkDueTasks now tasks reported)) ->
             exists task,
               In task tasks /\ Task.enabled task = true /\ id = Task.id task /\
               d = Date_parse (Task.dueAt task) /\ Date_le d (Time now) = true).
  { intros reported id d H. unfold Scheduler.checkDueTasks in H.
    apply fold_checkTask_sound in H as [[]|(task & Hin & [= -> ->] & Hdue)].
    apply filter_In in Hin as [Hin Hen]. exists task. auto. }
  split; [exact Hsound|]. split; [|split; [|split]].
  - intros task Hin Hen Hdue. unfold Scheduler.checkDueTasks.
    destruct (fold_checkTask_complete now
                (List.filter (fun t => Task.enabled t) tasks) ∅ [] task) as [H|H].
    + apply filter_In. now split.
    + assumption.
    + assumption.
    + now rewrite lookup_empty in H.
  - intros reported id d Hfut H.
    apply Hsound in H as (task & _ & _ & _ & _ & Hle).
    simpl in Hle. apply Z.leb_le in Hle. lia.
  - intros task. rewrite dashboard_getTodayAndOverdueTasks_In, Hday. tauto.
  - intros storage task. rewrite storage_getTodayAndOverdueTasks_In, Hday. tauto.
Qed.

(** C1 as stated fails: at 2024-01-01T10:00:00Z (UTC host) an enabled task
    due at 11:00 the same day, one hour in the future, is returned by both
    versions of [getTodayAndOverdueTasks] although its [dueAt] is not at or
    before [now]. *)
Lemma today_selection_includes_future_task :
  @Date_parse utcHost "2024-01-01T10:00:00Z" = Time 1704103200000 /\
  Task.enabled lateToday = true /\
  Date_le (@Date_parse utcHost (Task.dueAt lateToday)) (Time 1704103200000) = false /\
  @Date_parse utcHost (Task.dueAt lateToday) = Time (1704103200000 + msPerHour) /\
  @TaskState.getTodayAndOverdueTasks utcHost [lateToday] (Time 1704103200000)
    = [lateToday] /\
  @TaskStorage.getTodayAndOverdueTasks utcHost 1704103200000
    [(Task.id lateToday, lateToday)] = [lateToday].
Proof. vm_compute. repeat split. Qed.

(** ** Unparseable rules *)

(** [getNextOccurrence] answers [null] in exactly four situations. *)
Lemma getNextOccurrence_None_iff {rt : JSRuntime} {lib : RRuleLib}
    clock task from (c c' : gmap string RRule) :
  getNextOccurrence clock task from c = (Ok None, c') <->
  (hasRule task = false /\ c' = c) \/
  (hasRule task = true /\
   ((exists e, getRRule clock task c = (Throw e, c')) \/
    (exists rrule, getRRule clock task c = (Ok rrule, c') /\
                   ((exists e, RRule_after rrule from false = Throw e) \/
                    RRule_after rrule from false = Ok None)))).
Proof.
  rewrite getNextOccurrence_unfold.
  destruct (hasRule task); simpl.
  - destruct (getRRule clock task c) as [[rrule|e] c1].
    + destruct (RRule_after rrule from false) as [[next|]|e] eqn:Ha; split.
      * discriminate.
      * intros [[? _]|[_ [[e H]|(r & [= <- <-] & [[e H]|H])]]]; congruence.
      * intros [= <-]. right. split; [reflexivity|]. right. exists rrule. auto.
      * intros [[? _]|[_ [[e H]|(r & [= <- <-] & _)]]]; congruence.
      * intros [= <-]. right. split; [reflexivity|]. right. exists rrule. eauto.
      * intros [[? _]|[_ [[e' H]|(r & [= <- <-] & _)]]]; congruence.
    + split.
      * intros [= <-]. right. split; [reflexivity|]. left. eauto.
      * intros [[? _]|[_ [[e' [= _ <-]]|(r & H & _)]]]; congruence.
  - split.
    + intros [= <-]. now left.
    + intros [[_ ->]|[? _]]; congruence.
Qed.

(** C2, amended.  For every rule string that cannot be parsed (and is not
    shadowed by a cache entry), [getNextOccurrence] catches the parse error
    and returns [null] to its caller, leaving the cache unchanged; no call of
    [getNextOccurrence] throws; and [null] is returned exactly when the task
    has no rule text, when compiling the rule throws, when the library's
    [after] throws, or when the series has ended. *)
Theorem unparseable_rule_yields_null {rt : JSRuntime} {lib : RRuleLib}
    clock task from (c : gmap string RRule) rs e :
  Frequency.rruleString (Task.frequency task) = Some rs ->
  c !! taskKey task = None ->
  rrulestr clock (normalize rs) = Throw e ->
  getNextOccurrence clock task from c = (Ok None, c) /\
  (forall clock' task' from' (c0 : gmap string RRule),
      exists v c1, getNextOccurrence clock' task' from' c0 = (Ok v, c1)) /\
  (forall clock' task' from' (c0 c1 : gmap string RRule),
      getNextOccurrence clock' task' from' c0 = (Ok None, c1) <->
      (hasRule task' = false /\ c1 = c0) \/
      (hasRule task' = true /\
       ((exists e', getRRule clock' task' c0 = (Throw e', c1)) \/
        (exists rrule, getRRule clock' task' c0 = (Ok rrule, c1) /\
                       ((exists e', RRule_after rrule from' false = Throw e') \/
                        RRule_after rrule from' false = Ok None))))).
Proof.
  intros Hrs Hc He. split; [|split].
  - rewrite getNextOccurrence_unfold.
    rewrite (getRRule_unparseable clock task c rs e Hrs Hc He).
    now destruct (negb (hasRule task)).
  - intros. apply getNextOccurrence_total.
  - intros. apply getNextOccurrence_None_iff.
Qed.

Lemma unparseable_rule_yields_null_witness :
  Frequency.rruleString (Task.frequency brokenRuleTask) = Some "INVALID_RRULE" /\
  (∅ : gmap string RRule) !! @taskKey brokenRuleTask = None /\
  @rrulestr (stubLib utcHost) 0 (normalize "INVALID_RRULE")
    = Throw "Invalid RRULE format" /\
  @getNextOccurrence utcHost (stubLib utcHost) 0 brokenRuleTask (Time 0) ∅
    = (Ok None, ∅).
Proof.
  split; [reflexivity|]. split; [reflexivity|]. split; [reflexivity|].
  exact (proj1 (@unparseable_rule_yields_null utcHost (stubLib utcHost) 0
                  brokenRuleTask (Time 0) ∅ "INVALID_RRULE" "Invalid RRULE format"
                  eq_refl eq_refl eq_refl)).
Defined.

(** C2 as stated fails: with the test double as the library, the rule text
    [INVALID_RRULE] does not parse ([rrulestr] throws), yet
    [getNextOccurrence] returns [null] instead of surfacing the error. *)
Lemma unparseable_rule_reported_as_null :
  @rrulestr (stubLib utcHost) 1767258000000 (normalize "INVALID_RRULE")
    = Throw "Invalid RRULE format" /\
  fst (@getNextOccurrence utcHost (stubLib utcHost) 1767258000000 brokenRuleTask
         (@Date_parse utcHost "2026-01-01T09:00:00Z") ∅) = Ok None.
Proof. vm_compute. split; reflexivity. Qed.

(** ** Occurrences in a range *)

Section OverlayOnLists.
Context {rt : JSRuntime}.

Lemma map_applyFixedTime_None frequency (l : list Date) :
  parsedTime frequency = None ->
  map (fun d => applyFixedTime d frequency) l = l.
Proof.
  intros H. induction l as [|d l IH]; simpl; [reflexivity|].
  now rewrite IH, applyFixedTime_None.
Qed.

Lemma map_applyFixedTime_Some frequency h m (raw : list Z) :
  parsedTime frequency = Some (h, m) ->
  map (fun d => applyFixedTime d frequency) (map Time raw) =
  map Time (map (overlay h m) raw).
Proof.
  intros H. induction raw as [|n raw IH]; simpl; [reflexivity|].
  now rewrite IH, (applyFixedTime_Some n frequency h m H).
Qed.

Lemma overlay_mono h m a b : a <= b -> overlay h m a <= overlay h m b.
Proof. intros H. unfold overlay. apply makeLocal_mono, localDay_mono, H. Qed.

Lemma overlay_strict h m a b :
  0 <= h < 24 -> 0 <= m < 60 ->
  localDay a < localDay b -> overlay h m a < overlay h m b.
Proof. intros Hh Hm H. unfold overlay. time_arith. Qed.

Lemma overlay_sorted h m (raw : list Z) :
  StronglySorted Z.lt raw -> StronglySorted Z.le (map (overlay h m) raw).
Proof.
  induction 1 as [|a l Hs IH Hall]; simpl; constructor; [assumption|].
  rewrite List.Forall_map. eapply List.Forall_impl; [|exact Hall].
  intros b Hb. simpl. apply overlay_mono. lia.
Qed.

Lemma overlay_sorted_strict h m (raw : list Z) :
  0 <= h < 24 -> 0 <= m < 60 ->
  StronglySorted (fun a b => localDay a < localDay b) raw ->
  StronglySorted Z.lt (map (overlay h m) raw).
Proof.
  intros Hh Hm. induction 1 as [|a l Hs IH Hall]; simpl; constructor; [assumption|].
  rewrite List.Forall_map. eapply List.Forall_impl; [|exact Hall].
  intros b Hb. simpl. now apply overlay_strict.
Qed.

(** Overlaid occurrences of a range stay within the local days the range
    touches. *)
Lemma overlay_range h m from to (raw : list Z) :
  0 <= h < 24 -> 0 <= m < 60 ->
  Forall (fun t => from <= t <= to) raw ->
  Forall (fun t => makeLocal (localDay from) 0 0 0 0 <= t
                   <= makeLocal (localDay to) 23 59 59 999)
         (map (overlay h m) raw).
Proof.
  intros Hh Hm H. rewrite List.Forall_map. eapply List.Forall_impl; [|exact H].
  intros t [H1 H2]. simpl. unfold overlay.
  pose proof (localDay_mono _ _ H1). pose proof (localDay_mono _ _ H2).
  time_arith.
Qed.
End OverlayOnLists.



(** C3, at its failing input.  A daily rule anchored at 2026-01-01T09:00Z
    with fixed time 15:00, asked for the occurrences between
    2026-01-01T00:00Z and 12:00Z: the library (the reference evaluator, and
    the test double alike) answers with the in-range occurrence 09:00, and
    the engine returns 15:00, after the upper bound.  An hourly rule with
    the same fixed time, asked for 14:00 to 16:00: the library answers 14:00,
    15:00, 16:00, strictly ascending, and the engine returns 15:00 three
    times. *)
Lemma overlay_leaves_range_and_duplicates :
  (fst (@getRRule utcHost (refLib utcHost) 0 (dailyAtNine (Some "15:00")) ∅)
     = Ok (compiledRule 3 1767258000000) /\
   @RRule_between (refLib utcHost) (compiledRule 3 1767258000000)
      (Time 1767225600000) (Time 1767268800000) true
     = Ok [Time 1767258000000] /\
   fst (@getOccurrencesBetween utcHost (refLib utcHost) 0 (dailyAtNine (Some "15:00"))
          (Time 1767225600000) (Time 1767268800000) ∅)
     = Ok [Time 1767279600000] /\
   Date_le (Time 1767279600000) (Time 1767268800000) = false) /\
  (fst (@getRRule utcHost (stubLib utcHost) 0 (dailyAtNine (Some "15:00")) ∅)
     = Ok (compiledRule 3 1767258000000) /\
   @RRule_between (stubLib utcHost) (compiledRule 3 1767258000000)
      (Time 1767225600000) (Time 1767268800000) true
     = Ok [Time 1767258000000] /\
   fst (@getOccurrencesBetween utcHost (stubLib utcHost) 0 (dailyAtNine (Some "15:00"))
          (Time 1767225600000) (Time 1767268800000) ∅)
     = Ok [Time 1767279600000]) /\
  (fst (@getRRule utcHost (refLib utcHost) 0 (hourlyFromNine (Some "15:00")) ∅)
     = Ok (compiledRule 4 1767258000000) /\
   @RRule_between (refLib utcHost) (compiledRule 4 1767258000000)
      (Time 1767276000000) (Time 1767283200000) true
     = Ok [Time 1767276000000; Time 1767279600000; Time 1767283200000] /\
   fst (@getOccurrencesBetween utcHost (refLib utcHost) 0 (hourlyFromNine (Some "15:00"))
          (Time 1767276000000) (Time 1767283200000) ∅)
     = Ok [Time 1767279600000; Time 1767279600000; Time 1767279600000]) /\
  map (@Date_toISOString utcHost)
      [1767225600000; 1767258000000; 1767268800000; 1767276000000;
       1767279600000; 1767283200000]
    = ["2026-01-01T00:00:00.000Z"; "2026-01-01T09:00:00.000Z";
       "2026-01-01T12:00:00.000Z"; "2026-01-01T14:00:00.000Z";
       "2026-01-01T15:00:00.000Z"; "2026-01-01T16:00:00.000Z"].
Proof. vm_compute. repeat split. Qed.

(** ** The next occurrence *)



(** C4, at its failing input.  A daily rule anchored at 2026-01-01T11:00Z
    with fixed time 09:00, asked for the next occurrence after
    2026-01-02T10:00Z: the library (reference evaluator) answers
    2026-01-02T11:00Z, strictly after [from], and the engine returns its
    overlay 2026-01-02T09:00Z, which is before [from].  With the test double as the library, which always
    answers on the day after [from], a fixed time of [-24:00] does the same:
    asked after 2026-01-01T10:00Z, the engine returns 2026-01-01T00:00Z. *)
Lemma fixed_time_moves_next_before_from :
  (fst (@getRRule utcHost (refLib utcHost) 0 dailyAtElevenPinnedToNine ∅)
     = Ok (compiledRule 3 1767265200000) /\
   @RRule_after (refLib utcHost) (compiledRule 3 1767265200000)
       (Time 1767348000000) false
     = Ok (Some (Time 1767351600000)) /\
   fst (@getNextOccurrence utcHost (refLib utcHost) 0 dailyAtElevenPinnedToNine
          (Time 1767348000000) ∅)
     = Ok (Some (Time 1767344400000)) /\
   Date_lt (Time 1767348000000) (Time 1767344400000) = false) /\
  (@RRule_after (stubLib utcHost) (compiledRule 3 1767258000000)
       (Time 1767261600000) false
     = Ok (Some (Time 1767344400000)) /\
   fst (@getNextOccurrence utcHost (stubLib utcHost) 0 (dailyAtNine (Some "-24:00"))
          (Time 1767261600000) ∅)
     = Ok (Some (Time 1767225600000)) /\
   Date_lt (Time 1767261600000) (Time 1767225600000) = false) /\
  map (@Date_toISOString utcHost)
      [1767265200000; 1767348000000; 1767351600000; 1767344400000;
       1767261600000; 1767225600000]
    = ["2026-01-01T11:00:00.000Z"; "2026-01-02T10:00:00.000Z";
       "2026-01-02T11:00:00.000Z"; "2026-01-02T09:00:00.000Z";
       "2026-01-01T10:00:00.000Z"; "2026-01-01T00:00:00.000Z"].
Proof. vm_compute. repeat split. Qed.

(** ** The fixed time of day on returned occurrences *)

(** The guard of [applyFixedTime] in the terms of the source: when the hour
    or the minute part is missing or does not convert to a finite number, the
    date is returned as it is. *)
Lemma applyFixedTime_not_finite {rt : JSRuntime} date frequency time :
  Frequency.time frequency = Some time ->
  Number_isFinite (nth_error (map Number (split ":" time)) 0)
  && Number_isFinite (nth_error (map Number (split ":" time)) 1) = false ->
  applyFixedTime date frequency = date.
Proof.
  intros Ht Hf. unfold applyFixedTime. rewrite Ht.
  destruct time as [|ch s]; [reflexivity|].
  apply andb_false_iff in Hf as [Hf|Hf]; rewrite Hf; simpl; [reflexivity|].
  now rewrite orb_true_r.
Qed.

Section PlainTask.
Context {rt : JSRuntime} {lib : RRuleLib}.

Lemma getRRule_withTime clock task time (c : gmap string RRule) :
  getRRule clock (withTime task time) c = getRRule clock task c.
Proof.
  destruct task as [id name dueAt en tz wd [ty iv tm rs ds ftz fwd]].
  reflexivity.
Qed.

Lemma hasRule_withTime task time : hasRule (withTime task time) = hasRule task.
Proof. destruct task as [id name dueAt en tz wd [ty iv tm rs ds ftz fwd]]. reflexivity. Qed.

Lemma applyFixedTime_no_time date task :
  applyFixedTime date (Task.frequency (withTime task None)) = date.
Proof. destruct task as [id name dueAt en tz wd [ty iv tm rs ds ftz fwd]]. reflexivity. Qed.

Lemma afterLogging_Throw {A} (dates : list Date) (a : A) e :
  afterLogging dates a = Throw e -> In InvalidDate dates.
Proof.
  unfold afterLogging. destruct (forallb _ dates) eqn:Hall; [discriminate|].
  intros _. induction dates as [|d dates IH]; simpl in *; [discriminate|].
  destruct d; [now left | right; now apply IH].
Qed.
End PlainTask.

(** C8, amended.  The fixed time acts on the results of [getNextOccurrence]
    and [getOccurrencesBetween] as an overlay only: each call returns what
    it returns for the same task without a fixed time, with [applyFixedTime]
    applied to every occurrence, and a fixed time, however malformed, never
    makes a call throw ([getNextOccurrence] never throws;
    [getOccurrencesBetween] throws with or without the fixed time alike, and
    then one of its bounds is the invalid date).  When the fixed time is set
    and well-formed (hour 0 to 23, minute 0 to 59) and the overlaid instant
    is within the range of time values, the returned occurrence has its hour
    and minute replaced by the fixed time and its seconds and milliseconds
    zeroed, on the same local calendar date as the un-overlaid occurrence
    (local time being UTC plus the fixed offset of the host).  When the hour
    or the minute part of the fixed time is missing or is not a finite
    number, the un-overlaid date is returned unchanged. *)
Theorem fixed_time_overlay_on_results {rt : JSRuntime} {lib : RRuleLib}
    clock task (c : gmap string RRule) :
  let plain := withTime task None in
  let overlaid := fun d => applyFixedTime d (Task.frequency task) in
  (forall from,
      exists v c',
        getNextOccurrence clock plain from c = (Ok v, c') /\
        getNextOccurrence clock task from c = (Ok (option_map overlaid v), c')) /\
  (forall from to,
      match getOccurrencesBetween clock plain from to c with
      | (Ok raw, c') =>
          getOccurrencesBetween clock task from to c = (Ok (map overlaid raw), c')
      | (Throw e, c') =>
          getOccurrencesBetween clock task from to c = (Throw e, c') /\
          (from = InvalidDate \/ to = InvalidDate)
      end) /\
  (forall n h m,
      parsedTime (Task.frequency task) = Some (h, m) ->
      0 <= h < 24 -> 0 <= m < 60 ->
      inTimeRange n -> inTimeRange (overlay h m n) ->
      exists t,
        overlaid (Time n) = Time t /\
        localDay t = localDay n /\
        hourOf t = h /\ minuteOf t = m /\ secondOf t = 0 /\ msOf t = 0) /\
  (forall d time,
      Frequency.time (Task.frequency task) = Some time ->
      Number_isFinite (nth_error (map Number (split ":" time)) 0)
      && Number_isFinite (nth_error (map Number (split ":" time)) 1) = false ->
      overlaid d = d) /\
  (Frequency.time (Task.frequency task) = None -> forall d, overlaid d = d).
Proof.
  intros plain overlaid. unfold plain, overlaid.
  split; [|split; [|split; [|split]]].
  - intros from. rewrite !getNextOccurrence_unfold, hasRule_withTime, getRRule_withTime.
    destruct (negb (hasRule task)); [now exists None, c|].
    destruct (getRRule clock task c) as [[rrule|e] c1]; [|now exists None, c1].
    destruct (RRule_after rrule from false) as [[next|]|e];
      [|now exists None, c1..].
    exists (Some next), c1. now rewrite applyFixedTime_no_time.
  - intros from to.
    rewrite !getOccurrencesBetween_unfold, hasRule_withTime, getRRule_withTime.
    destruct (negb (hasRule task)); [reflexivity|].
    assert (Hlog : match afterLogging [from; to] ([] : list Date) with
                   | Ok raw =>
                       afterLogging [from; to] ([] : list Date)
                       = Ok (map (fun d => applyFixedTime d (Task.frequency task)) raw)
                   | Throw e =>
                       afterLogging [from; to] ([] : list Date) = Throw e /\
                       (from = InvalidDate \/ to = InvalidDate)
                   end).
    { destruct (afterLogging [from; to] ([] : list Date)) as [raw|e] eqn:Hl.
      - unfold afterLogging in Hl. destruct (forallb _ _); [|discriminate].
        now injection Hl as <-.
      - split; [reflexivity|].
        apply afterLogging_Throw in Hl. simpl in Hl. intuition. }
    destruct (getRRule clock task c) as [[rrule|e] c1].
    + destruct (RRule_between rrule from to true) as [raw|e].
      * rewrite (map_ext _ (fun d => d) (fun d => applyFixedTime_no_time d task)).
        now rewrite map_id.
      * revert Hlog.
        destruct (afterLogging [from; to] ([] : list Date)) as [raw|e'];
          intros Hlog; [congruence | split; [reflexivity | apply Hlog]].
    + revert Hlog.
      destruct (afterLogging [from; to] ([] : list Date)) as [raw|e'];
        intros Hlog; [congruence | split; [reflexivity | apply Hlog]].
  - intros n h m Hp Hh Hm _ _. now apply applyFixedTime_wellformed.
  - intros d time. apply applyFixedTime_not_finite.
  - intros Hnone d. apply applyFixedTime_None. unfold parsedTime. now rewrite Hnone.
Qed.

Lemma fixed_time_overlay_on_results_witness :
  exists t,
    @applyFixedTime utcHost (Time 1767344400000)
      (Task.frequency (dailyAtNine (Some "07:30"))) = Time t /\
    @localDay utcHost t = @localDay utcHost 1767344400000 /\
    @hourOf utcHost t = 7 /\ @minuteOf utcHost t = 30.
Proof.
  pose proof (@fixed_time_overlay_on_results utcHost (stubLib utcHost) 0
                (dailyAtNine (Some "07:30")) ∅) as H.
  cbv zeta in H. destruct H as (_ & _ & H & _).
  destruct (H 1767344400000 7 30) as (t & Ht & Hd & Hh & Hm & _).
  - reflexivity.
  - lia.
  - lia.
  - vm_compute. split; discriminate.
  - vm_compute. split; discriminate.
  - exists t. auto.
Defined.

(** C8 as stated fails: the fixed time [25:00] is malformed, yet it is not
    left out.  The un-overlaid next occurrence after 2026-01-01T09:00Z is
    2026-01-02T09:00Z; with fixed time [25:00] the engine returns
    2026-01-03T01:00Z, on the following calendar day. *)
Lemma out_of_range_fixed_time_is_applied :
  fst (@getNextOccurrence utcHost (stubLib utcHost) 0 (dailyAtNine None)
         (Time 1767258000000) ∅)
    = Ok (Some (Time 1767344400000)) /\
  fst (@getNextOccurrence utcHost (stubLib utcHost) 0 (dailyAtNine (Some "25:00"))
         (Time 1767258000000) ∅)
    = Ok (Some (Time 1767402000000)) /\
  @Date_toISOString utcHost 1767344400000 = "2026-01-02T09:00:00.000Z" /\
  @Date_toISOString utcHost 1767402000000 = "2026-01-03T01:00:00.000Z" /\
  @applyFixedTime utcHost (Time 1767344400000)
     (Task.frequency (dailyAtNine (Some "25:00")))
    <> Time 1767344400000.
Proof. vm_compute. repeat split. discriminate. Qed.

(** ** Occurrence on a day *)


(** ** Validation *)

(** The guard [options.count && options.count === 0] never holds: zero is
    falsy. *)
Lemma count_zero_guard_is_dead (n : JSNumber) :
  Number_truthy n && Number_is_zero n = false.
Proof. destruct n as [| |q]; simpl; try reflexivity. now destruct (Qeq_bool q 0). Qed.

(** Whatever the library, a rule text that parses, compiles, and has no
    [UNTIL] in the past is reported valid, also when the series has no
    occurrence at all. *)
Lemma validateRRule_without_expired_until {lib : RRuleLib}
    clock ch s parsed rrule next :
  rrulestr clock (normalize (String ch s)) = Ok parsed ->
  RRule_new (match Options.dtstart (origOptions parsed) with
             | Some _ => origOptions parsed
             | None => Options.set_dtstart (origOptions parsed) (Time clock)
             end) = Ok rrule ->
  RRule_after rrule (Time clock) true = Ok next ->
  match Options.until (origOptions parsed) with
  | Some u => Date_lt u (Time clock) = false
  | None => True
  end ->
  validateRRule clock (String ch s) = {| valid := true; error := None |}.
Proof.
  intros Hparse Hnew Hafter Huntil.
  unfold validateRRule, try_catchR, bindR. rewrite Hparse, Hnew, Hafter.
  destruct next as [d|]; [reflexivity|].
  assert (Hu : match Options.until
                       (match Options.dtstart (origOptions parsed) with
                        | Some _ => origOptions parsed
                        | None => Options.set_dtstart (origOptions parsed) (Time clock)
                        end) with
               | Some u => Date_lt u (Time clock)
               | None => false
               end = false).
  { destruct (Options.dtstart (origOptions parsed)); simpl;
      destruct (Options.until (origOptions parsed)); auto. }
  rewrite Hu.
  destruct (Options.count _) as [n|]; [|reflexivity].
  now rewrite count_zero_guard_is_dead.
Qed.

(** C7, at its failing input.  The rule text [FREQ=DAILY;COUNT=0] can
    produce no occurrence (the reference evaluator reports none at or after
    the clock reading), and [validateRRule] reports it valid, with no error
    message; it does so with the test double as the library as well.  The
    guard [options.count && options.count === 0] of the branch written for
    this case holds for no number. *)
Theorem zero_count_rule_reported_valid :
  (exists parsed,
      @rrulestr (refLib utcHost) 1767258000000 (normalize "FREQ=DAILY;COUNT=0")
        = Ok parsed /\
      Options.count (origOptions parsed) = Some (ofZ 0) /\
      @RRule_after (refLib utcHost) parsed (Time 1767258000000) true = Ok None) /\
  @validateRRule (refLib utcHost) 1767258000000 "FREQ=DAILY;COUNT=0"
    = {| valid := true; error := None |} /\
  @validateRRule (stubLib utcHost) 1767258000000 "FREQ=DAILY;COUNT=0"
    = {| valid := true; error := None |} /\
  (forall count, Number_truthy count && Number_is_zero count = false).
Proof.
  split; [|split; [|split]].
  - eexists. split; [vm_compute; reflexivity|]. split; vm_compute; reflexivity.
  - vm_compute. reflexivity.
  - vm_compute. reflexivity.
  - exact count_zero_guard_is_dead.
Qed.

(** ** The compiled-rule cache *)

Section CacheFacts.
Context {rt : JSRuntime} {lib : RRuleLib}.

Lemma runCall_preserves (c : gmap string RRule) call k r :
  c !! k = Some r -> runCall c call !! k = Some r.
Proof.
  intros H. destruct call; simpl; try assumption.
  - now apply getNextOccurrence_preserves.
  - rewrite getOccurrencesBetween_cache.
    destruct (negb _); [assumption | now apply getRRule_preserves].
  - rewrite isOccurrenceOn_cache.
    destruct (negb _); [assumption | now apply getRRule_preserves].
Qed.

Lemma runCalls_preserves calls (c : gmap string RRule) k r :
  c !! k = Some r -> runCalls c calls !! k = Some r.
Proof.
  revert c. induction calls as [|call calls IH]; intros c H; [assumption|].
  apply IH. now apply runCall_preserves.
Qed.

(** On a cache miss the compiled rule carries the anchor chosen at that
    moment: the [dtstart] of the frequency, else the task's [dueAt]. *)
Lemma getRRule_miss_dtstart clock task (c c1 : gmap string RRule) rrule :
  c !! taskKey task = None ->
  getRRule clock task c = (Ok rrule, c1) ->
  truthy_str (Frequency.dtstart (Task.frequency task)) = false ->
  Task.dueAt task <> "" ->
  Options.dtstart (origOptions rrule) = Some (Date_parse (Task.dueAt task)).
Proof.
  intros Hc Hget Hdt Hdue. revert Hget.
  unfold getRRule, bind, cache_get, cache_set, lift, ret, throwM, RRule_new.
  fold (taskKey task). rewrite Hc.
  destruct (Frequency.rruleString (Task.frequency task)) as [rs|]; [|discriminate].
  destruct (rrulestr clock (normalize rs)) as [parsed|e]; [|discriminate].
  destruct (Frequency.dtstart (Task.frequency task)) as [[|ch s]|];
    try discriminate;
    (destruct (Task.dueAt task) as [|ch' s'] eqn:Hd; [congruence|]);
    (destruct (RRule_validate _); [|discriminate]);
    intros [= <- <-]; reflexivity.
Qed.
End CacheFacts.

(** The key is the concatenation [id:rruleString]: two different pairs can
    share it. *)
Lemma cacheKey_collision :
  cacheKey "a:b" (Some "c") = cacheKey "a" (Some "b:c").
Proof. reflexivity. Qed.

Lemma append_inj_l (p x y : string) :
  String.append p x = String.append p y -> x = y.
Proof.
  induction p as [|a p IH]; simpl; [auto|].
  intros [= H]. now apply IH.
Qed.

(** Two texts of the form [id:rest] with no colon in the ids are equal only
    when ids and rests are. *)
Lemma append_colon_inj (id1 id2 r1 r2 : string) :
  hasChar ":" id1 = false -> hasChar ":" id2 = false ->
  String.append id1 (String.append ":" r1) = String.append id2 (String.append ":" r2) ->
  id1 = id2 /\ r1 = r2.
Proof.
  revert id2. induction id1 as [|a id1 IH]; intros [|b id2] H1 H2;
    cbn [String.append hasChar] in *.
  - intros [= H]. now split.
  - intros [= <- _]. cbn in H2. discriminate H2.
  - intros [= -> _]. cbn in H1. discriminate H1.
  - intros [= -> H].
    apply orb_false_iff in H1 as [_ H1]. apply orb_false_iff in H2 as [_ H2].
    destruct (IH id2 H1 H2 H) as [-> ->]. now split.
Qed.

(** C10.  The cache key of a task is built from its id and its rule string
    alone, and tells them apart: tasks with the same id and rule string have
    the same key, tasks with the same id and different rule strings have
    different keys, and so have tasks with different ids that contain no
    colon.  No engine method other than [clearCache] (which empties the cache)
    removes or replaces an entry.  Consequently, once the rule of a task has
    been compiled on a cache miss, the entry holds that rule; for a task
    whose frequency has no [dtstart], the [dueAt] the task has at that moment
    is the [dtstart] of the cached rule; and after any further engine calls
    every [getNextOccurrence] and [getOccurrencesBetween] call for a task with
    the same id and rule string, whatever its [dueAt] has become, is answered
    from that cached rule. *)
Theorem cache_entry_keeps_first_anchor {rt : JSRuntime} {lib : RRuleLib}
    clock task (c c1 : gmap string RRule) rrule :
  (forall task1 task2,
      Task.id task1 = Task.id task2 ->
      Frequency.rruleString (Task.frequency task1)
        = Frequency.rruleString (Task.frequency task2) ->
      taskKey task1 = taskKey task2) /\
  (forall id rs1 rs2,
      cacheKey id (Some rs1) = cacheKey id (Some rs2) -> rs1 = rs2) /\
  (forall id1 id2 rs1 rs2,
      hasChar ":" id1 = false -> hasChar ":" id2 = false ->
      cacheKey id1 (Some rs1) = cacheKey id2 (Some rs2) ->
      id1 = id2 /\ rs1 = rs2) /\
  (forall calls (c0 : gmap string RRule) k r,
      c0 !! k = Some r -> runCalls c0 calls !! k = Some r) /\
  (forall c0 : gmap string RRule, snd (clearCache c0) = ∅) /\
  (c !! taskKey task = None ->
   getRRule clock task c = (Ok rrule, c1) ->
   c1 !! taskKey task = Some rrule /\
   (truthy_str (Frequency.dtstart (Task.frequency task)) = false ->
    Task.dueAt task <> "" ->
    Options.dtstart (origOptions rrule) = Some (Date_parse (Task.dueAt task))) /\
   (hasRule task = true ->
    forall calls task' clock' from to,
      Task.id task' = Task.id task ->
      Frequency.rruleString (Task.frequency task')
        = Frequency.rruleString (Task.frequency task) ->
      let c2 := runCalls c1 calls in
      getRRule clock' task' c2 = (Ok rrule, c2) /\
      getNextOccurrence clock' task' from c2
        = (match RRule_after rrule from false with
           | Ok (Some next) => Ok (Some (applyFixedTime next (Task.frequency task')))
           | _ => Ok None
           end, c2) /\
      getOccurrencesBetween clock' task' from to c2
        = (match RRule_between rrule from to true with
           | Ok occurrences =>
               Ok (map (fun d => applyFixedTime d (Task.frequency task')) occurrences)
           | Throw _ => afterLogging [from; to] []
           end, c2))).
Proof.
  split; [|split; [|split; [|split; [|split]]]];
    [| | | | |intros Hmiss Hget; split; [|split; [intros Hdt Hdue|intros Hrule]]].
  - intros task1 task2 Hid Hrs. unfold taskKey. now rewrite Hid, Hrs.
  - intros id rs1 rs2 H. unfold cacheKey in H.
    apply append_inj_l in H. simpl in H. now injection H.
  - intros id1 id2 rs1 rs2 H1 H2 H. unfold cacheKey in H.
    now apply append_colon_inj.
  - intros calls c0 k r. apply runCalls_preserves.
  - reflexivity.
  - exact (getRRule_caches clock task c c1 rrule Hget).
  - exact (getRRule_miss_dtstart clock task c c1 rrule Hmiss Hget Hdt Hdue).
  - intros calls task' clock' from to Hid Hrs c2.
    assert (Hkey : taskKey task' = taskKey task).
    { unfold taskKey. now rewrite Hid, Hrs. }
    assert (Hhit : c2 !! taskKey task' = Some rrule).
    { rewrite Hkey. apply runCalls_preserves.
      exact (getRRule_caches clock task c c1 rrule Hget). }
    assert (Hrule' : hasRule task' = true).
    { unfold hasRule in *. now rewrite Hrs. }
    pose proof (getRRule_hit clock' task' c2 rrule Hhit) as Hg.
    split; [exact Hg|]. split.
    + rewrite getNextOccurrence_unfold, Hrule', Hg. simpl.
      destruct (RRule_after rrule from false) as [[next|]|e]; reflexivity.
    + rewrite getOccurrencesBetween_unfold, Hrule', Hg. simpl.
      destruct (RRule_between rrule from to true) as [occs|e]; reflexivity.
Qed.

Lemma cache_entry_keeps_first_anchor_witness :
  let compiled :=
    {| origOptions := Options.mk (Some 3) None None None None
                        (Some (Time 1767258000000)) (Some "UTC") |} in
  @Date_parse utcHost "2026-01-01T09:00:00Z" = Time 1767258000000 /\
  fst (@getNextOccurrence utcHost (stubLib utcHost) 0
         (dailyNoAnchor "2026-03-01T17:30:00Z") (Time 1767258000000)
         (snd (@getRRule utcHost (stubLib utcHost) 0
                 (dailyNoAnchor "2026-01-01T09:00:00Z") ∅)))
    = match @RRule_after (stubLib utcHost) compiled (Time 1767258000000) false with
      | Ok (Some next) =>
          Ok (Some (@applyFixedTime utcHost next
                      (Task.frequency (dailyNoAnchor "2026-03-01T17:30:00Z"))))
      | _ => Ok None
      end.
Proof.
  intros compiled. split; [reflexivity|].
  destruct (@cache_entry_keeps_first_anchor utcHost (stubLib utcHost) 0
              (dailyNoAnchor "2026-01-01T09:00:00Z") ∅
              (snd (@getRRule utcHost (stubLib utcHost) 0
                      (dailyNoAnchor "2026-01-01T09:00:00Z") ∅))
              compiled)
    as (_ & _ & _ & _ & _ & H).
  destruct H as (_ & _ & Hlater); [reflexivity | vm_compute; reflexivity |].
  specialize (Hlater eq_refl).
  - destruct (Hlater [] (dailyNoAnchor "2026-03-01T17:30:00Z") 0
                (Time 1767258000000) (Time 1767258000000) eq_refl eq_refl)
      as (_ & Hnext & _).
    simpl in Hnext. unfold runCalls in Hnext. simpl in Hnext.
    now rewrite Hnext.
Defined.

(** ** Recovery of missed occurrences *)

Section RecoveryFacts.
Context {rt : JSRuntime} {lib : RRuleLib}.
Import Scheduler.

(** The walk never throws and never drops a cache entry. *)
Lemma walk_total cap clock task cur now (c : gmap string RRule) :
  exists l c',
    walk cap clock task cur now c = (Ok l, c') /\
    forall k r, c !! k = Some r -> c' !! k = Some r.
Proof.
  revert cur c. induction cap as [|cap IH]; intros cur c; simpl.
  - exists [], c. split; [reflexivity | auto].
  - unfold bind.
    destruct (getNextOccurrence_total clock task cur c) as (v & c1 & Hn).
    pose proof (fun k r => getNextOccurrence_preserves clock task cur c k r) as Hp.
    rewrite Hn in *. simpl in Hp.
    destruct v as [d|]; [|exists [], c1; split; [reflexivity | exact Hp]].
    destruct (Date_le d now); [|exists [], c1; split; [reflexivity | exact Hp]].
    destruct (IH d c1) as (rest & c2 & Hw & Hp2). rewrite Hw.
    exists (d :: rest), c2. split; [reflexivity | auto].
Qed.

Lemma recoverTask_disabled now cap persist since task (c : gmap string RRule) :
  Task.enabled task = false ->
  recoverTask now cap persist since task c = (Ok ([], task), c).
Proof. intros H. unfold recoverTask. now rewrite H. Qed.

(** The overlay of a fixed time that is absent or well-formed keeps an
    instant on its local day. *)
Lemma applyFixedTime_same_day n frequency :
  parsedTime frequency = None \/
  (exists h m, parsedTime frequency = Some (h, m) /\ 0 <= h < 24 /\ 0 <= m < 60) ->
  exists t, applyFixedTime (Time n) frequency = Time t /\ localDay t = localDay n.
Proof.
  intros [Hp|(h & m & Hp & Hh & Hm)].
  - exists n. split; [now apply applyFixedTime_None | reflexivity].
  - destruct (applyFixedTime_wellformed n frequency h m Hp Hh Hm) as (t & Ht & Hd & _).
    now exists t.
Qed.
End RecoveryFacts.

(** Recovery when the library answers one day apart, as the test double
    does.  With a [LastRunMarker] two days old and one enabled daily task due
    one day ago (the library reports the due date as the first occurrence
    after the marker and the day after [now] as the first occurrence after
    [now]; the fixed time of day is absent or well-formed; the storage
    accepts the update), [recoverMissedTasks] emits at least one event, all
    its events are [Overdue] events for that task, and it leaves the task
    with a [dueAt] strictly greater than [now]; for the same task disabled it
    emits no event and leaves the task, its [dueAt] included, unchanged.  In
    both cases the new marker is [now]. *)
Theorem recovery_of_one_daily_task {rt : JSRuntime} {lib : RRuleLib}
    now cap persist task (c c1 : gmap string RRule) rrule :
  Task.enabled task = true ->
  hasRule task = true ->
  Date_parse (Task.dueAt task) = Time (now - msPerDay) ->
  (0 < cap)%nat ->
  getRRule now task c = (Ok rrule, c1) ->
  RRule_after rrule (Time (now - 2 * msPerDay)) false
    = Ok (Some (Time (now - msPerDay))) ->
  RRule_after rrule (Time now) false = Ok (Some (Time (now + msPerDay))) ->
  (parsedTime (Task.frequency task) = None \/
   exists h m, parsedTime (Task.frequency task) = Some (h, m) /\
               0 <= h < 24 /\ 0 <= m < 60) ->
  (forall t, persist t = true) ->
  (forall d, applyFixedTime (Time (now + msPerDay)) (Task.frequency task) = Time d ->
             Date_parse (Date_toISOString d) = Time d) ->
  (exists events task' c2 d,
      Scheduler.recoverMissedTasks now cap persist
        {| Scheduler.tasks := [task];
           Scheduler.lastRun := Some (now - 2 * msPerDay) |} c
        = (Ok (events, {| Scheduler.tasks := [task'];
                          Scheduler.lastRun := Some now |}), c2) /\
      (0 < length events)%nat /\
      Forall (fun e => exists missedAt,
                  e = Scheduler.Overdue (Task.id task) missedAt) events /\
      Task.id task' = Task.id task /\
      Date_parse (Task.dueAt task') = Time d /\
      now < d) /\
  Scheduler.recoverMissedTasks now cap persist
    {| Scheduler.tasks := [Task.with_enabled task false];
       Scheduler.lastRun := Some (now - 2 * msPerDay) |} c
    = (Ok ([], {| Scheduler.tasks := [Task.with_enabled task false];
                  Scheduler.lastRun := Some now |}), c).
Proof.
  intros Hen Hrule Hdue Hcap Hget Hafter1 Hafter2 Htime Hpersist Hiso.
  split.
  - destruct cap as [|cap]; [lia|].
    destruct (applyFixedTime_same_day (now - msPerDay) (Task.frequency task) Htime)
      as (m1 & Hm1 & Hday1).
    destruct (applyFixedTime_same_day (now + msPerDay) (Task.frequency task) Htime)
      as (d & Hd & Hday2).
    assert (Hfirst : getNextOccurrence now task (Time (now - 2 * msPerDay)) c
                     = (Ok (Some (Time m1)), c1)).
    { rewrite getNextOccurrence_unfold, Hrule, Hget, Hafter1, Hm1. reflexivity. }
    assert (Hle : Date_le (Time m1) (Time now) = true).
    { simpl. apply Z.leb_le. rewrite localDay_prev_day in Hday1.
      pose proof (makeLocal_day_end_ge m1). time_arith. }
    destruct (walk_total cap now task (Time m1) (Time now) c1)
      as (rest & c2 & Hwalk & Hkeep).
    assert (Hhit : c2 !! taskKey task = Some rrule).
    { apply Hkeep. exact (getRRule_caches now task c c1 rrule Hget). }
    assert (Hnext : getNextOccurrence now task (Time now) c2
                    = (Ok (Some (Time d)), c2)).
    { rewrite getNextOccurrence_unfold, Hrule.
      rewrite (getRRule_hit now task c2 rrule Hhit), Hafter2, Hd. reflexivity. }
    exists (map (Scheduler.Overdue (Task.id task)) (Time m1 :: rest)),
           (Task.with_dueAt task (Date_toISOString d)), c2, d.
    split; [|split; [|split; [|split; [|split]]]].
    + unfold Scheduler.recoverMissedTasks. cbn [Scheduler.lastRun Scheduler.tasks].
      unfold Scheduler.recoverAll, Scheduler.recoverTask, bind, ret.
      rewrite Hen. cbn [negb Scheduler.walk]. unfold bind, ret.
      rewrite Hfirst, Hle, Hwalk, Hnext, Hpersist. cbn [fst snd].
      now rewrite app_nil_r.
    + simpl. lia.
    + rewrite List.Forall_map. apply List.Forall_forall. intros x _. now exists x.
    + reflexivity.
    + simpl. now apply Hiso.
    + rewrite localDay_next_day in Hday2.
      pose proof (makeLocal_day_start_le d). time_arith.
  - unfold Scheduler.recoverMissedTasks. cbn [Scheduler.lastRun Scheduler.tasks].
    unfold Scheduler.recoverAll, bind, ret.
    rewrite recoverTask_disabled by reflexivity. reflexivity.
Qed.

Lemma recovery_of_one_daily_task_witness :
  exists events task' c2 d,
    @Scheduler.recoverMissedTasks utcHost (stubLib utcHost) 1767344400000 1000
      (fun _ => true)
      {| Scheduler.tasks := [dailyPinnedToNine "2026-01-01T09:00:00Z" true];
         Scheduler.lastRun := Some (1767344400000 - 2 * msPerDay) |} ∅
      = (Ok (events, {| Scheduler.tasks := [task'];
                        Scheduler.lastRun := Some 1767344400000 |}), c2) /\
    (0 < length events)%nat /\
    @Date_parse utcHost (Task.dueAt task') = Time d /\
    1767344400000 < d.
Proof.
  destruct (@recovery_of_one_daily_task utcHost (stubLib utcHost) 1767344400000 1000
              (fun _ => true) (dailyPinnedToNine "2026-01-01T09:00:00Z" true) ∅
              (snd (@getRRule utcHost (stubLib utcHost) 1767344400000
                      (dailyPinnedToNine "2026-01-01T09:00:00Z" true) ∅))
              (compiledRule 3 1767258000000))
    as [(events & task' & c2 & d & Hrun & Hlen & _ & _ & Hdue & Hlt) _].
  - reflexivity.
  - reflexivity.
  - vm_compute. reflexivity.
  - lia.
  - vm_compute. reflexivity.
  - vm_compute. reflexivity.
  - vm_compute. reflexivity.
  - right. exists 9, 0. split; [vm_compute; reflexivity | lia].
  - reflexivity.
  - intros d H. vm_compute in H. injection H as <-. vm_compute. reflexivity.
  - exists events, task', c2, d. auto.
Defined.

(** A walk whose next occurrence is the instant it starts from does not
    advance: it collects that instant until the cap is reached. *)
Lemma walk_stalls {rt : JSRuntime} {lib : RRuleLib}
    clock task cur now (c : gmap string RRule) :
  getNextOccurrence clock task cur c = (Ok (Some cur), c) ->
  Date_le cur now = true ->
  forall cap,
    Scheduler.walk cap clock task cur now c = (Ok (repeat cur cap), c).
Proof.
  intros Hnext Hle. induction cap as [|cap IH]; [reflexivity|].
  cbn [Scheduler.walk repeat]. unfold bind at 1. rewrite Hnext, Hle.
  unfold bind, ret. now rewrite IH.
Qed.


(** ** Coalescing of save requests *)

Section Coalescing.
Variable TaskState : Type.
Variable D : Z.
Import Persistence.

Lemma last_cons_default {A} (l : list A) a d :
  List.last (a :: l) d = List.last l a.
Proof.
  revert a d. induction l as [|b l IH]; intros a d; [reflexivity|].
  change (List.last (a :: b :: l) d) with (List.last (b :: l) d).
  now rewrite !IH.
Qed.

Lemma run_requests_waiting rest t s :
  withinWindow TaskState D t rest ->
  run TaskState D (waiting TaskState D t s) (requests TaskState rest) =
  waiting TaskState D (List.last (map fst rest) t) (List.last (map snd rest) s).
Proof.
  revert t s. induction rest as [|[t' s'] rest IH]; intros t s H; [reflexivity|].
  destruct H as [Ht Hrest]. cbn [requests map run fold_left step fst snd].
  assert (Hstep : requestSave TaskState D t' s' (waiting TaskState D t s)
                  = waiting TaskState D t' s').
  { unfold requestSave, fire, waiting. cbn [timer].
    destruct (Z.leb_spec (t + D) t'); [lia | reflexivity]. }
  rewrite Hstep. fold (requests TaskState rest).
  fold (run TaskState D (waiting TaskState D t' s') (requests TaskState rest)).
  rewrite (IH t' s' Hrest).
  now rewrite !last_cons_default.
Qed.
End Coalescing.

(** C6.  For every non-empty sequence of [requestSave] calls in which each
    call arrives before the debounce timer of the previous one fires (all
    within one debounce window), no write is made while the window is open;
    once the window has elapsed exactly one [write] call has been made,
    carrying the state of the last [requestSave]; and when that write
    succeeds the controller is idle again with that single write on
    record. *)
Theorem burst_of_saves_writes_last_state_once
    (TaskState : Type) (D : Z) t1 s1 (rest : list (Z * TaskState)) T :
  withinWindow TaskState D t1 rest ->
  List.last (map fst rest) t1 + D <= T ->
  let calls := (t1, s1) :: rest in
  let lastState := List.last (map snd rest) s1 in
  let c := Persistence.run TaskState D (Persistence.idle TaskState)
             (requests TaskState calls) in
  let c' := Persistence.step TaskState D c (Persistence.Advance TaskState T) in
  let c'' := Persistence.step TaskState D c' (Persistence.WriteDone TaskState true) in
  Persistence.writes TaskState c = [] /\
  Persistence.pending TaskState c = Some lastState /\
  Persistence.writes TaskState c' = [lastState] /\
  Persistence.inFlight TaskState c' = Some lastState /\
  c'' = {| Persistence.pending := None; Persistence.timer := None;
           Persistence.inFlight := None; Persistence.superseded := false;
           Persistence.writes := [lastState] |}.
Proof.
  intros Hwin HT calls lastState c c' c''.
  assert (Hc : c = waiting TaskState D (List.last (map fst rest) t1) lastState).
  { unfold c, calls. cbn [requests map Persistence.run fold_left fst snd].
    change (Persistence.step TaskState D (Persistence.idle TaskState)
              (Persistence.RequestSave TaskState t1 s1))
      with (waiting TaskState D t1 s1).
    exact (run_requests_waiting TaskState D rest t1 s1 Hwin). }
  assert (Hc' : c' = {| Persistence.pending := Some lastState;
                        Persistence.timer := None;
                        Persistence.inFlight := Some lastState;
                        Persistence.superseded := false;
                        Persistence.writes := [lastState] |}).
  { unfold c'. rewrite Hc. unfold waiting. cbn [Persistence.step].
    unfold Persistence.fire. cbn [Persistence.timer].
    destruct (Z.leb_spec (List.last (map fst rest) t1 + D) T); [reflexivity | lia]. }
  assert (Hc'' : c'' = {| Persistence.pending := None; Persistence.timer := None;
                          Persistence.inFlight := None;
                          Persistence.superseded := false;
                          Persistence.writes := [lastState] |}).
  { unfold c''. rewrite Hc'. reflexivity. }
  rewrite Hc''. rewrite Hc'. rewrite Hc. repeat split.
Qed.

Lemma burst_of_saves_writes_last_state_once_witness :
  withinWindow string 10 0 [(0, "second"); (0, "third")] /\
  Persistence.writes string
    (Persistence.run string 10 (Persistence.idle string)
       [Persistence.RequestSave string 0 "first";
        Persistence.RequestSave string 0 "second";
        Persistence.RequestSave string 0 "third";
        Persistence.Advance string 15])
    = ["third"].
Proof.
  assert (Hwin : withinWindow string 10 0 [(0, "second"); (0, "third")]).
  { simpl. lia. }
  split; [exact Hwin|].
  exact (proj1 (proj2 (proj2
           (burst_of_saves_writes_last_state_once string 10 0 "first"
              [(0, "second"); (0, "third")] 15 Hwin ltac:(simpl; lia))))).
Defined.

(** ** The libraries *)

Section LibraryFacts.
Context {rt : JSRuntime}.

(** The loop of the test double's [between] ends within its fuel. *)
Lemma between_loop_enough n opts a b results :
  (b - a) / msPerDay + 1 <= Z.of_nat n ->
  exists l, Stub.between_loop n opts (Time a) (Time b) results = Some l.
Proof.
  revert a results. induction n as [|n IH]; intros a results Hn.
  - simpl. destruct (Z.leb_spec a b); [|eauto].
    exfalso. unfold msPerDay in Hn. Z.div_mod_to_equations. lia.
  - cbn [Stub.between_loop]. simpl Date_le. destruct (Z.leb_spec a b); [|eauto].
    cbn [addOneDay]. apply IH.
    unfold msPerDay in *. Z.div_mod_to_equations. lia.
Qed.

Lemma between_loop_terminates opts after before :
  exists l,
    Stub.between_loop (Stub.between_fuel after before) opts after before []
    = Some l.
Proof.
  destruct after as [|a], before as [|b]; try (simpl; eauto; fail).
  apply between_loop_enough. unfold Stub.between_fuel.
  destruct (Z.le_gt_cases 0 ((b - a) / msPerDay + 1)); lia.
Qed.

Lemma unit_ms_pos f u : Ref.unit_ms f = Some u -> 0 < u.
Proof.
  unfold Ref.unit_ms. destruct f as [[|p|p]|]; try discriminate.
  destruct p as [[[]|[]|]|[[]|[]|]|]; try discriminate;
    intros [= <-]; reflexivity.
Qed.

Lemma period_pos o p : Ref.period o = Some p -> 0 < p.
Proof.
  unfold Ref.period.
  destruct (Ref.unit_ms (Options.freq o)) as [u|] eqn:Hu; [|discriminate].
  apply unit_ms_pos in Hu.
  destruct (Options.interval o) as [n|]; [|intros [= <-]; exact Hu].
  destruct (toInteger n) as [i|]; [|discriminate].
  destruct (Z.leb_spec 1 i); [|discriminate].
  intros [= <-]. nia.
Qed.

(** The reference evaluator honours the contract of operation (a): the
    occurrence it reports is strictly after the reference instant. *)
Lemma ref_after_strict r x n :
  Ref.after r (Time x) false = Ok (Some (Time n)) -> x < n.
Proof.
  unfold Ref.after.
  destruct (Ref.period (origOptions r)) as [p|] eqn:Hp; [|discriminate].
  destruct (Ref.anchor (origOptions r)) as [a|]; [|discriminate].
  destruct (Ref.limit_ok _ _ _ _); [|discriminate].
  intros [= <-]. apply period_pos in Hp. unfold Ref.first_index.
  pose proof (Z.mul_succ_div_gt (x - a) p Hp). nia.
Qed.
Lemma StronglySorted_filter_lt (f : Z -> bool) (l : list Z) :
  StronglySorted Z.lt l -> StronglySorted Z.lt (List.filter f l).
Proof.
  induction 1 as [|a l Hs IH Hall]; simpl; [constructor|].
  destruct (f a); [|assumption].
  constructor; [assumption|].
  apply List.Forall_forall. intros b Hb. apply filter_In in Hb as [Hb _].
  rewrite List.Forall_forall in Hall. now apply Hall.
Qed.

Lemma StronglySorted_indices k0 n s :
  StronglySorted Z.lt (map (fun i => k0 + Z.of_nat i) (seq s n)).
Proof.
  revert s. induction n as [|n IH]; intros s; simpl; constructor; [apply IH|].
  rewrite List.Forall_map. apply List.Forall_forall. intros i Hi.
  apply in_seq in Hi. lia.
Qed.

Lemma StronglySorted_map_lt (f : Z -> Z) (l : list Z) :
  (forall a b, a < b -> f a < f b) ->
  StronglySorted Z.lt l -> StronglySorted Z.lt (map f l).
Proof.
  intros Hf. induction 1 as [|a l Hs IH Hall]; simpl; constructor; [assumption|].
  rewrite List.Forall_map. eapply List.Forall_impl; [|exact Hall].
  intros b Hb. now apply Hf.
Qed.

(** The reference evaluator honours the contract of operation (b): the
    occurrences it reports are valid dates, strictly ascending, and within
    the inclusive bounds. *)
Lemma ref_between_contract r x y l :
  Ref.between r (Time x) (Time y) true = Ok l ->
  exists raw,
    l = map Time raw /\
    StronglySorted Z.lt raw /\
    Forall (fun t => x <= t <= y) raw.
Proof.
  unfold Ref.between.
  destruct (Ref.period (origOptions r)) as [p|] eqn:Hp; [|discriminate].
  destruct (Ref.anchor (origOptions r)) as [a|]; [|discriminate].
  intros [= <-]. apply period_pos in Hp.
  set (k0 := Ref.first_index a p x true).
  set (k1 := Ref.last_index a p y true).
  set (ks := map (fun i => k0 + Z.of_nat i) (seq 0 (Z.to_nat (k1 - k0 + 1)))).
  exists (map (fun k => a + k * p) (List.filter (Ref.limit_ok (origOptions r) a p) ks)).
  split; [now rewrite map_map|]. split.
  - apply StronglySorted_map_lt; [intros; nia|].
    apply StronglySorted_filter_lt, StronglySorted_indices.
  - rewrite List.Forall_map. apply List.Forall_forall. intros k Hk.
    apply filter_In in Hk as [Hk _]. unfold ks in Hk.
    apply in_map_iff in Hk as (i & <- & Hi). apply in_seq in Hi.
    assert (Hlo : x - a <= k0 * p).
    { unfold k0, Ref.first_index.
      pose proof (Z.mul_succ_div_gt (x - a + p - 1) p Hp). nia. }
    assert (Hhi : k1 * p <= y - a).
    { unfold k1, Ref.last_index.
      pose proof (Z.mul_div_le (y - a) p Hp). nia. }
    assert (Hk1 : k0 + Z.of_nat i <= k1) by lia.
    split; nia.
Qed.
End LibraryFacts.

(** * Further properties *)

(** ** Dashboard task state ([components/dashboard/taskState]) *)

Lemma upsertTask_cons task rest nextTask :
  TaskState.upsertTask (task :: rest) nextTask =
  if String.eqb (Task.id task) (Task.id nextTask) then nextTask :: rest
  else task :: TaskState.upsertTask rest nextTask.
Proof.
  unfold TaskState.upsertTask. cbn [TaskState.findIndex].
  destruct (String.eqb (Task.id task) (Task.id nextTask)); [reflexivity|].
  destruct (TaskState.findIndex (Task.id nextTask) rest); reflexivity.
Qed.

Lemma findIndex_None_iff id tasks :
  TaskState.findIndex id tasks = None <-> findTask id tasks = None.
Proof.
  unfold findTask. induction tasks as [|task rest IH]; simpl; [tauto|].
  destruct (String.eqb (Task.id task) id); [split; discriminate|].
  destruct (TaskState.findIndex id rest); [|tauto].
  split; [discriminate|]. intros H. apply IH in H. discriminate.
Qed.

(** X1.  After [upsertTask], looking a task up by the id of the upserted
    task finds the upserted task, and looking up any other id gives what it
    gave before.  The list keeps its ids in their order: when the id was
    already there the list has the same length and the same sequence of ids,
    otherwise the new task is appended at the end. *)
Theorem upsertTask_lookup (tasks : list Task.t) (nextTask : Task.t) :
  findTask (Task.id nextTask) (TaskState.upsertTask tasks nextTask) = Some nextTask /\
  (forall id, id <> Task.id nextTask ->
              findTask id (TaskState.upsertTask tasks nextTask) = findTask id tasks) /\
  map Task.id (TaskState.upsertTask tasks nextTask)
    = match findTask (Task.id nextTask) tasks with
      | Some _ => map Task.id tasks
      | None => map Task.id tasks ++ [Task.id nextTask]
      end.
Proof.
  unfold findTask. induction tasks as [|task rest (IH1 & IH2 & IH3)].
  - cbn. rewrite String.eqb_refl. split; [reflexivity|]. split; [|reflexivity].
    intros id Hne. apply not_eq_sym, String.eqb_neq in Hne. now rewrite Hne.
  - rewrite upsertTask_cons. cbn [find map].
    destruct (String.eqb (Task.id task) (Task.id nextTask)) eqn:He.
    + cbn [find map]. rewrite String.eqb_refl.
      apply String.eqb_eq in He.
      split; [reflexivity|]. split; [|now rewrite He].
      intros id Hid. rewrite He.
      apply not_eq_sym, String.eqb_neq in Hid. now rewrite Hid.
    + cbn [find map]. rewrite He.
      split; [exact IH1|]. split.
      * intros id Hid. destruct (String.eqb (Task.id task) id); [reflexivity|].
        now apply IH2.
      * rewrite IH3. now destruct (find _ rest).
Qed.

Lemma filter_length_eq {A} (f : A -> bool) (l : list A) :
  length (List.filter f l) = length l -> List.filter f l = l.
Proof.
  induction l as [|a l IH]; simpl; [reflexivity|].
  destruct (f a); simpl; intros H.
  - f_equal. apply IH. lia.
  - pose proof (List.filter_length_le f l). lia.
Qed.

Lemma filter_sublist {A} (f : A -> bool) (l : list A) :
  sublist (List.filter f l) l.
Proof.
  induction l as [|a l IH]; simpl; [constructor|].
  destruct (f a); [now apply sublist_skip | now apply sublist_cons].
Qed.

Lemma removeTask_filter tasks taskId :
  TaskState.removeTask tasks taskId
  = List.filter (fun task => negb (String.eqb (Task.id task) taskId)) tasks.
Proof.
  unfold TaskState.removeTask.
  destruct (Nat.eqb_spec
              (length (List.filter (fun task => negb (String.eqb (Task.id task) taskId)) tasks))
              (length tasks)) as [H|H]; [|reflexivity].
  symmetry. now apply filter_length_eq.
Qed.

(** X2.  [removeTask] leaves no task with the given id, keeps every other
    task (the remaining tasks are the original ones in their order: the
    result is the list with the tasks of that id filtered out, a sublist of
    it), and returns the list it was given when no task has the id. *)
Theorem removeTask_removes_exactly (tasks : list Task.t) (taskId : string) :
  TaskState.removeTask tasks taskId
    = List.filter (fun task => negb (String.eqb (Task.id task) taskId)) tasks /\
  sublist (TaskState.removeTask tasks taskId) tasks /\
  findTask taskId (TaskState.removeTask tasks taskId) = None /\
  (forall id, id <> taskId ->
              findTask id (TaskState.removeTask tasks taskId) = findTask id tasks) /\
  (forall task, In task (TaskState.removeTask tasks taskId) <->
                In task tasks /\ Task.id task <> taskId) /\
  (findTask taskId tasks = None -> TaskState.removeTask tasks taskId = tasks).
Proof.
  rewrite removeTask_filter. unfold findTask.
  split; [reflexivity|]. split; [apply filter_sublist|].
  split; [|split; [|split]].
  - induction tasks as [|task rest IH]; simpl; [reflexivity|].
    destruct (String.eqb (Task.id task) taskId) eqn:He; simpl; [exact IH|].
    now rewrite He.
  - intros id Hne. induction tasks as [|task rest IH]; simpl; [reflexivity|].
    destruct (String.eqb_spec (Task.id task) taskId) as [He|He]; simpl.
    + rewrite IH. subst taskId. apply String.eqb_neq in Hne.
      rewrite String.eqb_sym in Hne. now rewrite Hne.
    + destruct (String.eqb (Task.id task) id); [reflexivity | exact IH].
  - intros task. rewrite filter_In, negb_true_iff, String.eqb_neq. tauto.
  - induction tasks as [|task rest IH]; simpl; [reflexivity|].
    destruct (String.eqb (Task.id task) taskId); [discriminate|].
    simpl. intros H. now rewrite IH.
Qed.

(** X3.  Upserting a task whose id is not in the list and then removing
    that id gives back the original list. *)
Theorem upsert_then_remove (tasks : list Task.t) (nextTask : Task.t) :
  findTask (Task.id nextTask) tasks = None ->
  TaskState.removeTask (TaskState.upsertTask tasks nextTask) (Task.id nextTask)
  = tasks.
Proof.
  intros Hfresh. rewrite removeTask_filter.
  unfold TaskState.upsertTask.
  rewrite (proj2 (findIndex_None_iff _ _) Hfresh).
  rewrite List.filter_app. simpl. rewrite String.eqb_refl. simpl.
  rewrite app_nil_r. unfold findTask in Hfresh.
  induction tasks as [|task rest IH]; simpl in *; [reflexivity|].
  destruct (String.eqb (Task.id task) (Task.id nextTask)); [discriminate|].
  simpl. now rewrite IH.
Qed.

Lemma upsert_then_remove_witness :
  TaskState.removeTask
    (TaskState.upsertTask [lateToday] brokenRuleTask) (Task.id brokenRuleTask)
  = [lateToday].
Proof.
  apply (upsert_then_remove [lateToday] brokenRuleTask). reflexivity.
Defined.

Lemma updateStep_fold taskId updater tasks acc did :
  fold_left (TaskState.updateStep taskId updater) tasks (acc, did) =
  (acc ++ map (fun task => if String.eqb (Task.id task) taskId
                           then updater task else task) tasks,
   did || existsb (fun task => String.eqb (Task.id task) taskId) tasks).
Proof.
  revert acc did. induction tasks as [|task rest IH]; intros acc did; simpl.
  - now rewrite app_nil_r, orb_false_r.
  - unfold TaskState.updateStep at 2. simpl.
    destruct (String.eqb (Task.id task) taskId); simpl; rewrite IH, <- app_assoc; simpl.
    + now rewrite orb_true_r.
    + reflexivity.
Qed.

Lemma map_unmatched taskId updater tasks :
  existsb (fun task => String.eqb (Task.id task) taskId) tasks = false ->
  map (fun task => if String.eqb (Task.id task) taskId
                   then updater task else task) tasks = tasks.
Proof.
  induction tasks as [|task rest IH]; simpl; [reflexivity|].
  destruct (String.eqb (Task.id task) taskId); simpl; [discriminate|].
  intros H. now rewrite IH.
Qed.

(** The flag-and-map of [updateTaskById] amounts to one map over the list. *)
Lemma updateTaskById_map tasks taskId updater :
  TaskState.updateTaskById tasks taskId updater =
  map (fun task => if String.eqb (Task.id task) taskId
                   then updater task else task) tasks.
Proof.
  unfold TaskState.updateTaskById. rewrite updateStep_fold. simpl.
  destruct (existsb _ tasks) eqn:He; [reflexivity|].
  symmetry. now apply map_unmatched.
Qed.

(** X4.  For every updater, [updateTaskById] applies it to every task with
    the given id (not only to the first one) and leaves the other tasks and
    the length of the list as they are; with no task of that id it returns
    the list it was given.  For an updater that keeps the id of a task, two
    updates in a row amount to one update with the composed updater. *)
Theorem updateTaskById_compose (tasks : list Task.t) (taskId : string)
    (f g : Task.t -> Task.t) :
  length (TaskState.updateTaskById tasks taskId f) = length tasks /\
  (forall i task,
      tasks !! i = Some task ->
      TaskState.updateTaskById tasks taskId f !! i
        = Some (if String.eqb (Task.id task) taskId then f task else task)) /\
  (findTask taskId tasks = None ->
   TaskState.updateTaskById tasks taskId f = tasks) /\
  ((forall task, Task.id (f task) = Task.id task) ->
   TaskState.updateTaskById (TaskState.updateTaskById tasks taskId f) taskId g
     = TaskState.updateTaskById tasks taskId (fun task => g (f task))).
Proof.
  rewrite !updateTaskById_map.
  split; [|split; [|split]].
  - apply length_map.
  - intros i task Hi.
    change (map ?h tasks) with (h <$> tasks).
    now rewrite list_lookup_fmap, Hi.
  - intros Hnone. apply map_unmatched. unfold findTask in Hnone.
    induction tasks as [|task rest IH]; simpl in *; [reflexivity|].
    destruct (String.eqb (Task.id task) taskId); [discriminate | now apply IH].
  - intros Hid. rewrite map_map. apply map_ext. intros task.
    destruct (String.eqb (Task.id task) taskId) eqn:He; [|now rewrite He].
    now rewrite Hid, He.
Qed.

Lemma updateTaskById_compose_witness :
  TaskState.updateTaskById
    (TaskState.updateTaskById [lateToday; brokenRuleTask] "late-today" toggleEnabled)
    "late-today" toggleEnabled
  = [lateToday; brokenRuleTask].
Proof.
  rewrite (proj2 (proj2 (proj2
            (updateTaskById_compose [lateToday; brokenRuleTask] "late-today"
               toggleEnabled toggleEnabled)))
             (fun task => eq_refl)).
  reflexivity.
Defined.

Lemma toggleEnabled_twice task : toggleEnabled (toggleEnabled task) = task.
Proof. destruct task as [i n d e tz w f]. unfold toggleEnabled, Task.with_enabled. simpl. now rewrite negb_involutive. Qed.

(** X5.  Toggling [enabled] on one id an even number of times through
    [updateTaskById] gives back the list unchanged, whatever the list. *)
Theorem toggling_twice_restores (tasks : list Task.t) (taskId : string) (n : nat) :
  Nat.iter (2 * n)
    (fun current => TaskState.updateTaskById current taskId toggleEnabled) tasks
  = tasks.
Proof.
  induction n as [|n IH]; [reflexivity|].
  replace (2 * S n)%nat with (S (S (2 * n))) by lia.
  rewrite !Nat.iter_succ, IH, !updateTaskById_map, map_map.
  rewrite <- (map_id tasks) at 2. apply map_ext. intros task.
  destruct (String.eqb (Task.id task) taskId) eqn:He; [|now rewrite He].
  change (Task.id (toggleEnabled task)) with (Task.id task).
  now rewrite He, toggleEnabled_twice.
Qed.

(** ** The two selections of today's and overdue tasks *)

(** X6.  The storage method [getTodayAndOverdueTasks] returns what the
    dashboard helper of the same name returns on the tasks of the storage at
    the same clock reading; the result keeps the order of the storage and
    never contains a task whose [dueAt] does not parse to a date. *)
Theorem today_selections_agree {rt : JSRuntime} (clock : Z) (tasks : TaskStorage.t) :
  TaskStorage.getTodayAndOverdueTasks clock tasks
    = TaskState.getTodayAndOverdueTasks (TaskStorage.getAllTasks tasks) (Time clock) /\
  sublist (TaskStorage.getTodayAndOverdueTasks clock tasks)
          (TaskStorage.getAllTasks tasks) /\
  Forall (fun task => Date_parse (Task.dueAt task) <> InvalidDate)
         (TaskStorage.getTodayAndOverdueTasks clock tasks).
Proof.
  assert (Heq : TaskStorage.getTodayAndOverdueTasks clock tasks
                = TaskState.getTodayAndOverdueTasks (TaskStorage.getAllTasks tasks)
                    (Time clock)).
  { unfold TaskStorage.getTodayAndOverdueTasks, TaskStorage.getEnabledTasks,
      TaskState.getTodayAndOverdueTasks. cbv zeta.
    induction (TaskStorage.getAllTasks tasks) as [|task rest IH];
      cbn [List.filter]; [reflexivity|].
    destruct (Task.enabled task); cbn [List.filter negb]; [|exact IH].
    destruct (Date_le _ _); now rewrite IH. }
  split; [exact Heq|]. split.
  - rewrite Heq. apply filter_sublist.
  - apply List.Forall_forall. intros task Hin.
    unfold TaskStorage.getTodayAndOverdueTasks in Hin.
    apply filter_In in Hin as [_ Hle].
    destruct (Date_parse (Task.dueAt task)); [discriminate | discriminate].
Qed.

(** X7.  [getTasksInRange] returns exactly the enabled tasks whose [dueAt]
    parses to a date within the inclusive bounds, in storage order; it
    returns nothing when a bound is the invalid date or when the end is
    before the start. *)
Theorem getTasksInRange_exact {rt : JSRuntime} (tasks : TaskStorage.t)
    (startDate endDate : Date) :
  (forall task,
      In task (TaskStorage.getTasksInRange tasks startDate endDate) <->
      In task (TaskStorage.getAllTasks tasks) /\ Task.enabled task = true /\
      exists d s e,
        Date_parse (Task.dueAt task) = Time d /\ startDate = Time s /\
        endDate = Time e /\ s <= d <= e) /\
  sublist (TaskStorage.getTasksInRange tasks startDate endDate)
          (TaskStorage.getEnabledTasks tasks) /\
  (startDate = InvalidDate \/ endDate = InvalidDate \/
   Date_lt endDate startDate = true ->
   TaskStorage.getTasksInRange tasks startDate endDate = []).
Proof.
  split; [|split].
  - intros task. unfold TaskStorage.getTasksInRange, TaskStorage.getEnabledTasks.
    rewrite !filter_In, andb_true_iff. unfold Date_ge.
    destruct (Date_parse (Task.dueAt task)) as [|d], startDate as [|s], endDate as [|e];
      simpl; rewrite ?Z.leb_le;
      (split; [intros [[Hin Hen] [H1 H2]]; try discriminate
              | intros (Hin & Hen & d' & s' & e' & Hd & Hs & He & Hr); try discriminate]).
    + split; [assumption|]. split; [assumption|]. exists d, s, e. repeat split; lia.
    + injection Hd as <-. injection Hs as <-. injection He as <-.
      split; [now split|]. split; lia.
  - apply filter_sublist.
  - intros H. unfold TaskStorage.getTasksInRange.
    induction (TaskStorage.getEnabledTasks tasks) as [|task rest IH]; simpl; [reflexivity|].
    rewrite IH.
    replace (Date_ge (Date_parse (Task.dueAt task)) startDate
             && Date_le (Date_parse (Task.dueAt task)) endDate) with false;
      [reflexivity|].
    symmetry. unfold Date_ge.
    destruct (Date_parse (Task.dueAt task)) as [|d], startDate as [|s], endDate as [|e];
      simpl; try reflexivity; try (now rewrite andb_false_r).
    destruct H as [H|[H|H]]; try discriminate.
    simpl in H. apply Z.ltb_lt in H.
    destruct (Z.leb_spec s d), (Z.leb_spec d e); simpl; try reflexivity; lia.
Qed.

(** ** TaskStorage: the map and the plugin *)

Lemma getTask_map_set_eq (m : TaskStorage.t) k v :
  TaskStorage.getTask (TaskStorage.map_set k v m) k = Some v.
Proof.
  unfold TaskStorage.getTask. induction m as [|[k' v'] m IH]; simpl.
  - now rewrite String.eqb_refl.
  - destruct (String.eqb k' k) eqn:He; simpl; now rewrite He.
Qed.

Lemma getTask_map_set_ne (m : TaskStorage.t) k v k' :
  k <> k' ->
  TaskStorage.getTask (TaskStorage.map_set k v m) k' = TaskStorage.getTask m k'.
Proof.
  intros Hne. unfold TaskStorage.getTask.
  induction m as [|[k0 v0] m IH]; simpl.
  - apply String.eqb_neq in Hne. now rewrite Hne.
  - destruct (String.eqb k0 k) eqn:He; simpl.
    + apply String.eqb_eq in He. subst k0.
      apply String.eqb_neq in Hne. now rewrite Hne.
    + destruct (String.eqb k0 k'); [reflexivity | exact IH].
Qed.

Lemma getTask_map_delete_eq (m : TaskStorage.t) k :
  TaskStorage.getTask (TaskStorage.map_delete k m) k = None.
Proof.
  unfold TaskStorage.getTask, TaskStorage.map_delete.
  induction m as [|[k' v'] m IH]; simpl; [reflexivity|].
  destruct (String.eqb k' k) eqn:He; simpl; [exact IH | now rewrite He].
Qed.

Lemma getTask_map_delete_ne (m : TaskStorage.t) k k' :
  k <> k' ->
  TaskStorage.getTask (TaskStorage.map_delete k m) k' = TaskStorage.getTask m k'.
Proof.
  intros Hne. unfold TaskStorage.getTask, TaskStorage.map_delete.
  induction m as [|[k0 v0] m IH]; simpl; [reflexivity|].
  destruct (String.eqb k0 k) eqn:He; simpl.
  - apply String.eqb_eq in He. subst k0.
    apply String.eqb_neq in Hne. now rewrite Hne.
  - destruct (String.eqb k0 k'); [reflexivity | exact IH].
Qed.

Lemma map_set_keys (m : TaskStorage.t) k v :
  map fst (TaskStorage.map_set k v m)
  = if existsb (String.eqb k) (map fst m) then map fst m else map fst m ++ [k].
Proof.
  induction m as [|[k' v'] m IH]; simpl; [reflexivity|].
  rewrite (String.eqb_sym k k').
  destruct (String.eqb k' k); simpl; [reflexivity|].
  rewrite IH. now destruct (existsb _ _).
Qed.

Lemma existsb_eqb_In k (l : list string) :
  existsb (String.eqb k) l = true <-> In k l.
Proof.
  rewrite existsb_exists. split.
  - intros (x & Hin & He). apply String.eqb_eq in He. now subst.
  - intros H. exists k. split; [assumption | apply String.eqb_refl].
Qed.

Lemma storage_wf_map_set (m : TaskStorage.t) task :
  storage_wf m -> storage_wf (TaskStorage.map_set (Task.id task) task m).
Proof.
  intros [Hnd Hkey]. split.
  - rewrite map_set_keys.
    destruct (existsb _ _) eqn:He; [assumption|].
    apply NoDup_app. split; [assumption|]. split; [|apply NoDup_singleton].
    intros x Hx Hxk. apply list_elem_of_In in Hx, Hxk.
    destruct Hxk as [<-|[]].
    apply existsb_eqb_In in Hx. congruence.
  - induction m as [|[k' v'] m IH]; simpl.
    + constructor; [reflexivity | constructor].
    + inversion Hkey as [|? ? Hk Hrest]; subst.
      inversion Hnd; subst.
      destruct (String.eqb k' (Task.id task)) eqn:He.
      * constructor; [|assumption]. simpl. now apply String.eqb_eq in He.
      * constructor; [assumption|]. now apply IH.
Qed.

Lemma storage_wf_map_delete (m : TaskStorage.t) k :
  storage_wf m -> storage_wf (TaskStorage.map_delete k m).
Proof.
  intros [Hnd Hkey]. unfold TaskStorage.map_delete. split.
  - induction m as [|[k' v'] m IH]; simpl; [constructor|].
    inversion Hnd as [|? ? Hnotin Hnd']; subst.
    inversion Hkey; subst.
    destruct (negb (String.eqb k' k)); simpl; [|now apply IH].
    constructor; [|now apply IH].
    intros Hin. apply Hnotin. apply list_elem_of_In in Hin. apply list_elem_of_In.
    apply in_map_iff in Hin as (kv & Hfst & Hin).
    apply filter_In in Hin as [Hin _]. apply in_map_iff. now exists kv.
  - apply List.Forall_forall. intros kv Hin. apply filter_In in Hin as [Hin _].
    rewrite List.Forall_forall in Hkey. now apply Hkey.
Qed.

Lemma fold_map_set_wf (l : list Task.t) (m : TaskStorage.t) :
  storage_wf m ->
  storage_wf (fold_left (fun m task => TaskStorage.map_set (Task.id task) task m) l m).
Proof.
  revert m. induction l as [|task l IH]; intros m H; simpl; [assumption|].
  apply IH. now apply storage_wf_map_set.
Qed.

Lemma storage_wf_nil : storage_wf [].
Proof. split; constructor. Qed.

Lemma map_set_fresh (m : TaskStorage.t) k v :
  ~ In k (map fst m) -> TaskStorage.map_set k v m = m ++ [(k, v)].
Proof.
  induction m as [|[k' v'] m IH]; simpl; intros H; [reflexivity|].
  destruct (String.eqb_spec k' k) as [->|Hne]; [tauto|].
  rewrite IH; [reflexivity | tauto].
Qed.

(** Rebuilding a well-formed map from its values gives the map back. *)
Lemma fold_map_set_values (l acc : TaskStorage.t) :
  storage_wf (acc ++ l) ->
  fold_left (fun m task => TaskStorage.map_set (Task.id task) task m)
            (map snd l) acc = acc ++ l.
Proof.
  revert acc. induction l as [|[k v] l IH]; intros acc Hwf; simpl.
  - now rewrite app_nil_r.
  - destruct Hwf as [Hnd Hkey].
    assert (Hk : k = Task.id v).
    { rewrite List.Forall_forall in Hkey. apply (Hkey (k, v)).
      apply in_or_app. right. now left. }
    assert (Hfresh : ~ In k (map fst acc)).
    { rewrite map_app in Hnd. apply NoDup_app in Hnd as (_ & Hdisj & _).
      intros Hin. apply (Hdisj k); [now apply list_elem_of_In|].
      simpl. apply list_elem_of_In. now left. }
    rewrite <- Hk, (map_set_fresh acc k v Hfresh).
    rewrite (IH (acc ++ [(k, v)])); rewrite <- app_assoc; [reflexivity|].
    now split.
Qed.

Section StorageFacts.
Context {rt : JSRuntime} {P : Type} {plug : TaskStorage.Plugin P}.

Lemma save_tasks (s : TaskStorage.Storage P) :
  TaskStorage.tasks (snd (TaskStorage.save s)) = TaskStorage.tasks s.
Proof.
  unfold TaskStorage.save.
  now destruct (TaskStorage.saveData _ _ _).
Qed.

Lemma runStorageCall_wf (s : TaskStorage.Storage P) call :
  storage_wf (TaskStorage.tasks s) ->
  storage_wf (TaskStorage.tasks (runStorageCall s call)).
Proof.
  intros Hwf. destruct call as [|task|id|]; simpl.
  - unfold TaskStorage.init.
    destruct (TaskStorage.loadData _ _) as [[|l|]|e]; simpl;
      try assumption; try apply storage_wf_nil.
    apply fold_map_set_wf, storage_wf_nil.
  - unfold TaskStorage.saveTask. rewrite save_tasks. simpl.
    now apply storage_wf_map_set.
  - unfold TaskStorage.deleteTask. rewrite save_tasks. simpl.
    now apply storage_wf_map_delete.
  - unfold TaskStorage.clearAll. rewrite save_tasks. apply storage_wf_nil.
Qed.
End StorageFacts.

(** X8.  After [saveTask], whether the write to disk succeeded or was
    rejected, [getTask] with the id of the task returns the task, [getTask]
    with any other id returns what it returned before, and [getAllTasks]
    keeps the earlier tasks in their order (the task takes the place of the
    one with its id, or comes last).  When the write is rejected the error
    reaches the caller, and the plugin is left as it was. *)
Theorem saveTask_then_getTask {P : Type} {plug : TaskStorage.Plugin P}
    (task : Task.t) (s : TaskStorage.Storage P) :
  let s' := snd (TaskStorage.saveTask task s) in
  TaskStorage.getTask (TaskStorage.tasks s') (Task.id task) = Some task /\
  (forall id, id <> Task.id task ->
              TaskStorage.getTask (TaskStorage.tasks s') id
              = TaskStorage.getTask (TaskStorage.tasks s) id) /\
  map fst (TaskStorage.tasks s')
    = (if existsb (String.eqb (Task.id task)) (map fst (TaskStorage.tasks s))
       then map fst (TaskStorage.tasks s)
       else map fst (TaskStorage.tasks s) ++ [Task.id task]) /\
  (forall e,
      TaskStorage.saveData (TaskStorage.plugin s) TaskStorage.STORAGE_KEY
        (TaskStorage.getAllTasks
           (TaskStorage.map_set (Task.id task) task (TaskStorage.tasks s)))
        = Throw e ->
      fst (TaskStorage.saveTask task s) = Throw e /\
      TaskStorage.plugin s' = TaskStorage.plugin s).
Proof.
  intros s'. unfold s', TaskStorage.saveTask. rewrite save_tasks. simpl.
  split; [apply getTask_map_set_eq|]. split.
  - intros id Hne. apply getTask_map_set_ne. congruence.
  - split; [apply map_set_keys|].
    intros e He. unfold TaskStorage.save. simpl. rewrite He. now split.
Qed.

Lemma saveTask_then_getTask_witness :
  fst (@TaskStorage.saveTask unit brokenDisk lateToday (TaskStorage.new tt))
    = Throw "disk full" /\
  TaskStorage.getTask
    (TaskStorage.tasks
       (snd (@TaskStorage.saveTask unit brokenDisk lateToday (TaskStorage.new tt))))
    "late-today" = Some lateToday.
Proof.
  pose proof (@saveTask_then_getTask unit brokenDisk lateToday (TaskStorage.new tt)) as H.
  cbv zeta in H. destruct H as (H1 & _ & _ & H4).
  split; [exact (proj1 (H4 "disk full" eq_refl)) | exact H1].
Defined.

(** X9.  After [deleteTask], whether the write to disk succeeded or not,
    [getTask] with the deleted id returns nothing and [getTask] with any
    other id returns what it returned before. *)
Theorem deleteTask_then_getTask {P : Type} {plug : TaskStorage.Plugin P}
    (id : string) (s : TaskStorage.Storage P) :
  let s' := snd (TaskStorage.deleteTask id s) in
  TaskStorage.getTask (TaskStorage.tasks s') id = None /\
  (forall id', id' <> id ->
               TaskStorage.getTask (TaskStorage.tasks s') id'
               = TaskStorage.getTask (TaskStorage.tasks s) id').
Proof.
  intros s'. unfold s', TaskStorage.deleteTask. rewrite save_tasks. simpl.
  split; [apply getTask_map_delete_eq|].
  intros id' Hne. apply getTask_map_delete_ne. congruence.
Qed.

(** X10.  Starting from a new [TaskStorage], after any sequence of [init],
    [saveTask], [deleteTask] and [clearAll] calls, with any plugin, the keys
    of the task map are pairwise distinct and every task is stored under its
    own id; so [getAllTasks] never holds two tasks with the same id. *)
Theorem storage_keys_are_task_ids {P : Type} {plug : TaskStorage.Plugin P}
    (p : P) (calls : list StorageCall) :
  let s := fold_left runStorageCall calls (TaskStorage.new p) in
  storage_wf (TaskStorage.tasks s) /\
  NoDup (map Task.id (TaskStorage.getAllTasks (TaskStorage.tasks s))).
Proof.
  intros s.
  assert (Hwf : storage_wf (TaskStorage.tasks s)).
  { unfold s. generalize (@storage_wf_nil).
    change [] with (TaskStorage.tasks (TaskStorage.new p)).
    generalize (TaskStorage.new p). clear s.
    induction calls as [|call calls IH]; intros s0 H0; simpl; [assumption|].
    apply IH. now apply runStorageCall_wf. }
  split; [exact Hwf|].
  destruct Hwf as [Hnd Hkey]. unfold TaskStorage.getAllTasks.
  rewrite map_map.
  replace (map (fun x => Task.id (snd x)) (TaskStorage.tasks s))
    with (map fst (TaskStorage.tasks s)); [assumption|].
  apply map_ext_in. intros kv Hin.
  rewrite List.Forall_forall in Hkey. now apply Hkey.
Qed.

(** X11.  Save and reload: when [save] succeeds on a storage whose map is
    well formed and the plugin then loads what was saved, a new
    [TaskStorage] on that plugin holds after [init] the same task map, in the
    same order. *)
Theorem save_then_init_restores {P : Type} {plug : TaskStorage.Plugin P}
    (s s' : TaskStorage.Storage P) :
  storage_wf (TaskStorage.tasks s) ->
  TaskStorage.save s = (Ok tt, s') ->
  TaskStorage.loadData (TaskStorage.plugin s') TaskStorage.STORAGE_KEY
    = Ok (TaskStorage.TasksData (TaskStorage.getAllTasks (TaskStorage.tasks s))) ->
  TaskStorage.tasks (TaskStorage.init (TaskStorage.new (TaskStorage.plugin s')))
    = TaskStorage.tasks s.
Proof.
  intros Hwf _ Hload. unfold TaskStorage.init, TaskStorage.new. simpl.
  rewrite Hload. simpl. unfold TaskStorage.map_of_tasks, TaskStorage.getAllTasks.
  now rewrite (fold_map_set_values (TaskStorage.tasks s) []).
Qed.

Lemma save_then_init_restores_witness :
  let s := snd (TaskStorage.saveTask brokenRuleTask
                  (snd (TaskStorage.saveTask lateToday (TaskStorage.new (∅ : gmap string TaskStorage.Data))))) in
  TaskStorage.tasks (TaskStorage.init (TaskStorage.new (TaskStorage.plugin (snd (TaskStorage.save s)))))
    = [("late-today", lateToday); ("broken", brokenRuleTask)].
Proof.
  intros s.
  rewrite (save_then_init_restores s (snd (TaskStorage.save s))).
  - reflexivity.
  - split; [|repeat constructor].
    apply (bool_decide_unpack _). reflexivity.
  - reflexivity.
  - reflexivity.
Defined.

Lemma find_app_first {A} (f : A -> bool) (l1 l2 : list A) :
  find f (l1 ++ l2) = match find f l1 with Some a => Some a | None => find f l2 end.
Proof.
  induction l1 as [|a l1 IH]; simpl; [reflexivity|].
  now destruct (f a).
Qed.

Lemma getTask_fold_map_set (l : list Task.t) (acc : TaskStorage.t) id :
  TaskStorage.getTask
    (fold_left (fun m task => TaskStorage.map_set (Task.id task) task m) l acc) id
  = match findTask id (rev l) with
    | Some task => Some task
    | None => TaskStorage.getTask acc id
    end.
Proof.
  revert acc. induction l as [|task l IH]; intros acc; simpl; [reflexivity|].
  rewrite IH. unfold findTask. rewrite find_app_first.
  destruct (find _ (rev l)); [reflexivity|]. simpl.
  destruct (String.eqb_spec (Task.id task) id) as [<-|Hne].
  - apply getTask_map_set_eq.
  - now apply getTask_map_set_ne.
Qed.

(** X12.  [init] never fails.  When [loadData] is rejected the task map is
    emptied, whatever it held.  When nothing is stored, or the stored value
    has no [tasks] array, the storage is left as it is.  When a [tasks]
    array is loaded, the map holds for each id the last task of the array
    with that id, and no other id. *)
Theorem init_outcomes {P : Type} {plug : TaskStorage.Plugin P}
    (s : TaskStorage.Storage P) :
  match TaskStorage.loadData (TaskStorage.plugin s) TaskStorage.STORAGE_KEY with
  | Throw _ => TaskStorage.tasks (TaskStorage.init s) = []
  | Ok (TaskStorage.TasksData l) =>
      forall id, TaskStorage.getTask (TaskStorage.tasks (TaskStorage.init s)) id
                 = findTask id (rev l)
  | Ok _ => TaskStorage.init s = s
  end /\
  TaskStorage.plugin (TaskStorage.init s) = TaskStorage.plugin s.
Proof.
  unfold TaskStorage.init.
  destruct (TaskStorage.loadData _ _) as [[|l|]|e]; simpl; split; try reflexivity.
  intros id. unfold TaskStorage.map_of_tasks. rewrite getTask_fold_map_set.
  now destruct (findTask id (rev l)).
Qed.

(** ** The engine beyond the claims *)

Section EngineFurther.
Context {rt : JSRuntime} {lib : RRuleLib}.

Lemma getRRule_withWhenDone clock task a b (c : gmap string RRule) :
  getRRule clock (withWhenDone task a b) c = getRRule clock task c.
Proof.
  destruct task as [id name dueAt en tz wd [ty iv tm rs ds ftz fwd]].
  reflexivity.
Qed.

Lemma normalize_prefixed s :
  normalize (String.append "RRULE:" s) = String.append "RRULE:" s.
Proof. unfold normalize, startsWith. simpl. now destruct s. Qed.

Lemma normalize_bare s :
  startsWith s "RRULE:" = false -> normalize s = String.append "RRULE:" s.
Proof. intros H. unfold normalize. now rewrite H. Qed.

Lemma normalize_idempotent s : normalize (normalize s) = normalize s.
Proof.
  unfold normalize at 2 3. destruct (startsWith s "RRULE:") eqn:H.
  - unfold normalize. now rewrite H.
  - apply normalize_prefixed.
Qed.

(** From an empty cache the rule compiled for a task depends on its rule
    text only through the normalised text. *)
Lemma getRRule_empty_withRule clock task s s' :
  normalize s = normalize s' ->
  fst (getRRule clock (withRule task s) ∅) = fst (getRRule clock (withRule task s') ∅).
Proof.
  intros Hn. destruct task as [id name dueAt en tz wd [ty iv tm rs ds ftz fwd]].
  unfold getRRule, withRule, bind, cache_get, cache_set, lift, ret, throwM, RRule_new.
  cbn [Task.frequency Task.id Task.dueAt Task.timezone Frequency.rruleString
       Frequency.dtstart Frequency.timezone].
  rewrite !lookup_empty, Hn.
  destruct (rrulestr clock (normalize s')) as [parsed|e]; [|reflexivity].
  destruct ds as [[|ch ds]|]; [destruct dueAt| |destruct dueAt];
    destruct (RRule_validate _); reflexivity.
Qed.

Lemma applyFixedTime_withRule date task s :
  applyFixedTime date (Task.frequency (withRule task s))
  = applyFixedTime date (Task.frequency task).
Proof. destruct task as [id name dueAt en tz wd [ty iv tm rs ds ftz fwd]]. reflexivity. Qed.

Lemma hasRule_withRule task s : hasRule (withRule task s) = truthy_str (Some s).
Proof. destruct task as [id name dueAt en tz wd [ty iv tm rs ds ftz fwd]]. reflexivity. Qed.
End EngineFurther.

(** X13.  The [whenDone] flags of a task and of its frequency have no
    effect on [getNextOccurrence]: with any other flags the call returns
    the same result and leaves the same cache. *)
Theorem whenDone_is_ignored {rt : JSRuntime} {lib : RRuleLib}
    clock task (onTask onFrequency : option bool) from (c : gmap string RRule) :
  getNextOccurrence clock (withWhenDone task onTask onFrequency) from c
  = getNextOccurrence clock task from c.
Proof.
  rewrite !getNextOccurrence_unfold, getRRule_withWhenDone.
  destruct task as [id name dueAt en tz wd [ty iv tm rs ds ftz fwd]].
  reflexivity.
Qed.

(** X14.  The prefix [RRULE:] is optional.  For a non-empty rule text
    written without it, [validateRRule] gives the same verdict with the
    prefix added, and from an empty cache [getNextOccurrence],
    [getOccurrencesBetween] and [isOccurrenceOn] return the same for the task
    with either text.  [toNaturalLanguage] returns the same text, unless the
    conversion fails and each call returns its own input. *)
Theorem rule_prefix_is_optional {rt : JSRuntime} {lib : RRuleLib}
    clock (s : string) task from to :
  s <> "" ->
  startsWith s "RRULE:" = false ->
  let prefixed := String.append "RRULE:" s in
  validateRRule clock prefixed = validateRRule clock s /\
  fst (getNextOccurrence clock (withRule task prefixed) from ∅)
    = fst (getNextOccurrence clock (withRule task s) from ∅) /\
  fst (getOccurrencesBetween clock (withRule task prefixed) from to ∅)
    = fst (getOccurrencesBetween clock (withRule task s) from to ∅) /\
  fst (isOccurrenceOn clock (withRule task prefixed) from ∅)
    = fst (isOccurrenceOn clock (withRule task s) from ∅) /\
  (toNaturalLanguage clock prefixed = toNaturalLanguage clock s \/
   (toNaturalLanguage clock prefixed = prefixed /\ toNaturalLanguage clock s = s)).
Proof.
  intros Hs Hbare prefixed.
  assert (Hn : normalize prefixed = normalize s).
  { unfold prefixed. now rewrite normalize_prefixed, normalize_bare. }
  assert (Hr := getRRule_empty_withRule clock task prefixed s Hn).
  destruct s as [|ch s]; [congruence|].
  split.
  { unfold validateRRule. cbn [prefixed String.append]. fold prefixed.
    change (String "R" (String.append "RULE:" (String ch s))) with prefixed.
    now rewrite Hn. }
  split.
  { rewrite !getNextOccurrence_unfold, !hasRule_withRule. cbn [truthy_str prefixed String.append negb].
    revert Hr.
    destruct (getRRule clock (withRule task prefixed) ∅) as [[r1|e1] c1],
             (getRRule clock (withRule task (String ch s)) ∅) as [[r2|e2] c2];
      simpl; intros Hr; try discriminate; [|reflexivity].
    injection Hr as ->.
    destruct (RRule_after r2 from false) as [[next|]|]; simpl;
      now rewrite ?applyFixedTime_withRule. }
  split.
  { rewrite !getOccurrencesBetween_unfold, !hasRule_withRule. cbn [truthy_str prefixed String.append negb].
    revert Hr.
    destruct (getRRule clock (withRule task prefixed) ∅) as [[r1|e1] c1],
             (getRRule clock (withRule task (String ch s)) ∅) as [[r2|e2] c2];
      simpl; intros Hr; try discriminate; [|reflexivity].
    injection Hr as ->.
    now destruct (RRule_between r2 from to true). }
  split.
  { rewrite !isOccurrenceOn_unfold, !hasRule_withRule. cbn [truthy_str prefixed String.append negb].
    revert Hr.
    destruct (getRRule clock (withRule task prefixed) ∅) as [[r1|e1] c1],
             (getRRule clock (withRule task (String ch s)) ∅) as [[r2|e2] c2];
      simpl; intros Hr; try discriminate; [|reflexivity].
    injection Hr as ->.
    now destruct (RRule_between r2 _ _ true). }
  unfold toNaturalLanguage. cbn [prefixed String.append]. fold prefixed.
  change (String "R" (String.append "RULE:" (String ch s))) with prefixed.
  rewrite Hn.
  destruct (rrulestr clock (normalize (String ch s))) as [parsed|e]; simpl; [|now right].
  destruct (RRule_new _) as [r|e]; simpl; [|now right].
  destruct (RRule_toText r); simpl; [now left | now right].
Qed.

Lemma rule_prefix_is_optional_witness :
  validateRRule (lib := stubLib utcHost) 0 "RRULE:FREQ=DAILY"
  = validateRRule (lib := stubLib utcHost) 0 "FREQ=DAILY".
Proof.
  exact (proj1 (rule_prefix_is_optional (rt := utcHost) (lib := stubLib utcHost)
                  0 "FREQ=DAILY" lateToday InvalidDate InvalidDate
                  ltac:(discriminate) eq_refl)).
Defined.

(** X15.  The result of [validateRRule] is well formed: it is valid exactly
    when it carries no error message, and an invalid result always carries
    one.  The message [RRULE COUNT is 0] is never the engine's own: it is
    returned only when the library threw an error with this very text. *)
Theorem validateRRule_error_iff_invalid {lib : RRuleLib} clock (s : string) :
  let r := validateRRule clock s in
  (valid r = true <-> error r = None) /\
  (valid r = false -> exists e, error r = Some e) /\
  (error r = Some "RRULE COUNT is 0" ->
   rrulestr clock (normalize s) = Throw "RRULE COUNT is 0" \/
   (exists options, RRule_validate options = Throw "RRULE COUNT is 0") \/
   (exists rrule, RRule_after rrule (Time clock) true = Throw "RRULE COUNT is 0")).
Proof.
  unfold validateRRule, try_catchR, bindR, RRule_new.
  destruct s as [|ch s]; simpl.
  { repeat split; try discriminate. eauto. }
  destruct (rrulestr clock (normalize (String ch s))) as [parsed|e]; simpl.
  2:{ repeat split; try discriminate; eauto. intros [= ->]. now left. }
  match goal with |- context [RRule_validate ?o] =>
    destruct (RRule_validate o) as [[]|e] eqn:Hv; simpl end.
  2:{ repeat split; try discriminate; eauto. intros [= ->]. right; left. eauto. }
  match goal with |- context [RRule_after ?r ?d true] =>
    destruct (RRule_after r d true) as [[next|]|e] eqn:Ha; simpl end.
  - repeat split; try discriminate.
  - destruct (match Options.until _ with Some u => Date_lt u (Time clock) | None => false end);
      simpl.
    + repeat split; try discriminate. eauto.
    + destruct (Options.count _) as [n|]; simpl;
        rewrite ?count_zero_guard_is_dead; repeat split; discriminate.
  - repeat split; try discriminate; eauto. intros [= ->]. right; right. eauto.
Qed.

Lemma validateRRule_error_iff_invalid_witness :
  exists e, error (validateRRule (lib := stubLib utcHost) 0 "nonsense") = Some e.
Proof.
  pose proof (validateRRule_error_iff_invalid (lib := stubLib utcHost) 0 "nonsense") as H.
  cbv zeta in H. destruct H as (_ & H & _).
  exact (H eq_refl).
Defined.

(** X16.  [toNaturalLanguage] never fails and never invents a text: it
    returns the input unchanged, or the text the library produced for a
    rule that has a [dtstart].  It returns the input whenever the library
    rejects the normalised rule text, and the empty string for the empty
    string. *)
Theorem toNaturalLanguage_falls_back_to_input {lib : RRuleLib} clock (s : string) :
  (toNaturalLanguage clock s = s \/
   exists rrule, RRule_toText rrule = Ok (toNaturalLanguage clock s) /\
                 Options.dtstart (origOptions rrule) <> None) /\
  (forall e, rrulestr clock (normalize s) = Throw e -> toNaturalLanguage clock s = s).
Proof.
  unfold toNaturalLanguage, try_catchR, bindR, RRule_new.
  destruct s as [|ch s]; [split; [now left | reflexivity]|].
  destruct (rrulestr clock (normalize (String ch s))) as [parsed|e];
    [|split; [now left | reflexivity]].
  split; [|discriminate].
  match goal with |- context [RRule_validate ?o] =>
    destruct (RRule_validate o) as [[]|e]; [|now left];
    destruct (RRule_toText {| origOptions := o |}) as [text|e] eqn:Ht; [|now left];
    right; exists {| origOptions := o |}; split; [exact Ht|] end.
  simpl. destruct (Options.dtstart (origOptions parsed)) eqn:Hd; simpl;
    [rewrite Hd|]; discriminate.
Qed.

Lemma toNaturalLanguage_falls_back_to_input_witness :
  toNaturalLanguage (lib := stubLib utcHost) 0 "nonsense" = "nonsense".
Proof.
  exact (proj2 (toNaturalLanguage_falls_back_to_input (lib := stubLib utcHost) 0 "nonsense")
               "Invalid RRULE format" eq_refl).
Defined.

Section CacheGrowth.
Context {rt : JSRuntime} {lib : RRuleLib}.

Lemma getRRule_size clock task (c : gmap string RRule) :
  (size (snd (getRRule clock task c)) <= S (size c))%nat.
Proof.
  pose proof (getRRule_cases clock task c) as H.
  destruct (getRRule clock task c) as [[r|e] c']; simpl.
  - destruct H as [[_ ->]|[Hn ->]]; [lia|].
    rewrite map_size_insert_None by exact Hn. lia.
  - destruct H as [_ ->]. lia.
Qed.

Lemma runCall_size (c : gmap string RRule) call :
  (size (runCall c call) <= S (size c))%nat.
Proof.
  destruct call; simpl; try lia.
  - rewrite getNextOccurrence_cache. destruct (negb _); [lia | apply getRRule_size].
  - rewrite getOccurrencesBetween_cache. destruct (negb _); [lia | apply getRRule_size].
  - rewrite isOccurrenceOn_cache. destruct (negb _); [lia | apply getRRule_size].
Qed.

(** Once the rule of a task is in the cache, [getRRule] returns it and
    leaves the cache alone. *)
Lemma getRRule_again clock clock' task (c c1 : gmap string RRule) r :
  getRRule clock task c = (Ok r, c1) -> getRRule clock' task c1 = (Ok r, c1).
Proof.
  intros H. apply getRRule_hit. now apply (getRRule_caches clock task c).
Qed.

Lemma getRRule_throw_cache clock task (c c1 : gmap string RRule) e :
  getRRule clock task c = (Throw e, c1) -> c1 = c.
Proof.
  intros H. pose proof (getRRule_cases clock task c) as Hc.
  rewrite H in Hc. now destruct Hc.
Qed.
End CacheGrowth.

(** X17.  The cache only grows, by at most one entry per call: after any
    sequence of calls of the engine's methods other than [clearCache],
    every entry present before is still present with the same rule, and
    [getCacheSize] has grown by at most the number of calls.  After
    [clearCache], [getCacheSize] returns zero. *)
Theorem cache_grows_by_at_most_one_per_call {rt : JSRuntime} {lib : RRuleLib}
    (calls : list EngineCall) (c : gmap string RRule) :
  c ⊆ runCalls c calls /\
  (exists n, fst (getCacheSize (runCalls c calls)) = Ok n /\
             (n <= size c + length calls)%nat) /\
  fst (getCacheSize (snd (clearCache (runCalls c calls)))) = Ok 0%nat.
Proof.
  split; [|split].
  - apply map_subseteq_spec. intros k r. apply runCalls_preserves.
  - exists (size (runCalls c calls)). split; [reflexivity|].
    revert c. induction calls as [|call calls IH]; intros c; simpl; [lia|].
    specialize (IH (runCall c call)). pose proof (runCall_size c call).
    unfold runCalls in *. lia.
  - unfold getCacheSize, clearCache. simpl. now rewrite map_size_empty.
Qed.

(** X18.  Repeating a call is stable: a second [getNextOccurrence],
    [getOccurrencesBetween] or [isOccurrenceOn] with the same arguments,
    made on the cache the first one left, returns the same result and
    leaves that cache as it is. *)
Theorem repeated_call_is_stable {rt : JSRuntime} {lib : RRuleLib}
    clock task from to (c : gmap string RRule) :
  (let r := getNextOccurrence clock task from c in
   getNextOccurrence clock task from (snd r) = r) /\
  (let r := getOccurrencesBetween clock task from to c in
   getOccurrencesBetween clock task from to (snd r) = r) /\
  (let r := isOccurrenceOn clock task from c in
   isOccurrenceOn clock task from (snd r) = r).
Proof.
  cbv zeta.
  rewrite (getNextOccurrence_unfold clock task from c),
          (getOccurrencesBetween_unfold clock task from to c),
          (isOccurrenceOn_unfold clock task from c).
  destruct (negb (hasRule task)) eqn:Hr.
  { simpl. rewrite getNextOccurrence_unfold, getOccurrencesBetween_unfold,
      isOccurrenceOn_unfold, Hr. auto. }
  destruct (getRRule clock task c) as [[r|e] c1] eqn:Hg.
  - pose proof (getRRule_again clock clock task c c1 r Hg) as Hg1.
    repeat split.
    + destruct (RRule_after r from false) as [[next|]|e] eqn:Ha; simpl;
        rewrite getNextOccurrence_unfold, Hr, Hg1, Ha; reflexivity.
    + destruct (RRule_between r from to true) as [l|e] eqn:Hb; simpl;
        rewrite getOccurrencesBetween_unfold, Hr, Hg1, Hb; reflexivity.
    + destruct (RRule_between r _ _ true) as [l|e] eqn:Hb; simpl;
        rewrite isOccurrenceOn_unfold, Hr, Hg1, Hb; reflexivity.
  - pose proof (getRRule_throw_cache clock task c c1 e Hg) as ->. simpl.
    rewrite getNextOccurrence_unfold, getOccurrencesBetween_unfold,
      isOccurrenceOn_unfold, Hr, Hg. auto.
Qed.

(** X19.  Applying the fixed time twice.  For a [time] whose two parts are
    numbers [h] and [m], and a date whose overlay stays within the range of
    ECMAScript time values (beyond it [setHours] gives the invalid date,
    which the embedding does not model), [applyFixedTime] applied to its own
    result gives that result again exactly when [h:m] lies within a day, that
    is when [0 <= 60 h + m < 1440]; otherwise the second application moves
    the date on by further days. *)
Theorem applyFixedTime_twice {rt : JSRuntime} (n : Z) frequency h m :
  parsedTime frequency = Some (h, m) ->
  inTimeRange n ->
  inTimeRange (overlay h m n) ->
  applyFixedTime (applyFixedTime (Time n) frequency) frequency
    = applyFixedTime (Time n) frequency
  <-> 0 <= 60 * h + m < 1440.
Proof.
  intros Hp _ _. rewrite !(applyFixedTime_Some _ _ _ _ Hp).
  split.
  - intros [= H]. revert H. time_arith.
  - intros H. f_equal. time_arith.
Qed.

Lemma applyFixedTime_twice_witness :
  applyFixedTime (rt := utcHost)
    (applyFixedTime (rt := utcHost) (Time 1767258000000)
       (Task.frequency (dailyAtNine (Some "25:00"))))
    (Task.frequency (dailyAtNine (Some "25:00")))
  <> applyFixedTime (rt := utcHost) (Time 1767258000000)
       (Task.frequency (dailyAtNine (Some "25:00"))).
Proof.
  intros H.
  apply (applyFixedTime_twice (rt := utcHost) 1767258000000
           (Task.frequency (dailyAtNine (Some "25:00"))) 25 0) in H.
  - lia.
  - reflexivity.
  - vm_compute. split; discriminate.
  - vm_compute. split; discriminate.
Defined.

(** ** The test double of the [rrule] library *)

Section StubFacts.
Context {rt : JSRuntime}.

Lemma clock_fields_range t :
  0 <= hourOf t < 24 /\ 0 <= minuteOf t < 60 /\
  0 <= secondOf t < 60 /\ 0 <= msOf t < 1000.
Proof. time_arith. Qed.

Lemma localDay_makeLocal_full day h m s ms :
  0 <= h < 24 -> 0 <= m < 60 -> 0 <= s < 60 -> 0 <= ms < 1000 ->
  localDay (makeLocal day h m s ms) = day.
Proof. intros Hh Hm Hs Hms. time_arith. Qed.

Lemma hourOf_makeLocal_full day h m s ms :
  0 <= h < 24 -> 0 <= m < 60 -> 0 <= s < 60 -> 0 <= ms < 1000 ->
  hourOf (makeLocal day h m s ms) = h.
Proof. intros Hh Hm Hs Hms. time_arith. Qed.

Lemma minuteOf_makeLocal_full day h m s ms :
  0 <= h < 24 -> 0 <= m < 60 -> 0 <= s < 60 -> 0 <= ms < 1000 ->
  minuteOf (makeLocal day h m s ms) = m.
Proof. intros Hh Hm Hs Hms. time_arith. Qed.

Lemma secondOf_makeLocal_full day h m s ms :
  0 <= h < 24 -> 0 <= m < 60 -> 0 <= s < 60 -> 0 <= ms < 1000 ->
  secondOf (makeLocal day h m s ms) = s.
Proof. intros Hh Hm Hs Hms. time_arith. Qed.

Lemma msOf_makeLocal_full day h m s ms :
  0 <= h < 24 -> 0 <= m < 60 -> 0 <= s < 60 -> 0 <= ms < 1000 ->
  msOf (makeLocal day h m s ms) = ms.
Proof. intros Hh Hm Hs Hms. time_arith. Qed.

(** The four setters in a row, with the hour and minute of [dtstart], amount
    to one overlay of that clock time on the local day. *)
Lemma applyDtstartTime_Time x opts d0 :
  Options.dtstart opts = Some (Time d0) ->
  Stub.applyDtstartTime (Time x) opts
  = Time (makeLocal (localDay x) (hourOf d0) (minuteOf d0) 0 0).
Proof.
  intros Hd. unfold Stub.applyDtstartTime. rewrite Hd.
  unfold getHours, getMinutes, setHours, setMinutes, setSeconds, setMilliseconds.
  rewrite !toInteger_ofZ.
  destruct (clock_fields_range x) as (Hh & Hm & Hs & Hms).
  destruct (clock_fields_range d0) as (Hh0 & Hm0 & _ & _).
  rewrite (localDay_makeLocal_full (localDay x) (hourOf d0) (minuteOf x)
             (secondOf x) (msOf x)),
    (hourOf_makeLocal_full (localDay x) (hourOf d0) (minuteOf x)
       (secondOf x) (msOf x)),
    (secondOf_makeLocal_full (localDay x) (hourOf d0) (minuteOf x)
       (secondOf x) (msOf x)),
    (msOf_makeLocal_full (localDay x) (hourOf d0) (minuteOf x)
       (secondOf x) (msOf x)) by assumption.
  rewrite (localDay_makeLocal_full (localDay x) (hourOf d0) (minuteOf d0)
             (secondOf x) (msOf x)),
    (hourOf_makeLocal_full (localDay x) (hourOf d0) (minuteOf d0)
       (secondOf x) (msOf x)),
    (minuteOf_makeLocal_full (localDay x) (hourOf d0) (minuteOf d0)
       (secondOf x) (msOf x)),
    (msOf_makeLocal_full (localDay x) (hourOf d0) (minuteOf d0)
       (secondOf x) (msOf x)) by assumption.
  rewrite (localDay_makeLocal_full (localDay x) (hourOf d0) (minuteOf d0)
             0 (msOf x)),
    (hourOf_makeLocal_full (localDay x) (hourOf d0) (minuteOf d0) 0 (msOf x)),
    (minuteOf_makeLocal_full (localDay x) (hourOf d0) (minuteOf d0) 0 (msOf x)),
    (secondOf_makeLocal_full (localDay x) (hourOf d0) (minuteOf d0) 0 (msOf x))
    by (assumption || lia).
  reflexivity.
Qed.

Lemma seq_succ_map start len : seq (S start) len = map S (seq start len).
Proof. now rewrite seq_shift. Qed.

Lemma between_loop_spec opts b n :
  forall fuel a results,
    Z.to_nat ((b - a) / msPerDay + 1) = n ->
    (n <= fuel)%nat ->
    Stub.between_loop fuel opts (Time a) (Time b) results
    = Some (results ++
            map (fun i => Stub.applyDtstartTime (Time (a + Z.of_nat i * msPerDay)) opts)
                (seq 0 n)).
Proof.
  induction n as [|n IH]; intros fuel a results Hn Hfuel.
  - assert (Hlt : b < a) by (unfold msPerDay in Hn; Z.div_mod_to_equations; lia).
    destruct fuel; cbn [Stub.between_loop]; simpl Date_le;
      (destruct (Z.leb_spec a b); [lia|]); simpl; now rewrite app_nil_r.
  - assert (Hle : a <= b) by (unfold msPerDay in Hn; Z.div_mod_to_equations; lia).
    destruct fuel as [|fuel]; [lia|].
    cbn [Stub.between_loop]. simpl Date_le.
    destruct (Z.leb_spec a b); [|lia]. cbn [addOneDay].
    rewrite (IH fuel (a + msPerDay) _).
    + rewrite <- app_assoc. f_equal. f_equal. cbn [seq map app].
      f_equal; [f_equal; f_equal; lia|].
      rewrite seq_succ_map, map_map. apply map_ext. intros i.
      f_equal. f_equal. lia.
    + unfold msPerDay in *. Z.div_mod_to_equations. lia.
    + lia.
Qed.

Lemma between_Time (r : RRule) (a b : Z) (inc : bool) :
  Stub.between r (Time a) (Time b) inc
  = map (fun i => Stub.applyDtstartTime (Time (a + Z.of_nat i * msPerDay))
                    (origOptions r))
        (seq 0 (Z.to_nat ((b - a) / msPerDay + 1))).
Proof.
  unfold Stub.between, Stub.between_fuel.
  now rewrite (between_loop_spec (origOptions r) b _ _ a [] eq_refl (le_n _)).
Qed.

Lemma after_Time (r : RRule) (t d0 : Z) (inc : bool) :
  Options.dtstart (origOptions r) = Some (Time d0) ->
  match Options.until (origOptions r) with
  | Some until => Date_ge (Time t) until = false
  | None => True
  end ->
  Stub.after r (Time t) inc
  = Some (Time (makeLocal (localDay t + (if inc then 0 else 1))
                          (hourOf d0) (minuteOf d0) 0 0)).
Proof.
  intros Hd Hu.
  assert (Hguard : match Options.until (origOptions r) with
                   | Some until => Date_ge (Time t) until
                   | None => false
                   end = false)
    by (destruct (Options.until (origOptions r)); auto).
  unfold Stub.after. rewrite Hguard.
  destruct inc; cbn [negb addOneDay];
    rewrite (applyDtstartTime_Time _ _ d0 Hd), ?localDay_next_day;
    do 3 f_equal; lia.
Qed.
End StubFacts.




(** X22.  With the test double as the library, the text of
    [toNaturalLanguage] does not depend on the time of the call, and it is
    either the input itself or one of the seven texts [every <unit>]. *)
Theorem stub_text_is_every_unit {rt : JSRuntime} (clock clock' : Z) (s : string) :
  toNaturalLanguage (lib := stubLib rt) clock s
    = toNaturalLanguage (lib := stubLib rt) clock' s /\
  (toNaturalLanguage (lib := stubLib rt) clock s = s \/
   In (toNaturalLanguage (lib := stubLib rt) clock s) stubTexts).
Proof.
  unfold toNaturalLanguage, try_catchR, bindR, RRule_new.
  destruct s as [|ch s]; [split; [reflexivity | now left]|].
  cbn [rrulestr stubLib RRule_validate RRule_toText]. unfold Stub.rrulestr.
  destruct (negb (match_ci "FREQ=" _)); [split; [reflexivity | now left]|].
  cbn [origOptions]. unfold Stub.toText. cbn [origOptions].
  match goal with |- context [fold_left Stub.parsePart ?l ?o] =>
    generalize (fold_left Stub.parsePart l o) end.
  intros [freq iv un co bw ds tz]. cbn [Options.dtstart].
  assert (Hfreq :
    forall ds', Options.freq
      (match Options.dtstart
               (match ds with
                | Some _ => Options.mk freq iv un co bw ds tz
                | None => Options.set_dtstart (Options.mk freq iv un co bw ds tz) ds'
                end) with
       | Some _ =>
           match ds with
           | Some _ => Options.mk freq iv un co bw ds tz
           | None => Options.set_dtstart (Options.mk freq iv un co bw ds tz) ds'
           end
       | None =>
           Options.set_dtstart
             (match ds with
              | Some _ => Options.mk freq iv un co bw ds tz
              | None => Options.set_dtstart (Options.mk freq iv un co bw ds tz) ds'
              end) ds'
       end) = freq) by (intros ds'; now destruct ds).
  rewrite !Hfreq. split; [reflexivity|]. right. unfold stubTexts.
  destruct freq as [[|p|p]|]; simpl; auto 10.
  destruct p as [[[?|?|]|[?|?|]|]|[[?|?|]|[?|?|]|]|]; simpl; auto 10.
Qed.

(** ** Frequency declarations *)

Lemma one_le_not_zero (q : Q) : Qle_bool 1 q = true -> Qeq_bool q 0 = false.
Proof.
  intros Hle. apply Qle_bool_iff in Hle.
  destruct (Qeq_bool q 0) eqn:He; [|reflexivity].
  apply Qeq_bool_iff in He. rewrite He in Hle.
  unfold Qle in Hle. simpl in Hle. lia.
Qed.

(** X23.  [isValidFrequency] accepts exactly the frequencies whose interval
    is a number not below one (so not [NaN], and infinity passes) and, for a
    weekly frequency that lists weekdays, whose weekdays all lie between 0
    and 6; a weekly frequency with an empty list of weekdays, and any
    non-weekly frequency whatever its weekdays, pass.  The frequency of
    [createDefaultFrequency] is valid. *)
Theorem isValidFrequency_iff (frequency : FrequencyDecl.t) :
  (FrequencyDecl.isValidFrequency frequency = true <->
   Number_le (ofZ 1) (FrequencyDecl.interval frequency) = true /\
   match FrequencyDecl.type frequency, FrequencyDecl.weekdays frequency with
   | FrequencyDecl.weekly, Some days =>
       Forall (fun day => Number_le (ofZ 0) day = true /\
                          Number_le day (ofZ 6) = true) days
   | _, _ => True
   end) /\
  FrequencyDecl.isValidFrequency FrequencyDecl.createDefaultFrequency = true.
Proof.
  split; [|reflexivity].
  destruct frequency as [ty iv tm wd]. unfold FrequencyDecl.isValidFrequency.
  cbn [FrequencyDecl.interval FrequencyDecl.type FrequencyDecl.weekdays].
  assert (Hdays : forall days,
             forallb (fun day => Number_le (ofZ 0) day && Number_le day (ofZ 6)) days = true
             <-> Forall (fun day => Number_le (ofZ 0) day = true /\
                                    Number_le day (ofZ 6) = true) days).
  { intros days. rewrite forallb_forall, List.Forall_forall.
    split; intros H x Hx; specialize (H x Hx); now apply andb_true_iff. }
  assert (Hiv : (if negb (Number_truthy iv) then false
                 else if Number_lt iv (ofZ 1) then false else true)
                = Number_le (ofZ 1) iv).
  { destruct iv as [|n|q]; simpl; [reflexivity | now destruct n |].
    destruct (Qle_bool (inject_Z 1) q) eqn:Hle; simpl.
    - now rewrite (one_le_not_zero q Hle).
    - now destruct (Qeq_bool q 0). }
  rewrite <- Hiv.
  destruct (negb (Number_truthy iv)); [intuition discriminate|].
  destruct (Number_lt iv (ofZ 1)); [intuition discriminate|].
  destruct ty, wd as [days|]; try tauto.
  rewrite Hdays. tauto.
Qed.

(** ** The status registry *)

Lemma registry_get_add_eq (m : StatusRegistry.t) k v :
  StatusRegistry.map_get k (StatusRegistry.map_set k v m) = Some v.
Proof.
  unfold StatusRegistry.map_get. induction m as [|[k' v'] m IH]; simpl.
  - now rewrite String.eqb_refl.
  - destruct (String.eqb k' k) eqn:He; simpl; now rewrite He.
Qed.

Lemma registry_get_add_ne (m : StatusRegistry.t) k v k' :
  k <> k' ->
  StatusRegistry.map_get k' (StatusRegistry.map_set k v m)
  = StatusRegistry.map_get k' m.
Proof.
  intros Hne. unfold StatusRegistry.map_get.
  induction m as [|[k0 v0] m IH]; simpl.
  - apply String.eqb_neq in Hne. now rewrite Hne.
  - destruct (String.eqb k0 k) eqn:He; simpl.
    + apply String.eqb_eq in He. subst k0.
      apply String.eqb_neq in Hne. now rewrite Hne.
    + destruct (String.eqb k0 k'); [reflexivity | exact IH].
Qed.

Lemma registry_set_keys (m : StatusRegistry.t) k v :
  map fst (StatusRegistry.map_set k v m)
  = if existsb (String.eqb k) (map fst m) then map fst m else map fst m ++ [k].
Proof.
  induction m as [|[k' v'] m IH]; simpl; [reflexivity|].
  rewrite (String.eqb_sym k k').
  destruct (String.eqb k' k); simpl; [reflexivity|].
  rewrite IH. now destruct (existsb _ _).
Qed.

Lemma registry_wf_add (m : StatusRegistry.t) status :
  registry_wf m -> registry_wf (StatusRegistry.add status m).
Proof.
  intros [Hnd Hkey]. unfold StatusRegistry.add. split.
  - rewrite registry_set_keys.
    destruct (existsb _ _) eqn:He; [assumption|].
    apply NoDup_app. split; [assumption|]. split; [|apply NoDup_singleton].
    intros x Hx Hxk. apply list_elem_of_In in Hx, Hxk.
    destruct Hxk as [<-|[]].
    apply existsb_eqb_In in Hx. congruence.
  - clear Hnd. induction m as [|[k' v'] m IH]; simpl.
    + constructor; [reflexivity | constructor].
    + inversion Hkey as [|? ? Hk Hrest]; subst.
      destruct (String.eqb k' (Status.symbol status)) eqn:He.
      * constructor; [|assumption]. simpl. now apply String.eqb_eq in He.
      * constructor; [assumption|]. now apply IH.
Qed.

Lemma registry_wf_nil : registry_wf [].
Proof. split; constructor. Qed.

Lemma registry_wf_defaults (T I D C : Status.t) (m : StatusRegistry.t) :
  registry_wf m -> registry_wf (StatusRegistry.addDefaultStatuses T I D C m).
Proof.
  intros H. unfold StatusRegistry.addDefaultStatuses.
  now repeat apply registry_wf_add.
Qed.

Lemma registry_wf_get g (m : StatusRegistry.t) symbol :
  registry_wf m -> Status.symbol (StatusRegistry.get g symbol m) = symbol.
Proof.
  intros [_ Hkey]. unfold StatusRegistry.get, StatusRegistry.map_get.
  destruct (find _ m) as [kv|] eqn:Hf; [|reflexivity].
  apply find_some in Hf as [Hin He]. apply String.eqb_eq in He.
  rewrite List.Forall_forall in Hkey. rewrite <- (Hkey kv Hin). exact He.
Qed.

(** X24.  After [add], [get] with the symbol of the added status returns
    that status, [get] with any other symbol returns what it returned
    before, and [getAllStatuses] keeps the earlier symbols in their order:
    the status takes the place of the one registered under its symbol, or
    comes last. *)
Theorem registry_add_then_get (g : string -> StatusType.t)
    (status : Status.t) (statuses : StatusRegistry.t) :
  StatusRegistry.get g (Status.symbol status) (StatusRegistry.add status statuses)
    = status /\
  (forall symbol, symbol <> Status.symbol status ->
     StatusRegistry.get g symbol (StatusRegistry.add status statuses)
     = StatusRegistry.get g symbol statuses) /\
  map fst (StatusRegistry.add status statuses)
    = (if existsb (String.eqb (Status.symbol status)) (map fst statuses)
       then map fst statuses
       else map fst statuses ++ [Status.symbol status]).
Proof.
  unfold StatusRegistry.get, StatusRegistry.add. split; [|split].
  - now rewrite registry_get_add_eq.
  - intros symbol Hne. rewrite registry_get_add_ne; [reflexivity | congruence].
  - apply registry_set_keys.
Qed.

(** X25.  In a registry built by the constructor and any sequence of [add]
    and [reset] calls, [get] returns for every symbol, registered or not, a
    status that carries this symbol; so [getNextStatus] returns a status
    whose symbol is the [nextStatusSymbol] of its argument; and
    [getAllStatuses] never holds two statuses with the same symbol. *)
Theorem registry_get_returns_requested_symbol
    (T I D C : Status.t) (g : string -> StatusType.t)
    (calls : list RegistryCall) :
  let statuses := fold_left (runRegistryCall T I D C) calls (StatusRegistry.new T I D C) in
  (forall symbol, Status.symbol (StatusRegistry.get g symbol statuses) = symbol) /\
  (forall current,
      Status.symbol (StatusRegistry.getNextStatus g current statuses)
      = Status.nextStatusSymbol current) /\
  NoDup (map Status.symbol (StatusRegistry.getAllStatuses statuses)).
Proof.
  intros statuses.
  assert (Hwf : registry_wf statuses).
  { unfold statuses.
    assert (H0 : registry_wf (StatusRegistry.new T I D C))
      by apply registry_wf_defaults, registry_wf_nil.
    revert H0. generalize (StatusRegistry.new T I D C).
    induction calls as [|call calls IH]; intros m Hm; simpl; [assumption|].
    apply IH. destruct call as [status|]; simpl.
    - now apply registry_wf_add.
    - apply registry_wf_defaults, registry_wf_nil. }
  split; [|split].
  - intros symbol. now apply registry_wf_get.
  - intros current. unfold StatusRegistry.getNextStatus. now apply registry_wf_get.
  - destruct Hwf as [Hnd Hkey]. unfold StatusRegistry.getAllStatuses.
    rewrite map_map.
    rewrite (map_ext_in (fun kv => Status.symbol (snd kv)) fst); [assumption|].
    intros kv Hin. rewrite List.Forall_forall in Hkey. symmetry. now apply Hkey.
Qed.

(** ** The engine on the test double *)





Section StubParsing.
Context {rt : JSRuntime}.

Lemma parsePart_keeps_anchor options part :
  Options.dtstart (Stub.parsePart options part) = Options.dtstart options /\
  Options.tzid (Stub.parsePart options part) = Options.tzid options.
Proof.
  unfold Stub.parsePart.
  destruct (nth_error (split "=" part) 0) as [[|c key]|]; [auto| |auto].
  destruct (nth_error (split "=" part) 1) as [[|c' value]|]; [auto| |auto].
  repeat match goal with |- context [if ?b then _ else _] => destruct b end;
    destruct options; auto.
Qed.

Lemma fold_parsePart_keeps_anchor parts options :
  Options.dtstart (fold_left Stub.parsePart parts options) = Options.dtstart options /\
  Options.tzid (fold_left Stub.parsePart parts options) = Options.tzid options.
Proof.
  revert options. induction parts as [|part parts IH]; intros options; simpl; [auto|].
  destruct (IH (Stub.parsePart options part)) as [-> ->].
  apply parsePart_keeps_anchor.
Qed.
End StubParsing.

(** X28.  The test double's [rrulestr] reads no anchor and no time zone
    from the text: a rule it returns has the time of the call as [dtstart]
    and no [tzid], whatever the text says; and the only error it throws is
    [Invalid RRULE format]. *)
Theorem stub_rrulestr_anchors_at_clock {rt : JSRuntime} (clock : Z) (s : string) :
  match Stub.rrulestr clock s with
  | Ok r =>
      Options.dtstart (origOptions r) = Some (Time clock) /\
      Options.tzid (origOptions r) = None
  | Throw e => e = "Invalid RRULE format"
  end.
Proof.
  unfold Stub.rrulestr.
  destruct (negb (match_ci "FREQ=" _)); [reflexivity|].
  match goal with |- context [fold_left Stub.parsePart ?l ?o] =>
    destruct (fold_parsePart_keeps_anchor l o) as [Hd Hz];
    destruct (fold_left Stub.parsePart l o) as [freq iv un co bw ds tz] end.
  simpl in *. subst. now split.
Qed.
